(** * kuato: session transcript parser and file-based search

    A shallow embedding of [shared/parser.ts], [file-based/search-lib.ts]
    and the option handling of [file-based/search.ts], and the properties
    of the specification checked against it.

    Conventions of the embedding.
    - A JavaScript string is a [string] whose characters are UTF-16 code
      units below 256 (Latin-1); [toLowerCase], [trim] and the [\s] class
      are written out for that range.
    - A JSON number is an integer ([Z]) and sums are exact: fractional
      values are not represented, and the rounding of doubles beyond 2^53
      is not modelled.
    - A transcript line is represented by what [JSON.parse] makes of it:
      [None] when [JSON.parse] throws a SyntaxError, [Some v] when it
      returns the value [v].  The parser reads a line in no other way.
    - [undefined] is [None] in [option json].
    - A statement either completes normally or abruptly.  The abrupt
      completions are [Throw], a thrown SyntaxError or TypeError (no
      [catch] of the program tells them apart), and [Unmodelled], which
      marks an execution that reaches a coercion of a value whose kind the
      declarations of [shared/types.ts] exclude (a non-string stored in a
      string field, a non-number added to a counter).  The embedding gives
      such executions no result, and no [catch] handles them. *)

From Stdlib Require Import ZArith String Ascii DecimalString Sorted.
From stdpp Require Import base option list strings gmap fin_maps.

Set Warnings "-register-all".

Local Open Scope string_scope.
Local Open Scope Z_scope.

(** ** JavaScript strings *)

Module JsString.

(** White space as [String.prototype.trim] and the regular expression
    class [\s] see it, for code units below 256: TAB, LF, VT, FF, CR,
    SPACE and NO-BREAK SPACE. *)
Definition isWhiteSpace (c : ascii) : bool :=
  let n := N_of_ascii c in
  ((9 <=? n) && (n <=? 13) || (n =? 32) || (n =? 160))%N.

(** [toLowerCase] of one code unit: A-Z, and the Latin-1 capitals
    U+00C0..U+00DE except the multiplication sign U+00D7. *)
Definition toLowerChar (c : ascii) : ascii :=
  let n := N_of_ascii c in
  if ((65 <=? n) && (n <=? 90) ||
      (192 <=? n) && (n <=? 222) && negb (n =? 215))%N
  then ascii_of_N (n + 32) else c.

Fixpoint toLowerCase (s : string) : string :=
  match s with
  | EmptyString => EmptyString
  | String c s' => String (toLowerChar c) (toLowerCase s')
  end.

Fixpoint trimStart (s : string) : string :=
  match s with
  | EmptyString => EmptyString
  | String c s' => if isWhiteSpace c then trimStart s' else s
  end.

Fixpoint trimEnd (s : string) : string :=
  match s with
  | EmptyString => EmptyString
  | String c s' =>
      match trimEnd s' with
      | EmptyString => if isWhiteSpace c then EmptyString else String c EmptyString
      | t => String c t
      end
  end.

Definition trim (s : string) : string := trimEnd (trimStart s).

(** [s.startsWith(t)] *)
Fixpoint startsWith (s t : string) : bool :=
  match t, s with
  | EmptyString, _ => true
  | String b t', String a s' => if Ascii.eqb a b then startsWith s' t' else false
  | String _ _, EmptyString => false
  end.

(** [s.includes(t)]: [t] occurs in [s] at some position. *)
Fixpoint includes (s t : string) : bool :=
  startsWith s t ||
  match s with
  | EmptyString => false
  | String _ s' => includes s' t
  end.

(** [s.endsWith(t)]: [t] starts at position [length s - length t]. *)
Fixpoint endsWith (s t : string) : bool :=
  (String.eqb s t) ||
  match s with
  | EmptyString => false
  | String _ s' => endsWith s' t
  end.

(** [s.split(/\s+/).filter(Boolean)]: the maximal runs of characters that
    are not white space, in order.  [cur] is the run being read. *)
Fixpoint splitWhiteSpace (s cur : string) : list string :=
  match s with
  | EmptyString => if String.eqb cur "" then [] else [cur]
  | String c s' =>
      if isWhiteSpace c
      then (if String.eqb cur "" then [] else [cur]) ++ splitWhiteSpace s' ""
      else splitWhiteSpace s' (cur ++ String c "")
  end.

(** [ToString] of an integer number. *)
Definition ofNumber (n : Z) : string := NilZero.string_of_int (Z.to_int n).

End JsString.

(** ** JSON values and the operations the parser applies to them *)

Inductive json : Type :=
| JNull
| JBool (b : bool)
| JNum (n : Z)
| JStr (s : string)
| JArr (xs : list json)
| JObj (kvs : list (string * json)).

(** A JavaScript value read from a parsed line: [None] is [undefined]. *)
Abbreviation jsval := (option json).

Inductive abrupt : Type := Throw | Unmodelled.

Inductive completion (A : Type) : Type :=
| Normal (a : A)
| Abrupt (e : abrupt).
Arguments Normal {A} a.
Arguments Abrupt {A} e.

Definition bind {A B} (m : completion A) (f : A → completion B) : completion B :=
  match m with
  | Normal a => f a
  | Abrupt e => Abrupt e
  end.

Notation "'let*' x ':=' m 'in' k" := (bind m (fun x => k))
  (at level 10, x name, m at level 100, k at level 200).

(** [try { body } catch { handler }]: a thrown error is handled, an
    execution outside the embedding stays outside. *)
Definition tryCatch {A} (body : completion A) (handler : completion A) : completion A :=
  match body with
  | Abrupt Throw => handler
  | other => other
  end.

(** [for (const x of xs) { acc = step(acc, x) }] *)
Fixpoint forOf {A S} (step : S → A → completion S) (xs : list A) (acc : S) : completion S :=
  match xs with
  | [] => Normal acc
  | x :: rest => let* acc' := step acc x in forOf step rest acc'
  end.

Module Js.

(** Own property lookup in a parsed object.  [JSON.parse] yields objects
    with distinct keys; the list is in property enumeration order. *)
Fixpoint lookup (kvs : list (string * json)) (k : string) : jsval :=
  match kvs with
  | [] => None
  | (k', v) :: rest => if String.eqb k' k then Some v else lookup rest k
  end.

(** [v.k] for the property names the parser reads (none of them is a
    member of a built-in prototype): a TypeError on [undefined] and [null],
    the own property of an object, [undefined] on anything else. *)
Definition get (v : jsval) (k : string) : completion jsval :=
  match v with
  | None | Some JNull => Abrupt Throw
  | Some (JObj kvs) => Normal (lookup kvs k)
  | Some _ => Normal None
  end.

(** [v?.k] *)
Definition getOpt (v : jsval) (k : string) : completion jsval :=
  match v with
  | None | Some JNull => Normal None
  | _ => get v k
  end.

(** [ToBoolean] *)
Definition truthy (v : jsval) : bool :=
  match v with
  | None | Some JNull => false
  | Some (JBool b) => b
  | Some (JNum n) => negb (n =? 0)%Z
  | Some (JStr s) => negb (String.eqb s "")
  | Some (JArr _) | Some (JObj _) => true
  end.

(** [v === 'lit'] *)
Definition isStr (v : jsval) (lit : string) : bool :=
  match v with
  | Some (JStr s) => String.eqb s lit
  | _ => false
  end.

(** [v === n] *)
Definition isNum (v : jsval) (n : Z) : bool :=
  match v with
  | Some (JNum m) => (m =? n)%Z
  | _ => false
  end.


(** A truthy value stored where [types.ts] declares a [string]. *)
Definition asString (v : json) : completion string :=
  match v with
  | JStr s => Normal s
  | _ => Abrupt Unmodelled
  end.

(** [v || 'dflt'] stored in a [string] field. *)
Definition stringOr (v : jsval) (dflt : string) : completion string :=
  match v with
  | Some j => if truthy v then asString j else Normal dflt
  | None => Normal dflt
  end.

(** [v || 0] added to a [number] counter. *)
Definition numberOrZero (v : jsval) : completion Z :=
  match v with
  | Some (JNum n) => Normal n
  | Some _ => if truthy v then Abrupt Unmodelled else Normal 0
  | None => Normal 0
  end.

(** [Object.entries(v)] for a truthy [v]: the own properties of an object,
    the indexed elements of an array, the indexed characters of a string,
    nothing for a number or a boolean. *)
Definition indexKey (i : nat) : string := NilZero.string_of_uint (Nat.to_uint i).

Fixpoint charEntries (s : string) (i : nat) : list (string * json) :=
  match s with
  | EmptyString => []
  | String c s' => (indexKey i, JStr (String c "")) :: charEntries s' (S i)
  end.

Definition entries (v : json) : list (string * json) :=
  match v with
  | JObj kvs => kvs
  | JArr xs => imap (fun i x => (indexKey i, x)) xs
  | JStr s => charEntries s 0
  | JNull | JBool _ | JNum _ => []
  end.

(** [set.add(x)] on a [Set<string>], kept in insertion order as
    [Array.from] returns it. *)
Definition setAdd (x : string) (s : list string) : list string :=
  if decide (x ∈ s) then s else s ++ [x].

End Js.

(** [a && b] and [a || b] over conditions that may throw; the right
    operand is evaluated only when the left one does not decide. *)
Definition andC (a b : completion bool) : completion bool :=
  let* x := a in if x then b else Normal false.
Definition orC (a b : completion bool) : completion bool :=
  let* x := a in if x then Normal true else b.

(** [xs.find(p)] and [xs.filter(p)] for a predicate that may throw. *)
Fixpoint findC {A} (p : A → completion bool) (xs : list A) : completion (option A) :=
  match xs with
  | [] => Normal None
  | x :: rest => let* b := p x in if b then Normal (Some x) else findC p rest
  end.

Fixpoint filterC {A} (p : A → completion bool) (xs : list A) : completion (list A) :=
  match xs with
  | [] => Normal []
  | x :: rest => let* b := p x in let* tl := filterC p rest in Normal (if b then x :: tl else tl)
  end.

(** ** shared/types.ts *)

(** A [Date]: its time value in milliseconds, [None] for an Invalid Date. *)
Abbreviation Date := (option Z).

(** A raw transcript line, as [JSON.parse] sees it. *)
Abbreviation line := (option json).

Module Types.

Record TokenCounts : Type := {
  input : Z;
  output : Z;
  cacheCreation : Z;
  cacheRead : Z;
}.

Record ParsedSession : Type := {
  id : string;
  startedAt : Date;
  endedAt : Date;
  gitBranch : string;
  cwd : string;
  version : string;
  messageCount : nat;
  inputTokens : Z;
  outputTokens : Z;
  cacheCreationTokens : Z;
  cacheReadTokens : Z;
  userMessages : list string;
  toolsUsed : list string;
  filesFromToolCalls : list string;
  modelsUsed : list string;
  modelTokens : gmap string TokenCounts;
}.

(** A JavaScript [number] built by the command line: [parseInt] yields an
    integer or [NaN]. *)
Inductive number : Type := NaN | Int (n : Z).

Record SearchOptions : Type := {
  query : option string;
  days : option number;
  since : option Date;
  until : option Date;
  tools : option (list string);
  filePattern : option string;
  limit : option number;
}.

Record SearchResult : Type := {
  session : ParsedSession;
  relevance : option Z;
  matchedOn : option (list string);
  transcriptPath : string;
}.

End Types.

(** ** The host: what the program asks of its runtime *)

Class Host : Type := {
  (** [new Date(s)] for a string: the time value, [None] for NaN. *)
  Date_parse : string → Date;
  (** [new Date().getTime()] at the n-th reading of the clock. *)
  Date_now : nat → Z;
  (** [readFileSync(path, 'utf-8')], given by the non-blank lines of
      [content.trim().split('\n')]; [None] when it throws. *)
  readFileSync : string → option (list line);
  (** [readdirSync(dir)]; [None] when it throws. *)
  readdirSync : string → option (list string);
  (** [statSync(path).isDirectory()]; [None] when [statSync] throws. *)
  statIsDirectory : string → option bool;
  (** [join(dir, name)] *)
  join : string → string → string;
  DEFAULT_CLAUDE_SESSIONS_DIR : string;
  DEFAULT_PI_SESSIONS_DIR : string;
}.

(** ** shared/parser.ts *)

Module Parser.

Import JsString.

Inductive SessionFormat : Type := claude | pi | unknown.

Definition JSON_parse (l : line) : completion json :=
  match l with
  | Some v => Normal v
  | None => Abrupt Throw
  end.

(** [v.type === lit] *)
Definition typeIs (v : json) (lit : string) : completion bool :=
  let* ty := Js.get (Some v) "type" in Normal (Js.isStr ty lit).

(** The body of the [try] holds no unmodelled coercion: whatever ends it
    abruptly is a throw, and the [catch] returns ['unknown']. *)
Definition detectSessionFormat (firstLine : line) : SessionFormat :=
  let body : completion SessionFormat :=
    let* parsed := JSON_parse firstLine in
    let* isPi := andC (typeIs parsed "session")
                (let* ver := Js.get (Some parsed) "version" in Normal (Js.isNum ver 3)) in
    if isPi then Normal pi else
    let* isClaude := orC (typeIs parsed "user") (typeIs parsed "assistant") in
    if isClaude then Normal claude else Normal unknown in
  match body with
  | Normal fmt => fmt
  | Abrupt _ => unknown
  end.

(** The accumulators of a normalizer, named as its local variables. *)
Record Locals : Type := {
  userMessages : list string;
  toolsUsed : list string;
  filesFromToolCalls : list string;
  modelsUsed : list string;
  inputTokens : Z;
  outputTokens : Z;
  cacheCreationTokens : Z;
  cacheReadTokens : Z;
  modelTokens : gmap string Types.TokenCounts;
}.

Definition initialLocals : Locals :=
  {| userMessages := []; toolsUsed := []; filesFromToolCalls := [];
     modelsUsed := [];
     inputTokens := 0; outputTokens := 0;
     cacheCreationTokens := 0; cacheReadTokens := 0;
     modelTokens := ∅ |}.

Definition pushUserMessage (text : string) (st : Locals) : Locals :=
  {| userMessages := userMessages st ++ [text];
     toolsUsed := toolsUsed st; filesFromToolCalls := filesFromToolCalls st;
     modelsUsed := modelsUsed st;
     inputTokens := inputTokens st; outputTokens := outputTokens st;
     cacheCreationTokens := cacheCreationTokens st;
     cacheReadTokens := cacheReadTokens st;
     modelTokens := modelTokens st |}.

Definition addTool (name : string) (st : Locals) : Locals :=
  {| userMessages := userMessages st;
     toolsUsed := Js.setAdd name (toolsUsed st);
     filesFromToolCalls := filesFromToolCalls st;
     modelsUsed := modelsUsed st;
     inputTokens := inputTokens st; outputTokens := outputTokens st;
     cacheCreationTokens := cacheCreationTokens st;
     cacheReadTokens := cacheReadTokens st;
     modelTokens := modelTokens st |}.

Definition withFiles (files : list string) (st : Locals) : Locals :=
  {| userMessages := userMessages st; toolsUsed := toolsUsed st;
     filesFromToolCalls := files;
     modelsUsed := modelsUsed st;
     inputTokens := inputTokens st; outputTokens := outputTokens st;
     cacheCreationTokens := cacheCreationTokens st;
     cacheReadTokens := cacheReadTokens st;
     modelTokens := modelTokens st |}.

Definition addModel (name : string) (st : Locals) : Locals :=
  {| userMessages := userMessages st; toolsUsed := toolsUsed st;
     filesFromToolCalls := filesFromToolCalls st;
     modelsUsed := Js.setAdd name (modelsUsed st);
     inputTokens := inputTokens st; outputTokens := outputTokens st;
     cacheCreationTokens := cacheCreationTokens st;
     cacheReadTokens := cacheReadTokens st;
     modelTokens := modelTokens st |}.

Definition withModelTokens (mt : gmap string Types.TokenCounts) (st : Locals) : Locals :=
  {| userMessages := userMessages st; toolsUsed := toolsUsed st;
     filesFromToolCalls := filesFromToolCalls st;
     modelsUsed := modelsUsed st;
     inputTokens := inputTokens st; outputTokens := outputTokens st;
     cacheCreationTokens := cacheCreationTokens st;
     cacheReadTokens := cacheReadTokens st;
     modelTokens := mt |}.

(** The four [+=] on the session-level counters. *)
Definition addSessionTokens (u : Types.TokenCounts) (st : Locals) : Locals :=
  {| userMessages := userMessages st; toolsUsed := toolsUsed st;
     filesFromToolCalls := filesFromToolCalls st;
     modelsUsed := modelsUsed st;
     inputTokens := inputTokens st + Types.input u;
     outputTokens := outputTokens st + Types.output u;
     cacheCreationTokens := cacheCreationTokens st + Types.cacheCreation u;
     cacheReadTokens := cacheReadTokens st + Types.cacheRead u;
     modelTokens := modelTokens st |}.

Definition zeroCounts : Types.TokenCounts :=
  {| Types.input := 0; Types.output := 0;
     Types.cacheCreation := 0; Types.cacheRead := 0 |}.

Definition addCounts (u c : Types.TokenCounts) : Types.TokenCounts :=
  {| Types.input := Types.input c + Types.input u;
     Types.output := Types.output c + Types.output u;
     Types.cacheCreation := Types.cacheCreation c + Types.cacheCreation u;
     Types.cacheRead := Types.cacheRead c + Types.cacheRead u |}.

(** The members every object literal inherits from [Object.prototype]. *)
Definition objectPrototypeKeys : list string :=
  [ "constructor"; "hasOwnProperty"; "isPrototypeOf"; "propertyIsEnumerable";
    "toLocaleString"; "toString"; "valueOf"; "__proto__";
    "__defineGetter__"; "__defineSetter__";
    "__lookupGetter__"; "__lookupSetter__" ].

(** [modelTokens[model]] is truthy: an own bucket, or an inherited member. *)
Definition hasEntry (mt : gmap string Types.TokenCounts) (model : string) : bool :=
  bool_decide (is_Some (mt !! model)) || bool_decide (model ∈ objectPrototypeKeys).

(** [if (model) { modelsUsed.add(model); if (!modelTokens[model])
    modelTokens[model] = {input: 0, ...} }] *)
Definition trackModel (model : option string) (st : Locals) : Locals :=
  match model with
  | Some name =>
      let st := addModel name st in
      if hasEntry (modelTokens st) name then st
      else withModelTokens (<[name := zeroCounts]> (modelTokens st)) st
  | None => st
  end.

(** [if (model && modelTokens[model]) { modelTokens[model].input += ... }].
    When [modelTokens[model]] is an inherited member the four [+=] write to
    that built-in object and leave the mapping as it is. *)
Definition addModelTokens (model : option string) (u : Types.TokenCounts)
    (st : Locals) : Locals :=
  match model with
  | Some name =>
      if hasEntry (modelTokens st) name
      then withModelTokens (alter (addCounts u) name (modelTokens st)) st
      else st
  | None => st
  end.

(** The four [usage.f || 0] of one usage object, in the order read. *)
Definition readUsage (fIn fOut fCreate fRead : string) (usage : jsval)
  : completion Types.TokenCounts :=
  let* vIn := Js.get usage fIn in let* nIn := Js.numberOrZero vIn in
  let* vOut := Js.get usage fOut in let* nOut := Js.numberOrZero vOut in
  let* vCreate := Js.get usage fCreate in let* nCreate := Js.numberOrZero vCreate in
  let* vRead := Js.get usage fRead in let* nRead := Js.numberOrZero vRead in
  Normal {| Types.input := nIn; Types.output := nOut;
          Types.cacheCreation := nCreate; Types.cacheRead := nRead |}.

(** [if (v) ...] for a value then used as a string. *)
Definition truthyString (v : jsval) : completion (option string) :=
  match v with
  | Some j => if Js.truthy v then let* s := Js.asString j in Normal (Some s) else Normal None
  | None => Normal None
  end.

Definition pathKeys : list string :=
  [ "file_path"; "path"; "file"; "filename"; "filePath" ].

(** [value.includes('/') || value.includes('\\')] *)
Definition looksLikePath (value : string) : bool :=
  includes value "/" || includes value "\".

(** The first [if] of the loop body of [extractFilePaths]. *)
Definition addIfPath (key : string) (value : json) (files : list string) : list string :=
  match value with
  | JStr s =>
      if bool_decide (key ∈ pathKeys) && looksLikePath s
      then Js.setAdd s files else files
  | _ => files
  end.

(** [extractFilePaths(input, files)], returning the set after the call.
    The loop runs over [Object.entries(input)] ([Js.entries]); the second
    [if] of its body recurses on a value that is an object and not an
    array. *)
Fixpoint extractFilePaths (input : json) (files : list string) {struct input}
  : list string :=
  match input with
  | JObj kvs =>
      (fix entriesLoop (l : list (string * json)) (files : list string) :=
         match l with
         | [] => files
         | (key, value) :: rest =>
             let files := addIfPath key value files in
             let files := match value with
                          | JObj _ => extractFilePaths value files
                          | _ => files
                          end in
             entriesLoop rest files
         end) kvs files
  | JArr xs =>
      (fix elementsLoop (l : list json) (i : nat) (files : list string) :=
         match l with
         | [] => files
         | value :: rest =>
             let files := addIfPath (Js.indexKey i) value files in
             let files := match value with
                          | JObj _ => extractFilePaths value files
                          | _ => files
                          end in
             elementsLoop rest (S i) files
         end) xs 0%nat files
  | JStr s =>
      fold_left (fun files kv => addIfPath kv.1 kv.2 files) (Js.charEntries s 0) files
  | JNull | JBool _ | JNum _ => files
  end.

(** [if (block.type === tag && block.name) { toolsUsed.add(block.name);
    if (block[args]) extractFilePaths(block[args], filesFromToolCalls) }]:
    [extractFromContentBlock] with tag [tool_use] and arguments in
    [input], [extractFromPiContentBlock] with [toolCall] and [arguments]. *)
Definition extractFromBlock (tag args : string) (st : Locals) (block : json)
  : completion Locals :=
  let* isTool := typeIs block tag in
  if isTool then
    let* nameV := Js.get (Some block) "name" in
    let* name := truthyString nameV in
    match name with
    | Some name =>
        let st := addTool name st in
        let* input := Js.get (Some block) args in
        match input with
        | Some i =>
            if Js.truthy input
            then Normal (withFiles (extractFilePaths i (filesFromToolCalls st)) st)
            else Normal st
        | None => Normal st
        end
    | None => Normal st
    end
  else Normal st.

Definition extractFromContentBlock : Locals → json → completion Locals :=
  extractFromBlock "tool_use" "input".

Definition extractFromPiContentBlock : Locals → json → completion Locals :=
  extractFromBlock "toolCall" "arguments".

(** [if (Array.isArray(content)) for (const block of content) ...] *)
Definition forBlocks (step : Locals → json → completion Locals)
    (content : jsval) (st : Locals) : completion Locals :=
  match content with
  | Some (JArr blocks) => forOf step blocks st
  | _ => Normal st
  end.

(** [new Date(v)] *)
Definition timeClip (t : Z) : Date :=
  if Z.abs t <=? 8640000000000000 then Some t else None.

Definition newDate `{Host} (v : jsval) : completion Date :=
  match v with
  | None => Normal None
  | Some (JStr s) => Normal (Date_parse s)
  | Some (JNum n) => Normal (timeClip n)
  | Some JNull => Normal (Some 0)
  | Some (JBool b) => Normal (Some (if b then 1 else 0))
  | Some (JArr _) | Some (JObj _) => Abrupt Unmodelled
  end.

(** [sessionId?.match(/([a-f0-9-]{36})\.jsonl$/)?.[1]]: the pattern ends
    at the end of the string, so only the last 42 characters can match. *)
Definition isIdChar (c : ascii) : bool :=
  let n := N_of_ascii c in
  ((97 <=? n) && (n <=? 102) || (48 <=? n) && (n <=? 57) || (n =? 45))%N.

Definition matchSessionId (sessionId : option string) : option string :=
  match sessionId with
  | None => None
  | Some path =>
      let n := String.length path in
      if (42 <=? n)%nat then
        let candidate := substring (n - 42) 36 path in
        if String.eqb (substring (n - 6) 6 path) ".jsonl"
           && forallb isIdChar (list_ascii_of_string candidate)
        then Some candidate else None
      else None
  end.

(** [sessionId?.match(...)?.[1] || embedded || 'unknown'] *)
Definition deriveId (sessionId : option string) (embedded : jsval) : completion string :=
  match matchSessionId sessionId with
  | Some id => Normal id
  | None => Js.stringOr embedded "unknown"
  end.

Definition makeSession (id : string) (startedAt endedAt : Date)
    (gitBranch cwd version : string) (messageCount : nat) (st : Locals)
  : Types.ParsedSession :=
  {| Types.id := id;
     Types.startedAt := startedAt;
     Types.endedAt := endedAt;
     Types.gitBranch := gitBranch;
     Types.cwd := cwd;
     Types.version := version;
     Types.messageCount := messageCount;
     Types.inputTokens := inputTokens st;
     Types.outputTokens := outputTokens st;
     Types.cacheCreationTokens := cacheCreationTokens st;
     Types.cacheReadTokens := cacheReadTokens st;
     Types.userMessages := userMessages st;
     Types.toolsUsed := toolsUsed st;
     Types.filesFromToolCalls := filesFromToolCalls st;
     Types.modelsUsed := modelsUsed st;
     Types.modelTokens := modelTokens st |}.

(** *** The Claude normalizer *)

(** The body of the first loop: [try { parsed = JSON.parse(line); if
    (parsed.type === 'user' || parsed.type === 'assistant')
    messages.push(parsed) } catch { continue }]. *)
Definition collectMessage (messages : list json) (l : line) : completion (list json) :=
  tryCatch
    (let* parsed := JSON_parse l in
     let* isTurn := orC (typeIs parsed "user") (typeIs parsed "assistant") in
     Normal (if isTurn then (messages ++ [parsed])%list else messages))
    (Normal messages).

(** The body of the second loop. *)
Definition claudeTurn (st : Locals) (msg : json) : completion Locals :=
  let* isUser := typeIs msg "user" in
  if isUser then
    let* userMsg := Js.get (Some msg) "message" in
    let* content := Js.get userMsg "content" in
    match content with
    | Some (JStr text) =>
        if negb (String.eqb (trim text) "")
        then Normal (pushUserMessage text st) else Normal st
    | _ => Normal st
    end
  else
  let* isAssistant := typeIs msg "assistant" in
  if isAssistant then
    let* assistantMsg := Js.get (Some msg) "message" in
    let* modelV := Js.get assistantMsg "model" in
    let* model := truthyString modelV in
    let st := trackModel model st in
    let* usage := Js.get assistantMsg "usage" in
    let* st := (if Js.truthy usage then
            let* u := readUsage "input_tokens" "output_tokens"
                  "cache_creation_input_tokens" "cache_read_input_tokens" usage in
            Normal (addModelTokens model u (addSessionTokens u st))
          else Normal st) in
    let* content := Js.get assistantMsg "content" in
    forBlocks extractFromContentBlock content st
  else Normal st.

Definition parseClaudeSessionContent `{Host} (lines : list line)
    (sessionId : option string) : completion (option Types.ParsedSession) :=
  let* messages := forOf collectMessage lines [] in
  match messages with
  | [] => Normal None
  | firstMessage :: _ =>
      let lastMessage := default firstMessage (last messages) in
      let* st := forOf claudeTurn messages initialLocals in
      let* embedded := Js.get (Some firstMessage) "sessionId" in
      let* id := deriveId sessionId embedded in
      let* firstTs := Js.get (Some firstMessage) "timestamp" in
      let* startedAt := newDate firstTs in
      let* lastTs := Js.get (Some lastMessage) "timestamp" in
      let* endedAt := newDate lastTs in
      let* gitBranchV := Js.get (Some firstMessage) "gitBranch" in
      let* gitBranch := Js.stringOr gitBranchV "unknown" in
      let* cwdV := Js.get (Some firstMessage) "cwd" in
      let* cwd := Js.stringOr cwdV "" in
      let* versionV := Js.get (Some firstMessage) "version" in
      let* version := Js.stringOr versionV "" in
      Normal (Some (makeSession id startedAt endedAt gitBranch cwd version
                    (length messages) st))
  end.

(** *** The Pi normalizer *)

(** The body of the first loop: [try { allMessages.push(JSON.parse(line)) }
    catch { continue }]. *)
Definition collectPiMessage (allMessages : list json) (l : line) : completion (list json) :=
  tryCatch
    (let* parsed := JSON_parse l in Normal (allMessages ++ [parsed])%list)
    (Normal allMessages).

(** [message.role === lit] *)
Definition roleIs (message : jsval) (lit : string) : completion bool :=
  let* role := Js.get message "role" in Normal (Js.isStr role lit).

(** [m.type === 'message' && m.message && (m.message.role === 'user' ||
    m.message.role === 'assistant')] *)
Definition isConversation (m : json) : completion bool :=
  andC (typeIs m "message")
       (let* message := Js.get (Some m) "message" in
        if Js.truthy message
        then orC (roleIs message "user") (roleIs message "assistant")
        else Normal false).

(** [m.type === 'message' && m.message?.role === 'toolResult'] *)
Definition isToolResult (m : json) : completion bool :=
  andC (typeIs m "message")
       (let* message := Js.get (Some m) "message" in
        let* role := Js.getOpt message "role" in
        Normal (Js.isStr role "toolResult")).

(** [if (change.modelId) modelsUsed.add(change.modelId)] *)
Definition modelChange (st : Locals) (change : json) : completion Locals :=
  let* modelIdV := Js.get (Some change) "modelId" in
  let* modelId := truthyString modelIdV in
  match modelId with
  | Some name => Normal (addModel name st)
  | None => Normal st
  end.

(** [if (block.type === 'text' && block.text) userMessages.push(block.text)] *)
Definition piUserBlock (st : Locals) (block : json) : completion Locals :=
  let* isText := typeIs block "text" in
  if isText then
    let* textV := Js.get (Some block) "text" in
    let* text := truthyString textV in
    match text with
    | Some text => Normal (pushUserMessage text st)
    | None => Normal st
    end
  else Normal st.

(** The body of the loop over [conversationMessages].  The usage fields
    are read through [readUsage] in the order input, output, cacheWrite,
    cacheRead; the source reads cacheRead before cacheWrite, and neither
    read can throw. *)
Definition piTurn (st : Locals) (msg : json) : completion Locals :=
  let* message := Js.get (Some msg) "message" in
  let* role := Js.getOpt message "role" in
  if Js.isStr role "user" then
    let* content := Js.get message "content" in
    forBlocks piUserBlock content st
  else if Js.isStr role "assistant" then
    let* topModel := Js.get (Some msg) "model" in
    let* modelV := (if Js.truthy topModel then Normal topModel
                    else Js.get message "model") in
    let* topUsage := Js.get (Some msg) "usage" in
    let* usage := (if Js.truthy topUsage then Normal topUsage
                   else Js.get message "usage") in
    let* model := truthyString modelV in
    let st := trackModel model st in
    let* st := (if Js.truthy usage then
                  let* u := readUsage "input" "output" "cacheWrite" "cacheRead" usage in
                  Normal (addModelTokens model u (addSessionTokens u st))
                else Normal st) in
    let* content := Js.get message "content" in
    forBlocks extractFromPiContentBlock content st
  else Normal st.

(** [if (result.toolName) toolsUsed.add(result.toolName)] *)
Definition toolResult (st : Locals) (result : json) : completion Locals :=
  let* toolNameV := Js.get (Some result) "toolName" in
  let* toolName := truthyString toolNameV in
  match toolName with
  | Some name => Normal (addTool name st)
  | None => Normal st
  end.

(** [sessionMessage.version?.toString() || ''] *)
Definition piVersion (version : jsval) : completion string :=
  match version with
  | None | Some JNull => Normal ""
  | Some (JNum n) => Normal (ofNumber n)
  | Some (JStr s) => Normal s
  | Some (JBool b) => Normal (if b then "true" else "false")
  | Some (JArr _) | Some (JObj _) => Abrupt Unmodelled
  end.

Definition parsePiSessionContent `{Host} (lines : list line)
    (sessionId : option string) : completion (option Types.ParsedSession) :=
  let* allMessages := forOf collectPiMessage lines [] in
  match allMessages with
  | [] => Normal None
  | _ :: _ =>
      let* sessionMessage := findC (fun m => typeIs m "session") allMessages in
      let* conversationMessages := filterC isConversation allMessages in
      match sessionMessage, conversationMessages with
      | Some sessionMessage, firstMsg :: _ =>
          let* modelChanges := filterC (fun m => typeIs m "model_change") allMessages in
          let* st := forOf modelChange modelChanges initialLocals in
          let* st := forOf piTurn conversationMessages st in
          let* toolResults := filterC isToolResult allMessages in
          let* st := forOf toolResult toolResults st in
          let* embedded := Js.get (Some sessionMessage) "id" in
          let* id := deriveId sessionId embedded in
          let lastMsg := default firstMsg (last conversationMessages) in
          let* firstTs := Js.get (Some firstMsg) "timestamp" in
          let* startedAt := newDate firstTs in
          let* lastTs := Js.get (Some lastMsg) "timestamp" in
          let* endedAt := newDate lastTs in
          let* cwdV := Js.get (Some sessionMessage) "cwd" in
          let* cwd := Js.stringOr cwdV "" in
          let* versionV := Js.get (Some sessionMessage) "version" in
          let* version := piVersion versionV in
          Normal (Some (makeSession id startedAt endedAt "unknown" cwd version
                          (length conversationMessages) st))
      | _, _ => Normal None
      end
  end.

(** *** Dispatch *)

(** [parseSessionContent(content, sessionId)], on the non-blank lines of
    [content]. *)
Definition parseSessionContent `{Host} (lines : list line)
    (sessionId : option string) : completion (option Types.ParsedSession) :=
  match lines with
  | [] => Normal None
  | firstLine :: _ =>
      match detectSessionFormat firstLine with
      | pi => parsePiSessionContent lines sessionId
      | claude => parseClaudeSessionContent lines sessionId
      | unknown => Normal None
      end
  end.

Definition parseSessionFile `{Host} (filePath : string)
  : completion (option Types.ParsedSession) :=
  tryCatch
    (let* content := (match readFileSync filePath with
                      | Some content => Normal content
                      | None => Abrupt Throw
                      end) in
     parseSessionContent content (Some filePath))
    (Normal None).

(** [parts.join(sep)] *)
Fixpoint joinWith (sep : string) (parts : list string) : string :=
  match parts with
  | [] => ""
  | part :: rest =>
      match rest with
      | [] => part
      | _ :: _ => part ++ sep ++ joinWith sep rest
      end
  end.

Definition getSearchableText (session : Types.ParsedSession) : string :=
  joinWith " " (Types.userMessages session ++ Types.toolsUsed session
                ++ Types.filesFromToolCalls session)%list.

End Parser.

(** ** file-based/search-lib.ts *)

Module SearchLib.

Import JsString.

Definition findSessionDirs `{Host} (baseDir : string) : list string :=
  match readdirSync baseDir with
  | Some names =>
      List.filter
        (fun path => match statIsDirectory path with
                     | Some isDir => isDir
                     | None => false
                     end)
        (map (join baseDir) names)
  | None => []
  end.

Definition getDefaultDirectories `{Host} (source : string) : list string :=
  if String.eqb source "claude" then [DEFAULT_CLAUDE_SESSIONS_DIR]
  else if String.eqb source "pi" then [DEFAULT_PI_SESSIONS_DIR]
  else [DEFAULT_CLAUDE_SESSIONS_DIR; DEFAULT_PI_SESSIONS_DIR].

Definition findSessionFiles `{Host} (dir : string) (options : Types.SearchOptions)
  : list string :=
  match readdirSync dir with
  | Some names =>
      map (join dir) (List.filter (fun file => endsWith file ".jsonl") names)
  | None => []
  end.

(** One of the three scoring loops of [scoreRelevance]: every item
    against every term, on the local variables [score] and [matchedOn]. *)
Definition scoreTerm (weight : Z) (category itemLower : string)
    (st : Z * list string) (term : string) : Z * list string :=
  if includes itemLower term
  then (st.1 + weight,
        if bool_decide (category ∈ st.2) then st.2 else (st.2 ++ [category])%list)
  else st.

Definition scoreItems (weight : Z) (category : string) (items queryTerms : list string)
    (st : Z * list string) : Z * list string :=
  fold_left
    (fun st item => fold_left (scoreTerm weight category (toLowerCase item)) queryTerms st)
    items st.

(** The local variables [score] and [matchedOn] when [scoreRelevance]
    reaches its last statement. *)
Definition scoreLocals (session : Types.ParsedSession) (query : string)
  : Z * list string :=
  let queryLower := toLowerCase query in
  let queryTerms := splitWhiteSpace queryLower "" in
  let st := (0, []) in
  let st := scoreItems 10 "userMessages" (Types.userMessages session) queryTerms st in
  let st := scoreItems 3 "toolsUsed" (Types.toolsUsed session) queryTerms st in
  scoreItems 3 "filesFromToolCalls" (Types.filesFromToolCalls session) queryTerms st.

Definition scoreRelevance (session : Types.ParsedSession) (query : string) : Z :=
  if String.eqb query "" then 1
  else (scoreLocals session query).1.

(** [a < b] on dates: a comparison with an Invalid Date is false. *)
Definition dateLt (a b : Date) : bool :=
  match a, b with
  | Some x, Some y => x <? y
  | _, _ => false
  end.

Definition numberTruthy (n : Types.number) : bool :=
  match n with
  | Types.NaN => false
  | Types.Int n => negb (n =? 0)
  end.

(** The local variable [since] of [matchesFilters] before it is read. *)
Definition sinceBound (now : Z) (options : Types.SearchOptions) : option Date :=
  match Types.since options with
  | Some since => Some since
  | None =>
      match Types.days options with
      | Some (Types.Int days) =>
          if numberTruthy (Types.Int days)
          then Some (Parser.timeClip (now - days * 24 * 60 * 60 * 1000))
          else None
      | Some Types.NaN | None => None
      end
  end.

(** [options.tools.some(tool => session.toolsUsed.some(t =>
    t.toLowerCase().includes(tool.toLowerCase())))] *)
Definition hasMatchingTool (session : Types.ParsedSession) (tools : list string) : bool :=
  existsb
    (fun tool =>
       existsb (fun t => includes (toLowerCase t) (toLowerCase tool))
               (Types.toolsUsed session))
    tools.

Definition hasMatchingFile (session : Types.ParsedSession) (filePattern : string) : bool :=
  let pattern := toLowerCase filePattern in
  existsb (fun f => includes (toLowerCase f) pattern)
          (Types.filesFromToolCalls session).

(** The conditions of the four early [return false] of [matchesFilters]. *)
Definition endsBeforeSince (now : Z) (session : Types.ParsedSession)
    (options : Types.SearchOptions) : bool :=
  match sinceBound now options with
  | Some since => dateLt (Types.endedAt session) since
  | None => false
  end.

Definition endsAfterUntil (session : Types.ParsedSession)
    (options : Types.SearchOptions) : bool :=
  match Types.until options with
  | Some until => dateLt until (Types.endedAt session)
  | None => false
  end.

Definition lacksTools (session : Types.ParsedSession)
    (options : Types.SearchOptions) : bool :=
  match Types.tools options with
  | Some tools => (0 <? length tools)%nat && negb (hasMatchingTool session tools)
  | None => false
  end.

Definition lacksFile (session : Types.ParsedSession)
    (options : Types.SearchOptions) : bool :=
  match Types.filePattern options with
  | Some filePattern =>
      negb (String.eqb filePattern "") && negb (hasMatchingFile session filePattern)
  | None => false
  end.

(** [matchesFilters(session, options)] when [new Date()] reads [now]. *)
Definition matchesFilters (now : Z) (session : Types.ParsedSession)
    (options : Types.SearchOptions) : bool :=
  if endsBeforeSince now session options then false
  else if endsAfterUntil session options then false
  else if lacksTools session options then false
  else if lacksFile session options then false
  else true.

(** [options.query] is truthy. *)
Definition hasQuery (options : Types.SearchOptions) : option string :=
  match Types.query options with
  | Some query => if String.eqb query "" then None else Some query
  | None => None
  end.

(** The body of the loop of [processSessionFiles], on the results so far
    and the number of clock readings so far. *)
Definition processSessionFile `{Host} (options : Types.SearchOptions)
    (st : list Types.SearchResult * nat) (filePath : string)
  : completion (list Types.SearchResult * nat) :=
  tryCatch
    (let* parsed := Parser.parseSessionFile filePath in
     match parsed with
     | None => Normal st
     | Some session =>
         if (length (Types.userMessages session) =? 0)%nat then Normal st
         else if negb (matchesFilters (Date_now st.2) session options)
         then Normal (st.1, S st.2)
         else
           let relevance := match hasQuery options with
                            | Some query => scoreRelevance session query
                            | None => 1
                            end in
           if match hasQuery options with
              | Some _ => relevance =? 0
              | None => false
              end then Normal (st.1, S st.2)
           else Normal ((st.1 ++ [ {| Types.session := session;
                                      Types.relevance := Some relevance;
                                      Types.matchedOn := None;
                                      Types.transcriptPath := filePath |} ])%list,
                        S st.2)
     end)
    (Normal st).

Definition processSessionFiles `{Host} (filePaths : list string)
    (options : Types.SearchOptions) (tick : nat)
  : completion (list Types.SearchResult * nat) :=
  forOf (processSessionFile options) filePaths ([], tick).

(** [const files = findSessionFiles(dir, options);
    results.push(...processSessionFiles(files, options))] *)
Definition searchDir `{Host} (options : Types.SearchOptions)
    (st : list Types.SearchResult * nat) (dir : string)
  : completion (list Types.SearchResult * nat) :=
  let files := findSessionFiles dir options in
  let* found := processSessionFiles files options st.2 in
  Normal ((st.1 ++ found.1)%list, found.2).

(** The body of the loop of [searchSessions] over [directories]. *)
Definition searchBaseDir `{Host} (options : Types.SearchOptions)
    (st : list Types.SearchResult * nat) (baseDir : string)
  : completion (list Types.SearchResult * nat) :=
  if String.eqb baseDir DEFAULT_CLAUDE_SESSIONS_DIR
     || endsWith baseDir ".claude/projects"
  then forOf (searchDir options) (findSessionDirs baseDir) st
  else if String.eqb baseDir DEFAULT_PI_SESSIONS_DIR
          || endsWith baseDir ".pi/agent/sessions"
  then
    let sessionDirs := findSessionDirs baseDir in
    if (0 <? length sessionDirs)%nat
    then forOf (searchDir options) sessionDirs st
    else searchDir options st baseDir
  else
    let sessionDirs := findSessionDirs baseDir in
    let* st := (if (0 <? length sessionDirs)%nat
                then forOf (searchDir options) sessionDirs st
                else Normal st) in
    searchDir options st baseDir.

(** The comparator handed to [results.sort]; [None] is NaN. *)
Definition compareResults (a b : Types.SearchResult) : option Z :=
  if negb (bool_decide (Types.relevance a = Types.relevance b))
  then Some (default 0 (Types.relevance b) - default 0 (Types.relevance a))
  else match Types.endedAt (Types.session b), Types.endedAt (Types.session a) with
       | Some tb, Some ta => Some (tb - ta)
       | _, _ => None
       end.

(** [Array.prototype.sort(compare)]: a stable sort, here by insertion.
    [a] is placed after [b] when [compare(a, b) > 0]; a NaN result counts
    as 0.  For a comparator that is not a consistent ordering the standard
    leaves the order to the implementation. *)
Section Sort.
Context {A : Type} (compare : A → A → option Z).

Definition sortsAfter (a b : A) : bool :=
  match compare a b with
  | Some v => 0 <? v
  | None => false
  end.

Fixpoint insert (x : A) (sorted : list A) : list A :=
  match sorted with
  | [] => [x]
  | y :: rest => if sortsAfter x y then y :: insert x rest else x :: sorted
  end.

Fixpoint sort (xs : list A) : list A :=
  match xs with
  | [] => []
  | x :: rest => insert x (sort rest)
  end.
End Sort.

(** [xs.slice(0, end)] for an integer [end]. *)
Definition slice0 {A} (xs : list A) (e : Z) : list A :=
  if e <? 0 then take (Z.to_nat (Z.max (Z.of_nat (length xs) + e) 0)) xs
  else take (Z.to_nat e) xs.

(** [options.limit || 20] *)
Definition effectiveLimit (options : Types.SearchOptions) : Z :=
  match Types.limit options with
  | Some (Types.Int n) => if numberTruthy (Types.Int n) then n else 20
  | Some Types.NaN | None => 20
  end.

(** The statements of [searchSessions] after its loop: sort, then limit. *)
Definition sortAndLimit (results : list Types.SearchResult)
    (options : Types.SearchOptions) : list Types.SearchResult :=
  slice0 (sort compareResults results) (effectiveLimit options).

Definition searchSessions `{Host} (directories : list string)
    (options : Types.SearchOptions) (tick : nat)
  : completion (list Types.SearchResult) :=
  let* found := forOf (searchBaseDir options) directories ([], tick) in
  Normal (sortAndLimit found.1 options).

End SearchLib.

(** *** Formatting the results *)

Module Format.

(** An element of the array [formatResults] returns. *)
Record Formatted : Type := {
  id : string;
  startedAt : string;
  endedAt : string;
  gitBranch : string;
  messageCount : nat;
  inputTokens : Z;
  outputTokens : Z;
  toolsUsed : list string;
  filesFromToolCalls : list string;
  userMessages : list string;
  modelsUsed : list string;
  relevance : option Z;
  transcriptPath : string;
}.

Section WithISO.
(** [Date.prototype.toISOString] on the time value of a valid date. *)
Context (toISOString : Z → string).

(** [date.toISOString()]: a RangeError on an Invalid Date. *)
Definition isoOf (date : Date) : completion string :=
  match date with
  | Some t => Normal (toISOString t)
  | None => Abrupt Throw
  end.

(** The callback of the [map] of [formatResults]. *)
Definition formatResult (r : Types.SearchResult) : completion Formatted :=
  let* startedAt := isoOf (Types.startedAt (Types.session r)) in
  let* endedAt := isoOf (Types.endedAt (Types.session r)) in
  Normal {| id := Types.id (Types.session r);
            startedAt := startedAt;
            endedAt := endedAt;
            gitBranch := Types.gitBranch (Types.session r);
            messageCount := Types.messageCount (Types.session r);
            inputTokens := Types.inputTokens (Types.session r);
            outputTokens := Types.outputTokens (Types.session r);
            toolsUsed := Types.toolsUsed (Types.session r);
            filesFromToolCalls := Types.filesFromToolCalls (Types.session r);
            userMessages := Types.userMessages (Types.session r);
            modelsUsed := Types.modelsUsed (Types.session r);
            relevance := Types.relevance r;
            transcriptPath := Types.transcriptPath r |}.

(** [results.map(r => ({...}))] *)
Fixpoint formatResults (results : list Types.SearchResult) : completion (list Formatted) :=
  match results with
  | [] => Normal []
  | r :: rest =>
      let* formatted := formatResult r in
      let* others := formatResults rest in
      Normal (formatted :: others)
  end.
End WithISO.

End Format.

(** ** file-based/search.ts: the options of the command line *)

Module Cli.

Import JsString.

(** The values [parseArgs] returns: each option is a string when given. *)
Record Values : Type := {
  query : option string;
  days : option string;
  since : option string;
  until : option string;
  tools : option string;
  filePattern : option string;
  limit : option string;
  dir : option string;
  source : option string;
  help : bool;
}.

(** [s.split(',')] *)
Fixpoint splitComma (s cur : string) : list string :=
  match s with
  | EmptyString => [cur]
  | String c s' =>
      if Ascii.eqb c ","%char then cur :: splitComma s' ""
      else splitComma s' (cur ++ String c "")
  end.

Definition isDigit (c : ascii) : bool :=
  let n := N_of_ascii c in ((48 <=? n) && (n <=? 57))%N.

(** The value of the longest prefix of decimal digits, after [acc];
    [seen] tells whether a digit was read. *)
Fixpoint digitsPrefix (s : string) (acc : Z) (seen : bool) : option Z :=
  match s with
  | String c s' =>
      if isDigit c
      then digitsPrefix s' (acc * 10 + (Z.of_N (N_of_ascii c) - 48)) true
      else if seen then Some acc else None
  | EmptyString => if seen then Some acc else None
  end.

(** [parseInt(s, 10)]: leading white space, an optional sign, then the
    longest run of digits; NaN when there is none. *)
Definition parseInt (s : string) : Types.number :=
  let s := trimStart s in
  let signed := match s with
                | String c rest =>
                    if Ascii.eqb c "-"%char then (-1, rest)
                    else if Ascii.eqb c "+"%char then (1, rest)
                    else (1, s)
                | EmptyString => (1, s)
                end in
  match digitsPrefix signed.2 0 false with
  | Some n => Types.Int (signed.1 * n)
  | None => Types.NaN
  end.

(** [v ? f(v) : undefined] for an optional string. *)
Definition whenGiven {A} (v : option string) (f : string → A) : option A :=
  match v with
  | Some s => if String.eqb s "" then None else Some (f s)
  | None => None
  end.

(** What [main] does once the arguments are read. *)
Inductive Action : Type :=
| Help
| Exit (code : Z)
| Search (directories : list string) (options : Types.SearchOptions).

(** [new Date(text)] with the check [isNaN(date.getTime())]: [None] when
    the process exits with an error. *)
Definition checkedDate `{Host} (v : option string) : option (option Date) :=
  match whenGiven v (fun s => s) with
  | Some text =>
      match Date_parse text with
      | Some t => Some (Some (Some t))
      | None => None
      end
  | None => Some None
  end.

Definition main `{Host} (values : Values) : Action :=
  if help values then Help else
  let source := match whenGiven (source values) (fun s => s) with
                | Some s => s
                | None => "all"
                end in
  if negb (bool_decide (source ∈ ["claude"; "pi"; "all"])) then Exit 1 else
  match checkedDate (since values) with
  | None => Exit 1
  | Some since =>
      match checkedDate (until values) with
      | None => Exit 1
      | Some until =>
          let options :=
            {| Types.query := query values;
               Types.days := whenGiven (days values) parseInt;
               Types.since := since;
               Types.until := until;
               Types.tools := whenGiven (tools values) (fun s => splitComma s "");
               Types.filePattern := filePattern values;
               Types.limit := Some (match whenGiven (limit values) parseInt with
                                    | Some n => n
                                    | None => Types.Int 20
                                    end) |} in
          let directories := match whenGiven (dir values) (fun d => [d]) with
                             | Some dirs => dirs
                             | None => SearchLib.getDefaultDirectories source
                             end in
          Search directories options
      end
  end.

End Cli.

(** ** Notions the properties are stated with *)

Module Props.

Import JsString.

(** The transcript with its unparseable lines removed. *)
Definition removeMalformed (lines : list line) : list line :=
  List.filter (fun l => match l with Some _ => true | None => false end) lines.

(** The values of the lines that parse. *)
Definition parsedValues (lines : list line) : list json := omap (fun l => l) lines.

(** A conversational turn of the Claude dialect, of the Pi dialect. *)
Definition isClaudeTurn (v : json) : bool :=
  match orC (Parser.typeIs v "user") (Parser.typeIs v "assistant") with
  | Normal b => b
  | Abrupt _ => false
  end.

Definition isPiTurn (v : json) : bool :=
  match Parser.isConversation v with
  | Normal b => b
  | Abrupt _ => false
  end.

(** The conversational turns of a transcript, in the dialect its first
    line selects. *)
Definition conversationalTurns (lines : list line) : list json :=
  match lines with
  | [] => []
  | firstLine :: _ =>
      match Parser.detectSessionFormat firstLine with
      | Parser.claude => List.filter isClaudeTurn (parsedValues lines)
      | Parser.pi => List.filter isPiTurn (parsedValues lines)
      | Parser.unknown => []
      end
  end.

(** The date of the [timestamp] of a record. *)
Definition timestampDate `{Host} (v : json) : Date :=
  match Js.get (Some v) "timestamp" with
  | Normal ts => match Parser.newDate ts with
                 | Normal d => d
                 | Abrupt _ => None
                 end
  | Abrupt _ => None
  end.

(** [a <= b] on dates; false when either is an Invalid Date. *)
Definition dateLe (a b : Date) : Prop :=
  match a, b with
  | Some x, Some y => x ≤ y
  | _, _ => False
  end.








(** Where the traversal of [extractFilePaths] finds a path: under an
    allow-listed key of the value itself or of a plain object nested, at
    any depth, under keys of plain objects. *)
Inductive PathIn : json → string → Prop :=
| PathIn_here v key s :
    (key, JStr s) ∈ Js.entries v →
    key ∈ Parser.pathKeys →
    Parser.looksLikePath s = true →
    PathIn v s
| PathIn_nested v key kvs s :
    (key, JObj kvs) ∈ Js.entries v →
    PathIn (JObj kvs) s →
    PathIn v s.

(** The same, re-entering the objects found inside an array held under a
    key, as the specification words it. *)
Inductive PathInWithArrays : json → string → Prop :=
| PathInA_here v key s :
    (key, JStr s) ∈ Js.entries v →
    key ∈ Parser.pathKeys →
    Parser.looksLikePath s = true →
    PathInWithArrays v s
| PathInA_nested v key kvs s :
    (key, JObj kvs) ∈ Js.entries v →
    PathInWithArrays (JObj kvs) s →
    PathInWithArrays v s
| PathInA_array v key xs kvs s :
    (key, JArr xs) ∈ Js.entries v →
    JObj kvs ∈ xs →
    PathInWithArrays (JObj kvs) s →
    PathInWithArrays v s.

(** One turn of the loop of [extractFilePaths] on an entry. *)
Definition visitEntry (files : list string) (kv : string * json) : list string :=
  let files := Parser.addIfPath kv.1 kv.2 files in
  match kv.2 with
  | JObj _ => Parser.extractFilePaths kv.2 files
  | _ => files
  end.

(** [PathIn], read off a list of entries. *)
Definition pathInEntries (es : list (string * json)) (s : string) : Prop :=
  (∃ key, (key, JStr s) ∈ es ∧ key ∈ Parser.pathKeys ∧ Parser.looksLikePath s = true)
  ∨ (∃ key kvs, (key, JObj kvs) ∈ es ∧ PathIn (JObj kvs) s).

(** [t] is a substring of [s], the case of letters ignored. *)
Definition substringIgnoringCase (t s : string) : Prop :=
  ∃ pre post, toLowerCase s = pre ++ toLowerCase t ++ post.

Definition withoutTools (options : Types.SearchOptions) : Types.SearchOptions :=
  {| Types.query := Types.query options;
     Types.days := Types.days options;
     Types.since := Types.since options;
     Types.until := Types.until options;
     Types.tools := None;
     Types.filePattern := Types.filePattern options;
     Types.limit := Types.limit options |}.

Definition withoutDays (options : Types.SearchOptions) : Types.SearchOptions :=
  {| Types.query := Types.query options;
     Types.days := None;
     Types.since := Types.since options;
     Types.until := Types.until options;
     Types.tools := Types.tools options;
     Types.filePattern := Types.filePattern options;
     Types.limit := Types.limit options |}.




(** A candidate as [processSessionFiles] builds it, with an end time that
    is a valid date. *)
Definition rankable (r : Types.SearchResult) : Prop :=
  is_Some (Types.relevance r) ∧ is_Some (Types.endedAt (Types.session r)).

(** A user message text that is not blank. *)
Definition notBlank (text : string) : Prop := trim text ≠ "".



(** The terms of a query, as [scoreRelevance] splits it. *)
Definition queryTerms (query : string) : list string :=
  splitWhiteSpace (toLowerCase query) "".

(** The term occurs in the item, the case of the item ignored. *)
Definition termMatches (item term : string) : bool :=
  includes (toLowerCase item) term.

(** The number of pairs of an item and a term that occurs in it. *)
Definition countMatches (items terms : list string) : nat :=
  sum_list_with (fun item => length (List.filter (termMatches item) terms)) items.

(** Some term occurs in some item. *)
Definition anyMatch (items terms : list string) : bool :=
  existsb (fun item => existsb (termMatches item) terms) items.

(** Every character of the string is white space. *)
Definition isBlank (s : string) : bool :=
  forallb isWhiteSpace (list_ascii_of_string s).

Definition withoutFilePattern (options : Types.SearchOptions) : Types.SearchOptions :=
  {| Types.query := Types.query options;
     Types.days := Types.days options;
     Types.since := Types.since options;
     Types.until := Types.until options;
     Types.tools := Types.tools options;
     Types.filePattern := None;
     Types.limit := Types.limit options |}.

(** The text of a user turn of the Claude dialect that the normalizer
    keeps: a string content that is not blank. *)
Definition claudeUserText (msg : json) : option string :=
  match Parser.typeIs msg "user" with
  | Normal true =>
      match Js.get (Some msg) "message" with
      | Normal userMsg =>
          match Js.get userMsg "content" with
          | Normal (Some (JStr text)) =>
              if negb (String.eqb (trim text) "") then Some text else None
          | _ => None
          end
      | Abrupt _ => None
      end
  | _ => None
  end.

(** A file name of 36 characters among [a-f], [0-9] and [-]. *)
Definition isSessionId (id : string) : Prop :=
  String.length id = 36%nat ∧
  forallb Parser.isIdChar (list_ascii_of_string id) = true.

(** The sets among the accumulators of a normalizer hold no duplicates. *)
Definition distinct (st : Parser.Locals) : Prop :=
  NoDup (Parser.toolsUsed st) ∧ NoDup (Parser.filesFromToolCalls st)
  ∧ NoDup (Parser.modelsUsed st).

(** Every model with a bucket of counters is among the models used. *)
Definition bucketsNamed (st : Parser.Locals) : Prop :=
  ∀ model, is_Some (Parser.modelTokens st !! model) → model ∈ Parser.modelsUsed st.

(** A result as [processSessionFiles] builds it for the file at [filePath]. *)
Definition builtFrom `{Host} (options : Types.SearchOptions) (filePath : string)
    (r : Types.SearchResult) : Prop :=
  Types.transcriptPath r = filePath ∧
  Parser.parseSessionFile filePath = Normal (Some (Types.session r)) ∧
  Types.userMessages (Types.session r) ≠ [] ∧
  (∃ tick, SearchLib.matchesFilters (Date_now tick) (Types.session r) options = true) ∧
  Types.matchedOn r = None ∧
  match SearchLib.hasQuery options with
  | Some query =>
      Types.relevance r = Some (SearchLib.scoreRelevance (Types.session r) query) ∧
      0 < SearchLib.scoreRelevance (Types.session r) query
  | None => Types.relevance r = Some 1
  end.

(** [if (!matchedOn.includes(category)) matchedOn.push(category)] *)
Definition addCategory (category : string) (matchedOn : list string) : list string :=
  if bool_decide (category ∈ matchedOn) then matchedOn else (matchedOn ++ [category])%list.

(** The categories in which some term occurs, in the order of the three
    scoring loops. *)
Definition matchedCategories (session : Types.ParsedSession) (terms : list string)
  : list string :=
  ((if anyMatch (Types.userMessages session) terms then ["userMessages"] else [])
   ++ (if anyMatch (Types.toolsUsed session) terms then ["toolsUsed"] else [])
   ++ (if anyMatch (Types.filesFromToolCalls session) terms
       then ["filesFromToolCalls"] else []))%list.

(** The directories [searchSessions] looks into for a base directory: the
    subdirectories only for the Claude directory; for the Pi directory
    the subdirectories, or the directory itself when it has none; for any
    other directory the subdirectories and then the directory itself. *)
Definition searchedDirs `{Host} (baseDir : string) : list string :=
  let sessionDirs := SearchLib.findSessionDirs baseDir in
  if String.eqb baseDir DEFAULT_CLAUDE_SESSIONS_DIR
     || endsWith baseDir ".claude/projects"
  then sessionDirs
  else if String.eqb baseDir DEFAULT_PI_SESSIONS_DIR
          || endsWith baseDir ".pi/agent/sessions"
  then match sessionDirs with [] => [baseDir] | _ :: _ => sessionDirs end
  else (sessionDirs ++ [baseDir])%list.

(** A transcript that [findSessionFiles] lists in [dir]. *)
Definition listedIn `{Host} (dir path : string) : Prop :=
  ∃ names name stem,
    readdirSync dir = Some names ∧ name ∈ names ∧
    name = String.append stem ".jsonl" ∧ path = join dir name.

(** [block] names the tool [name]: a content block of kind [tag] whose
    name is a string that is not empty. *)
Definition namesTool (tag : string) (block : json) (name : string) : Prop :=
  Parser.typeIs block tag = Normal true ∧
  Js.get (Some block) "name" = Normal (Some (JStr name)) ∧ name ≠ "".

(** [block] is a content block of the assistant turn [msg], in the Claude
    dialect and in the Pi dialect. *)
Definition claudeBlock (msg block : json) : Prop :=
  Parser.typeIs msg "assistant" = Normal true ∧
  ∃ message blocks,
    Js.get (Some msg) "message" = Normal message ∧
    Js.get message "content" = Normal (Some (JArr blocks)) ∧ block ∈ blocks.

Definition piBlock (msg block : json) : Prop :=
  ∃ message role blocks,
    Js.get (Some msg) "message" = Normal message ∧
    Js.getOpt message "role" = Normal role ∧ Js.isStr role "assistant" = true ∧
    Js.get message "content" = Normal (Some (JArr blocks)) ∧ block ∈ blocks.

(** [result] is a tool result line of a Pi transcript that names the tool
    [name]. *)
Definition namesToolResult (result : json) (name : string) : Prop :=
  Parser.isToolResult result = Normal true ∧
  Js.get (Some result) "toolName" = Normal (Some (JStr name)) ∧ name ≠ "".

(** [block] is a named tool block of kind [tag] whose arguments, read
    under [args], hold the path [path]. *)
Definition holdsPath (tag args : string) (block : json) (path : string) : Prop :=
  (∃ name, namesTool tag block name) ∧
  ∃ input, Js.get (Some block) args = Normal (Some input) ∧
           Js.truthy (Some input) = true ∧ PathIn input path.

End Props.

(** ** A host for the concrete scenarios *)

Module IsoDate.

(** [Date.parse] on the format [Date.prototype.toISOString] writes,
    [YYYY-MM-DDTHH:mm:ss.sssZ].  Every other string is mapped to [None]
    here; the scenarios use none. *)
Definition digit (c : ascii) : option Z :=
  let n := N_of_ascii c in
  if ((48 <=? n) && (n <=? 57))%N then Some (Z.of_N n - 48) else None.

Fixpoint digits (cs : list ascii) (acc : Z) : option Z :=
  match cs with
  | [] => Some acc
  | c :: rest => match digit c with
                 | Some d => digits rest (acc * 10 + d)
                 | None => None
                 end
  end.

Definition isLeap (y : Z) : bool :=
  (y mod 4 =? 0) && (negb (y mod 100 =? 0) || (y mod 400 =? 0)).

Definition daysInMonth (y m : Z) : Z :=
  if m =? 2 then (if isLeap y then 29 else 28)
  else if (m =? 4) || (m =? 6) || (m =? 9) || (m =? 11) then 30 else 31.

(** Days from 1970-01-01 to the given civil date. *)
Definition daysFromCivil (y m d : Z) : Z :=
  let y := if m <=? 2 then y - 1 else y in
  let era := y / 400 in
  let yoe := y - era * 400 in
  let mp := (m + 9) mod 12 in
  let doy := (153 * mp + 2) / 5 + d - 1 in
  let doe := yoe * 365 + yoe / 4 - yoe / 100 + doy in
  era * 146097 + doe - 719468.

Definition parse (s : string) : Date :=
  match list_ascii_of_string s with
  | [y1; y2; y3; y4; "-"%char; m1; m2; "-"%char; d1; d2; "T"%char;
     h1; h2; ":"%char; n1; n2; ":"%char; s1; s2; "."%char; f1; f2; f3; "Z"%char] =>
      match digits [y1; y2; y3; y4] 0, digits [m1; m2] 0, digits [d1; d2] 0,
            digits [h1; h2] 0, digits [n1; n2] 0, digits [s1; s2] 0,
            digits [f1; f2; f3] 0 with
      | Some y, Some m, Some d, Some h, Some n, Some sec, Some ms =>
          if (1 <=? m) && (m <=? 12) && (1 <=? d) && (d <=? daysInMonth y m)
             && (h <=? 23) && (n <=? 59) && (sec <=? 59)
          then Some ((((daysFromCivil y m d * 24 + h) * 60 + n) * 60 + sec) * 1000 + ms)
          else None
      | _, _, _, _, _, _, _ => None
      end
  | _ => None
  end.

End IsoDate.

Module Scenario.

(** A file system given by its directories and its transcripts. *)
Definition hostOf (now : Z) (dirs : list (string * list string))
    (transcripts : list (string * list line)) : Host :=
  {| Date_parse := IsoDate.parse;
     Date_now := fun _ => now;
     readFileSync := fun path => snd <$> List.find (fun e => String.eqb (fst e) path) transcripts;
     readdirSync := fun path => snd <$> List.find (fun e => String.eqb (fst e) path) dirs;
     statIsDirectory := fun path =>
       Some (existsb (fun e => String.eqb (fst e) path) dirs);
     join := fun dir name => dir ++ "/" ++ name;
     DEFAULT_CLAUDE_SESSIONS_DIR := "/home/dev/.claude/projects";
     DEFAULT_PI_SESSIONS_DIR := "/home/dev/.pi/agent/sessions" |}.

(** 2024-11-03T00:00:00.000Z *)
Definition now : Z := 1730592000000.

Definition claudeRecord (type timestamp : string) (message : json) : json :=
  JObj [ ("parentUuid", JNull);
         ("cwd", JStr "/Users/test/project");
         ("sessionId", JStr "123e4567-e89b-12d3-a456-426614174000");
         ("version", JStr "0.1.0");
         ("gitBranch", JStr "main");
         ("type", JStr type);
         ("message", message);
         ("timestamp", JStr timestamp) ].

Definition userLine (timestamp text : string) : line :=
  Some (claudeRecord "user" timestamp
          (JObj [("role", JStr "user"); ("content", JStr text)])).

(** The scenario of the specification: one user message, one [Edit] call. *)
Definition emailUserLine : line :=
  userLine "2024-02-19T10:00:00.000Z" "Let's build an email filtering system".

Definition emailAssistantLine : line :=
  Some (claudeRecord "assistant" "2024-02-19T10:00:05.000Z"
          (JObj [ ("role", JStr "assistant");
                  ("model", JStr "claude-3-5-sonnet-20241022");
                  ("usage", JObj [ ("input_tokens", JNum 100);
                                   ("output_tokens", JNum 50) ]);
                  ("content",
                   JArr [ JObj [ ("type", JStr "tool_use");
                                 ("id", JStr "toolu_01");
                                 ("name", JStr "Edit");
                                 ("input", JObj [("file_path", JStr "src/api/email.ts")]) ] ]) ])).

Definition emailTranscript : list line := [emailUserLine; emailAssistantLine].

Definition emailPath : string := "/sessions/project/email.jsonl".

Definition emailHost : Host :=
  hostOf now
    [ ("/sessions", ["project"]); ("/sessions/project", ["email.jsonl"; "notes.txt"]) ]
    [ (emailPath, emailTranscript) ].

Definition noOptions : Types.SearchOptions :=
  {| Types.query := None; Types.days := None; Types.since := None;
     Types.until := None; Types.tools := None; Types.filePattern := None;
     Types.limit := None |}.

Definition queryOptions (query : string) : Types.SearchOptions :=
  {| Types.query := Some query; Types.days := None; Types.since := None;
     Types.until := None; Types.tools := None; Types.filePattern := None;
     Types.limit := Some (Types.Int 20) |}.

Definition toolOptions (tools : list string) : Types.SearchOptions :=
  {| Types.query := None; Types.days := None; Types.since := None;
     Types.until := None; Types.tools := Some tools; Types.filePattern := None;
     Types.limit := Some (Types.Int 20) |}.

Definition daysOptions (days : Z) : Types.SearchOptions :=
  {| Types.query := None; Types.days := Some (Types.Int days); Types.since := None;
     Types.until := None; Types.tools := None; Types.filePattern := None;
     Types.limit := Some (Types.Int 20) |}.

Definition limitOptions (limit : Z) : Types.SearchOptions :=
  {| Types.query := None; Types.days := None; Types.since := None;
     Types.until := None; Types.tools := None; Types.filePattern := None;
     Types.limit := Some (Types.Int limit) |}.


(** A Pi transcript whose user turn holds only blanks. *)
Definition piSessionLine : line :=
  Some (JObj [ ("type", JStr "session"); ("version", JNum 3);
               ("id", JStr "b486ac6d-83d4-46b2-bb53-73e37171aa76");
               ("timestamp", JStr "2024-02-19T10:00:00.000Z");
               ("cwd", JStr "/Users/test/pi-project") ]).

Definition piUserLine (timestamp text : string) : line :=
  Some (JObj [ ("type", JStr "message"); ("id", JStr "m1");
               ("timestamp", JStr timestamp);
               ("message", JObj [ ("role", JStr "user");
                                  ("content", JArr [ JObj [ ("type", JStr "text");
                                                            ("text", JStr text) ] ]) ]) ]).

Definition blankPiTranscript : list line :=
  [piSessionLine; piUserLine "2024-02-19T10:00:01.000Z" "   "].

(** Tool arguments with a path under a key of an object inside an array. *)
Definition multiEditInput : json :=
  JObj [ ("edits", JArr [ JObj [ ("file_path", JStr "src/api/email.ts") ] ]) ].

(** Two turns whose timestamps run backwards. *)
Definition backwardsTranscript : list line :=
  [ userLine "2024-02-20T10:00:00.000Z" "second day";
    userLine "2024-02-19T10:00:00.000Z" "first day" ].

(** The scenario with an unparseable line in the middle, and with one
    at the head. *)
Definition interleavedTranscript : list line :=
  [emailUserLine; None; emailAssistantLine].

Definition damagedHeadTranscript : list line :=
  [None; emailUserLine; emailAssistantLine].

(** A Pi transcript of control records only. *)
Definition metadataTranscript : list line :=
  [ piSessionLine;
    Some (JObj [ ("type", JStr "model_change"); ("id", JStr "c1");
                 ("timestamp", JStr "2024-02-19T10:00:00.500Z");
                 ("provider", JStr "anthropic");
                 ("modelId", JStr "claude-sonnet-4-20250514") ]);
    None;
    Some (JObj [ ("type", JStr "thinking_level_change"); ("id", JStr "c2");
                 ("thinkingLevel", JStr "high") ]) ].

(** A session whose tool set is exactly [Edit]. *)
Definition editSession : Types.ParsedSession :=
  {| Types.id := "123e4567-e89b-12d3-a456-426614174000";
     Types.startedAt := Some 1708336800000;
     Types.endedAt := Some 1708336805000;
     Types.gitBranch := "main"; Types.cwd := "/Users/test/project";
     Types.version := "0.1.0"; Types.messageCount := 2;
     Types.inputTokens := 100; Types.outputTokens := 50;
     Types.cacheCreationTokens := 0; Types.cacheReadTokens := 0;
     Types.userMessages := ["Let's build an email filtering system"];
     Types.toolsUsed := ["Edit"];
     Types.filesFromToolCalls := ["src/api/email.ts"];
     Types.modelsUsed := ["claude-3-5-sonnet-20241022"];
     Types.modelTokens :=
       {[ "claude-3-5-sonnet-20241022" :=
            {| Types.input := 100; Types.output := 50;
               Types.cacheCreation := 0; Types.cacheRead := 0 |} ]} |}.

(** The same session when the last turn carries no timestamp. *)
Definition undatedSession : Types.ParsedSession :=
  {| Types.id := Types.id editSession;
     Types.startedAt := Types.startedAt editSession;
     Types.endedAt := None;
     Types.gitBranch := Types.gitBranch editSession;
     Types.cwd := Types.cwd editSession;
     Types.version := Types.version editSession;
     Types.messageCount := Types.messageCount editSession;
     Types.inputTokens := Types.inputTokens editSession;
     Types.outputTokens := Types.outputTokens editSession;
     Types.cacheCreationTokens := Types.cacheCreationTokens editSession;
     Types.cacheReadTokens := Types.cacheReadTokens editSession;
     Types.userMessages := Types.userMessages editSession;
     Types.toolsUsed := Types.toolsUsed editSession;
     Types.filesFromToolCalls := Types.filesFromToolCalls editSession;
     Types.modelsUsed := Types.modelsUsed editSession;
     Types.modelTokens := Types.modelTokens editSession |}.

(** A session of one question and no tool call. *)
Definition questionSession : Types.ParsedSession :=
  {| Types.id := "unknown";
     Types.startedAt := Some 1708336800000;
     Types.endedAt := Some 1708336800000;
     Types.gitBranch := "main"; Types.cwd := ""; Types.version := "";
     Types.messageCount := 1;
     Types.inputTokens := 0; Types.outputTokens := 0;
     Types.cacheCreationTokens := 0; Types.cacheReadTokens := 0;
     Types.userMessages := ["What does the parser skip?"];
     Types.toolsUsed := [];
     Types.filesFromToolCalls := [];
     Types.modelsUsed := [];
     Types.modelTokens := ∅ |}.

(** A lower bound of 2024-02-01 together with a day count. *)
Definition sinceOptions : Types.SearchOptions :=
  {| Types.query := None; Types.days := Some (Types.Int 7);
     Types.since := Some (Some 1706745600000);
     Types.until := None; Types.tools := None; Types.filePattern := None;
     Types.limit := Some (Types.Int 20) |}.

Definition fileOptions (filePattern : string) : Types.SearchOptions :=
  {| Types.query := None; Types.days := None; Types.since := None;
     Types.until := None; Types.tools := None; Types.filePattern := Some filePattern;
     Types.limit := Some (Types.Int 20) |}.

Definition resultOf (session : Types.ParsedSession) (relevance : Z) (path : string)
  : Types.SearchResult :=
  {| Types.session := session; Types.relevance := Some relevance;
     Types.matchedOn := None; Types.transcriptPath := path |}.

(** A Pi transcript with a tool call and its result. *)
Definition piAssistantLine : line :=
  Some (JObj [ ("type", JStr "message"); ("id", JStr "m2");
               ("timestamp", JStr "2024-02-19T10:00:02.000Z");
               ("message",
                JObj [ ("role", JStr "assistant");
                       ("model", JStr "claude-sonnet-4-20250514");
                       ("usage", JObj [ ("input", JNum 10); ("output", JNum 4) ]);
                       ("content",
                        JArr [ JObj [ ("type", JStr "toolCall");
                                      ("name", JStr "read");
                                      ("arguments",
                                       JObj [("path", JStr "src/index.ts")]) ] ]) ]) ]).

Definition piToolResultLine : line :=
  Some (JObj [ ("type", JStr "message"); ("id", JStr "m3");
               ("timestamp", JStr "2024-02-19T10:00:03.000Z");
               ("message", JObj [ ("role", JStr "toolResult") ]);
               ("toolName", JStr "bash") ]).

Definition piToolTranscript : list line :=
  [ piSessionLine; piUserLine "2024-02-19T10:00:01.000Z" "Read the index";
    piAssistantLine; piToolResultLine ].

(** The path of a transcript named after its session. *)
Definition namedPath : string :=
  "/sessions/project/0f8fad5b-d9cb-469f-a165-70867728950e.jsonl".

(** [--query email --since ... --tools Edit,Bash --limit 0 --dir /sessions] *)
Definition cliValues : Cli.Values :=
  {| Cli.query := Some "email"; Cli.days := None;
     Cli.since := Some "2024-02-01T00:00:00.000Z"; Cli.until := None;
     Cli.tools := Some "Edit,Bash"; Cli.filePattern := None;
     Cli.limit := Some "0"; Cli.dir := Some "/sessions";
     Cli.source := None; Cli.help := false |}.

End Scenario.

(** * Properties *)

(** ** Strings *)

Section StringFacts.
Import JsString.

Lemma startsWith_spec (s t : string) :
  startsWith s t = true ↔ ∃ post, s = String.append t post.
Proof.
  revert s. induction t as [|b t IH]; intros s; simpl.
  - split; [intros _; by exists s | by destruct s].
  - destruct s as [|a s]; simpl.
    + split; [done | intros [post Hpost]; discriminate].
    + destruct (Ascii.eqb_spec a b) as [->|Hne].
      * rewrite IH. split; intros [post Hpost]; exists post.
        -- by rewrite Hpost.
        -- by injection Hpost.
      * split; [done | intros [post Hpost]; injection Hpost; congruence].
Qed.

Lemma includes_spec (s t : string) :
  includes s t = true ↔ ∃ pre post, s = String.append pre (String.append t post).
Proof.
  induction s as [|a s IH]; cbn [includes].
  - rewrite orb_false_r, startsWith_spec. split.
    + intros [post Hpost]. by exists "", post.
    + intros (pre & post & Heq). destruct pre as [|c pre]; [|discriminate].
      by exists post.
  - rewrite orb_true_iff, startsWith_spec, IH. split.
    + intros [[post Hpost] | (pre & post & Heq)].
      * by exists "", post.
      * exists (String a pre), post. simpl. by rewrite Heq.
    + intros (pre & post & Heq). destruct pre as [|c pre]; simpl in Heq.
      * left. by exists post.
      * right. exists pre, post. by injection Heq.
Qed.
End StringFacts.

(** ** The filter predicates *)

Section FilterFacts.
Import JsString Props SearchLib.

Lemma hasMatchingTool_spec (session : Types.ParsedSession) (tools : list string) :
  hasMatchingTool session tools = true ↔
  ∃ tool t, tool ∈ tools ∧ t ∈ Types.toolsUsed session ∧ substringIgnoringCase tool t.
Proof.
  unfold hasMatchingTool, substringIgnoringCase. rewrite existsb_exists. split.
  - intros (tool & Hin & Hex). apply existsb_exists in Hex as (t & Ht & Hinc).
    exists tool, t. rewrite <- !list_elem_of_In in *.
    split; [done|]. split; [done|]. by apply includes_spec.
  - intros (tool & t & Hin & Ht & Hsub). exists tool.
    rewrite <- list_elem_of_In. split; [done|].
    apply existsb_exists. exists t. rewrite <- list_elem_of_In.
    split; [done|]. by apply includes_spec.
Qed.

(** C8: with a non-empty list of requested tools, a session is kept
    exactly when it passes the other filters and at least one requested
    tool name is a case-insensitive substring of at least one tool name
    of the session. *)
Theorem tool_filter_any_substring (now : Z) (session : Types.ParsedSession)
    (options : Types.SearchOptions) (tools : list string) :
  Types.tools options = Some tools →
  tools ≠ [] →
  matchesFilters now session options = true ↔
  matchesFilters now session (withoutTools options) = true ∧
  ∃ tool t, tool ∈ tools ∧ t ∈ Types.toolsUsed session ∧
            substringIgnoringCase tool t.
Proof.
  intros Htools Hne. rewrite <- hasMatchingTool_spec.
  unfold matchesFilters.
  change (endsBeforeSince now session (withoutTools options))
    with (endsBeforeSince now session options).
  change (endsAfterUntil session (withoutTools options))
    with (endsAfterUntil session options).
  change (lacksFile session (withoutTools options)) with (lacksFile session options).
  change (lacksTools session (withoutTools options)) with false.
  assert (lacksTools session options = negb (hasMatchingTool session tools)) as ->.
  { unfold lacksTools. rewrite Htools. by destruct tools. }
  destruct (endsBeforeSince now session options).
  { split; [discriminate | intros [Hkept _]; discriminate Hkept]. }
  destruct (endsAfterUntil session options).
  { split; [discriminate | intros [Hkept _]; discriminate Hkept]. }
  destruct (hasMatchingTool session tools); cbn [negb].
  - split; [intros Hkept; by split | by intros [Hkept _]].
  - split; [discriminate | intros [_ Hany]; discriminate Hany].
Qed.

(** C10: a day-count of 0 with no explicit since bound derives no lower
    bound at all: no end time, however old, fails it, and the session is
    filtered exactly as with an absent day-count. *)
Theorem zero_days_is_no_lower_bound (now : Z) (session : Types.ParsedSession)
    (options : Types.SearchOptions) :
  Types.days options = Some (Types.Int 0) →
  Types.since options = None →
  sinceBound now options = None ∧
  endsBeforeSince now session options = false ∧
  matchesFilters now session options = matchesFilters now session (withoutDays options).
Proof.
  intros Hdays Hsince.
  assert (sinceBound now options = None) as Hnone.
  { unfold sinceBound. by rewrite Hsince, Hdays. }
  assert (sinceBound now (withoutDays options) = None) as Hnone'.
  { unfold sinceBound. cbn [withoutDays Types.since Types.days]. by rewrite Hsince. }
  split; [done|]. unfold matchesFilters, endsBeforeSince. rewrite Hnone, Hnone'.
  split; reflexivity.
Qed.
End FilterFacts.

Lemma tool_filter_any_substring_witness :
  SearchLib.matchesFilters Scenario.now Scenario.editSession
    (Scenario.toolOptions ["Ed"]) = true ∧
  SearchLib.matchesFilters Scenario.now Scenario.editSession
    (Scenario.toolOptions ["Bash"]) = false.
Proof.
  split.
  - apply (tool_filter_any_substring Scenario.now Scenario.editSession
             (Scenario.toolOptions ["Ed"]) ["Ed"]); [reflexivity | discriminate |].
    split; [reflexivity|]. exists "Ed", "Edit".
    split; [apply list_elem_of_In; simpl; tauto|].
    split; [apply list_elem_of_In; simpl; tauto|].
    exists "", "it". reflexivity.
  - apply not_true_is_false. intros Hkept.
    apply (tool_filter_any_substring Scenario.now Scenario.editSession
             (Scenario.toolOptions ["Bash"]) ["Bash"]) in Hkept;
      [| reflexivity | discriminate].
    destruct Hkept as (_ & Hany). apply hasMatchingTool_spec in Hany.
    discriminate Hany.
Defined.

Lemma zero_days_is_no_lower_bound_witness :
  SearchLib.sinceBound Scenario.now (Scenario.daysOptions 0) = None ∧
  SearchLib.endsBeforeSince Scenario.now Scenario.editSession (Scenario.daysOptions 0)
    = false ∧
  SearchLib.matchesFilters Scenario.now Scenario.editSession (Scenario.daysOptions 0) =
  SearchLib.matchesFilters Scenario.now Scenario.editSession
    (Props.withoutDays (Scenario.daysOptions 0)).
Proof.
  apply (zero_days_is_no_lower_bound Scenario.now Scenario.editSession
           (Scenario.daysOptions 0)); reflexivity.
Defined.

(** ** The content extractor *)

Section ExtractFacts.
Import JsString Props Parser.

(** Induction on a JSON value, with the hypothesis for every element of
    an array and every property value of an object. *)
Lemma json_nested_ind (P : json → Prop) :
  P JNull → (∀ b, P (JBool b)) → (∀ n, P (JNum n)) → (∀ s, P (JStr s)) →
  (∀ xs, Forall P xs → P (JArr xs)) →
  (∀ kvs, Forall (fun kv => P kv.2) kvs → P (JObj kvs)) →
  ∀ v, P v.
Proof.
  intros HNull HBool HNum HStr HArr HObj.
  fix IH 1. intros [| b | n | s | xs | kvs].
  - exact HNull.
  - apply HBool.
  - apply HNum.
  - apply HStr.
  - apply HArr. induction xs as [|x xs IHxs]; constructor; [apply IH | exact IHxs].
  - apply HObj. induction kvs as [|[k v] kvs IHkvs]; constructor; [apply IH | exact IHkvs].
Qed.

Lemma elem_of_setAdd (x s : string) (files : list string) :
  s ∈ Js.setAdd x files ↔ s = x ∨ s ∈ files.
Proof.
  unfold Js.setAdd. destruct (decide (x ∈ files)) as [Hin|Hout].
  - split; [by right | intros [->|]; done].
  - rewrite elem_of_app, list_elem_of_singleton. tauto.
Qed.

Lemma elem_of_addIfPath (key : string) (value : json) (files : list string) (s : string) :
  s ∈ addIfPath key value files ↔
  s ∈ files ∨ (value = JStr s ∧ key ∈ pathKeys ∧ looksLikePath s = true).
Proof.
  unfold addIfPath. destruct value as [| b | n | text | xs | kvs];
    try (split; [by left | intros [|[? _]]; [done | discriminate]]).
  destruct (bool_decide (key ∈ pathKeys) && looksLikePath text) eqn:Hcond.
  - apply andb_true_iff in Hcond as [Hkey Hpath]. apply bool_decide_eq_true in Hkey.
    rewrite elem_of_setAdd. split.
    + intros [->|]; [right | left]; done.
    + intros [|[[= ->] _]]; [right | left]; done.
  - split; [by left|]. intros [|([= ->] & Hkey & Hpath)]; [done|].
    rewrite (bool_decide_eq_true_2 _ Hkey), Hpath in Hcond. discriminate.
Qed.

(** The loops of [extractFilePaths] run [visitEntry] over the entries. *)
Lemma extractFilePaths_entries (input : json) (files : list string) :
  extractFilePaths input files = fold_left visitEntry (Js.entries input) files.
Proof.
  destruct input as [| b | n | s | xs | kvs]; try reflexivity.
  - cbn [extractFilePaths Js.entries]. generalize 0%nat as i. revert files.
    induction s as [|c s IH]; intros files i; [reflexivity|].
    cbn [Js.charEntries fold_left]. apply IH.
  - cbn [extractFilePaths Js.entries].
    change (fun i x => (Js.indexKey i, x)) with (fun i (x : json) => (Js.indexKey (0 + i), x)).
    generalize 0%nat as i. revert files.
    induction xs as [|x xs IH]; intros files i; [reflexivity|].
    cbn [imap fold_left]. rewrite IH. unfold visitEntry at 2. cbn [fst snd].
    replace (i + 0)%nat with i by lia. f_equal.
    apply imap_ext. intros j y _. cbn. do 2 f_equal. lia.
  - cbn [extractFilePaths Js.entries]. revert files.
    induction kvs as [|[key value] kvs IH]; intros files; [reflexivity|].
    cbn [fold_left]. rewrite IH. reflexivity.
Qed.

Lemma PathIn_entries (v : json) (s : string) :
  PathIn v s ↔ pathInEntries (Js.entries v) s.
Proof.
  unfold pathInEntries. split.
  - intros HP. inversion HP; subst; [left | right]; eauto.
  - intros [(key & Hin & Hkey & Hpath) | (key & kvs & Hin & HP)].
    + by eapply PathIn_here.
    + by eapply PathIn_nested.
Qed.

Lemma pathInEntries_cons (kv : string * json) (es : list (string * json)) (s : string) :
  pathInEntries (kv :: es) s ↔
  (kv.2 = JStr s ∧ kv.1 ∈ pathKeys ∧ looksLikePath s = true)
  ∨ (∃ kvs, kv.2 = JObj kvs ∧ PathIn (JObj kvs) s)
  ∨ pathInEntries es s.
Proof.
  unfold pathInEntries. destruct kv as [key value]. cbn [fst snd].
  setoid_rewrite elem_of_cons. split.
  - intros [(k & [[= <- <-]|Hin] & Hk & Hp) | (k & kvs & [[= <- <-]|Hin] & HP)];
      eauto 10.
  - intros [(-> & Hk & Hp) | [(kvs & -> & HP) | [(k & Hin & Hk & Hp) | (k & kvs & Hin & HP)]]];
      eauto 10.
Qed.

Lemma elem_of_fold_visitEntry (es : list (string * json)) :
  Forall (fun kv => ∀ files s,
            s ∈ extractFilePaths kv.2 files ↔ s ∈ files ∨ PathIn kv.2 s) es →
  ∀ files s, s ∈ fold_left visitEntry es files ↔ s ∈ files ∨ pathInEntries es s.
Proof.
  induction 1 as [|[key value] es Hvalue _ IH]; intros files s.
  - cbn [fold_left]. unfold pathInEntries. split; [by left|].
    intros [|[(k & Hin & _) | (k & kvs & Hin & _)]]; [done | |];
      by apply elem_of_nil in Hin.
  - cbn [fold_left]. rewrite IH, pathInEntries_cons. cbn [fst snd] in *.
    unfold visitEntry. cbn [fst snd].
    destruct value as [| b | n | text | xs | kvs];
      try (rewrite elem_of_addIfPath; split;
           [ intros [[|[? _]]|]; [by left | discriminate | by right; right; right]
           | intros [|[[? _]|[(? & ? & _)|]]];
             [by left; left | discriminate | discriminate | by right] ]).
    + rewrite elem_of_addIfPath. split.
      * intros [[|([= <-] & Hk & Hp)]|]; [by left | right; by left | by right; right; right].
      * intros [|[([= <-] & Hk & Hp)|[(? & ? & _)|]]];
          [by left; left | left; right; done | discriminate | by right].
    + rewrite Hvalue, elem_of_addIfPath. split.
      * intros [[[|[? _]]|HP]|]; [by left | discriminate | | by right; right; right].
        right. right. left. by exists kvs.
      * intros [|[[? _]|[(kvs' & [= <-] & HP)|]]];
          [by left; left; left | discriminate | by left; right | by right].
Qed.

(** C7 (as amended): [extractFilePaths] adds to the file-path set
    exactly the string values that contain a path separator and sit
    under an allow-listed key, of the argument object or of a plain
    object nested in it at any depth under keys of plain objects; an
    array held under a key is never entered. *)
Theorem extractFilePaths_exactly_nested_object_paths (input : json)
    (files : list string) (s : string) :
  s ∈ extractFilePaths input files ↔ s ∈ files ∨ PathIn input s.
Proof.
  revert files s. induction input as [| b | n | text | xs IH | kvs IH]
    using json_nested_ind; intros files s;
    rewrite extractFilePaths_entries, PathIn_entries;
    apply elem_of_fold_visitEntry; cbn [Js.entries]; try by constructor.
  - generalize 0%nat. induction text as [|c text IHt]; intros i; constructor; auto.
    intros files' s'. cbn [snd]. rewrite extractFilePaths_entries, PathIn_entries.
    cbn [Js.entries Js.charEntries fold_left]. unfold visitEntry, pathInEntries.
    cbn [fst snd Js.charEntries]. rewrite elem_of_addIfPath.
    setoid_rewrite list_elem_of_singleton.
    assert (Js.indexKey 0 ∉ pathKeys) as Hno.
    { intros Hk. apply list_elem_of_In in Hk. vm_compute in Hk. intuition discriminate. }
    split.
    + intros [|(_ & Hk & _)]; [by left | done].
    + intros [|[(k & Heq & Hk & _)|(k & kvs & Heq & _)]];
        [by left | injection Heq as -> _; done | discriminate Heq].
  - apply Forall_forall. intros [k x] Hin.
    apply elem_of_lookup_imap in Hin as (i & y & Heq & Hy).
    injection Heq as -> ->.
    rewrite Forall_forall in IH. apply IH.
    by eapply list_elem_of_lookup_2.
  - done.
Qed.
End ExtractFacts.

(** C7, the claim as stated fails: a path under an allow-listed key of an
    object that sits inside an array is not added. *)
Lemma extractFilePaths_skips_objects_in_arrays :
  Props.PathInWithArrays Scenario.multiEditInput "src/api/email.ts" ∧
  "src/api/email.ts" ∉ Parser.extractFilePaths Scenario.multiEditInput [].
Proof.
  split.
  - eapply Props.PathInA_array with (key := "edits").
    + apply list_elem_of_In. simpl. left. reflexivity.
    + apply list_elem_of_In. simpl. left. reflexivity.
    + eapply Props.PathInA_here with (key := "file_path").
      * apply list_elem_of_In. simpl. left. reflexivity.
      * apply list_elem_of_In. simpl. tauto.
      * reflexivity.
  - vm_compute. apply not_elem_of_nil.
Qed.

(** ** Completions and loops *)

Section CompletionFacts.
Lemma bind_Normal {A B} (m : completion A) (f : A → completion B) (b : B) :
  bind m f = Normal b → ∃ a, m = Normal a ∧ f a = Normal b.
Proof. destruct m as [a|e]; [by exists a | discriminate]. Qed.

(** An invariant of the loop body holds when the loop completes. *)
Lemma forOf_invariant {A S} (step : S → A → completion S) (I : S → Prop)
    (xs : list A) (st st' : S) :
  (∀ x s s', x ∈ xs → I s → step s x = Normal s' → I s') →
  I st → forOf step xs st = Normal st' → I st'.
Proof.
  revert st. induction xs as [|x xs IH]; intros st Hstep Hst Hrun; cbn [forOf] in Hrun.
  - by injection Hrun as <-.
  - apply bind_Normal in Hrun as (s1 & Hx & Hrest).
    apply (IH s1); [|by eapply Hstep; [left| |]|done].
    intros y s s' Hy. apply Hstep. by right.
Qed.

Lemma filterC_Normal {A} (p : A → completion bool) (xs ys : list A) :
  filterC p xs = Normal ys →
  ys = List.filter (fun x => match p x with Normal b => b | Abrupt _ => false end) xs.
Proof.
  revert ys. induction xs as [|x xs IH]; intros ys Hrun; cbn [filterC] in Hrun.
  - by injection Hrun as <-.
  - apply bind_Normal in Hrun as (b & Hb & Hrun).
    apply bind_Normal in Hrun as (tl & Htl & Hrun).
    injection Hrun as <-. cbn [List.filter]. rewrite Hb, <- (IH tl Htl). done.
Qed.
End CompletionFacts.

(** ** The normalizers: the first loop and the dispatch *)

Section DispatchFacts.
Context `{Host}.
Import JsString Props Parser.

Lemma typeIs_cases (v : json) (lit : string) :
  (v = JNull ∧ typeIs v lit = Abrupt Throw) ∨
  (v ≠ JNull ∧ ∃ b, typeIs v lit = Normal b).
Proof.
  destruct v; [left | right ..]; (split; [done|]); unfold typeIs; cbn; eauto.
Qed.

Lemma get_truthy (message : jsval) (key : string) :
  Js.truthy message = true → ∃ w, Js.get message key = Normal w.
Proof. destruct message as [[]|]; cbn; intros; try discriminate; eauto. Qed.

Lemma isConversation_cases (v : json) :
  (v = JNull ∧ isConversation v = Abrupt Throw) ∨
  (v ≠ JNull ∧ ∃ b, isConversation v = Normal b).
Proof.
  unfold isConversation, andC.
  destruct (typeIs_cases v "message") as [[-> Hty] | [Hv [b Hty]]]; rewrite Hty; cbn [bind].
  - by left.
  - right. split; [done|]. destruct b; [|eauto].
    assert (∃ message, Js.get (Some v) "message" = Normal message) as [message Hmsg].
    { destruct v; cbn; eauto. done. }
    rewrite Hmsg. cbn [bind]. destruct (Js.truthy message) eqn:Htruthy; [|eauto].
    unfold orC, roleIs.
    destruct (get_truthy message "role" Htruthy) as [role ->]. cbn [bind].
    destruct (Js.isStr role "user"); eauto.
Qed.

Lemma isClaudeTurn_JNull : isClaudeTurn JNull = false.
Proof. reflexivity. Qed.

Lemma parsedValues_Some (v : json) (lines : list line) :
  parsedValues (Some v :: lines) = v :: parsedValues lines.
Proof. reflexivity. Qed.

Lemma parsedValues_None (lines : list line) :
  parsedValues (None :: lines) = parsedValues lines.
Proof. reflexivity. Qed.

(** The first loop of the Claude normalizer keeps the conversational
    turns among the lines that parse. *)
Lemma forOf_collectMessage (lines : list line) (messages : list json) :
  forOf collectMessage lines messages =
  Normal (messages ++ List.filter isClaudeTurn (parsedValues lines))%list.
Proof.
  revert messages. induction lines as [|[v|] lines IH]; intros messages; cbn [forOf].
  - by rewrite app_nil_r.
  - assert (collectMessage messages (Some v) =
            Normal (if isClaudeTurn v then (messages ++ [v])%list else messages)) as ->.
    { unfold collectMessage, isClaudeTurn, orC. cbn [JSON_parse bind].
      destruct (typeIs_cases v "user") as [[-> Hu] | [Hv [b Hu]]]; rewrite Hu;
        [reflexivity|].
      cbn [bind]. destruct b; [reflexivity|].
      destruct (typeIs_cases v "assistant") as [[-> Ha] | [_ [b Ha]]]; [by destruct Hv|].
      rewrite Ha. cbn [bind tryCatch]. by destruct b. }
    cbn [bind]. rewrite IH, parsedValues_Some. cbn [List.filter].
    destruct (isClaudeTurn v); [|done]. by rewrite <- app_assoc.
  - cbn [collectMessage JSON_parse bind tryCatch]. apply IH.
Qed.

(** The first loop of the Pi normalizer keeps every line that parses. *)
Lemma forOf_collectPiMessage (lines : list line) (allMessages : list json) :
  forOf collectPiMessage lines allMessages = Normal (allMessages ++ parsedValues lines)%list.
Proof.
  revert allMessages. induction lines as [|[v|] lines IH]; intros allMessages; cbn [forOf].
  - by rewrite app_nil_r.
  - cbn [collectPiMessage JSON_parse bind tryCatch]. rewrite IH, parsedValues_Some.
    by rewrite <- app_assoc.
  - cbn [collectPiMessage JSON_parse bind tryCatch]. apply IH.
Qed.

Lemma parsedValues_removeMalformed (lines : list line) :
  parsedValues (removeMalformed lines) = parsedValues lines.
Proof.
  induction lines as [|[v|] lines IH]; [done | | done].
  cbn [removeMalformed List.filter]. rewrite !parsedValues_Some. f_equal. apply IH.
Qed.

(** What a record returned by the Claude normalizer is made of. *)
Lemma parseClaudeSessionContent_record (lines : list line)
    (sessionId : option string) (session : Types.ParsedSession) :
  parseClaudeSessionContent lines sessionId = Normal (Some session) →
  ∃ first rest st firstTs lastTs id startedAt endedAt gitBranch cwd version,
    List.filter isClaudeTurn (parsedValues lines) = first :: rest ∧
    forOf claudeTurn (first :: rest) initialLocals = Normal st ∧
    Js.get (Some first) "timestamp" = Normal firstTs ∧
    newDate firstTs = Normal startedAt ∧
    Js.get (Some (default first (last (first :: rest)))) "timestamp" = Normal lastTs ∧
    newDate lastTs = Normal endedAt ∧
    session = makeSession id startedAt endedAt gitBranch cwd version
                (length (first :: rest)) st.
Proof.
  unfold parseClaudeSessionContent. rewrite forOf_collectMessage. cbn [bind app].
  intros Hparse.
  destruct (List.filter isClaudeTurn (parsedValues lines)) as [|first rest];
    [discriminate|].
  apply bind_Normal in Hparse as (st & Hst & Hparse).
  apply bind_Normal in Hparse as (embedded & _ & Hparse).
  apply bind_Normal in Hparse as (id & _ & Hparse).
  apply bind_Normal in Hparse as (firstTs & HfirstTs & Hparse).
  apply bind_Normal in Hparse as (startedAt & HstartedAt & Hparse).
  apply bind_Normal in Hparse as (lastTs & HlastTs & Hparse).
  apply bind_Normal in Hparse as (endedAt & HendedAt & Hparse).
  apply bind_Normal in Hparse as (gitBranchV & _ & Hparse).
  apply bind_Normal in Hparse as (gitBranch & _ & Hparse).
  apply bind_Normal in Hparse as (cwdV & _ & Hparse).
  apply bind_Normal in Hparse as (cwd & _ & Hparse).
  apply bind_Normal in Hparse as (versionV & _ & Hparse).
  apply bind_Normal in Hparse as (version & _ & Hparse).
  injection Hparse as <-.
  by exists first, rest, st, firstTs, lastTs, id, startedAt, endedAt, gitBranch, cwd, version.
Qed.

(** What a record returned by the Pi normalizer is made of. *)
Lemma parsePiSessionContent_record (lines : list line)
    (sessionId : option string) (session : Types.ParsedSession) :
  parsePiSessionContent lines sessionId = Normal (Some session) →
  ∃ first rest modelChanges toolResults st0 st1 st2 firstTs lastTs
    id startedAt endedAt cwd version,
    List.filter isPiTurn (parsedValues lines) = first :: rest ∧
    forOf modelChange modelChanges initialLocals = Normal st0 ∧
    forOf piTurn (first :: rest) st0 = Normal st1 ∧
    forOf toolResult toolResults st1 = Normal st2 ∧
    Js.get (Some first) "timestamp" = Normal firstTs ∧
    newDate firstTs = Normal startedAt ∧
    Js.get (Some (default first (last (first :: rest)))) "timestamp" = Normal lastTs ∧
    newDate lastTs = Normal endedAt ∧
    session = makeSession id startedAt endedAt "unknown" cwd version
                (length (first :: rest)) st2.
Proof.
  unfold parsePiSessionContent. rewrite forOf_collectPiMessage. cbn [bind app].
  intros Hparse.
  destruct (parsedValues lines) as [|v0 vs]; [discriminate|].
  apply bind_Normal in Hparse as (sessionMessage & _ & Hparse).
  apply bind_Normal in Hparse as (conversation & Hconv & Hparse).
  apply filterC_Normal in Hconv.
  change (List.filter _ (v0 :: vs)) with (List.filter isPiTurn (v0 :: vs)) in Hconv.
  rewrite <- Hconv.
  destruct sessionMessage as [sessionMessage|]; [|discriminate].
  destruct conversation as [|first rest]; [discriminate|].
  apply bind_Normal in Hparse as (modelChanges & _ & Hparse).
  apply bind_Normal in Hparse as (st0 & Hst0 & Hparse).
  apply bind_Normal in Hparse as (st1 & Hst1 & Hparse).
  apply bind_Normal in Hparse as (toolResults & _ & Hparse).
  apply bind_Normal in Hparse as (st2 & Hst2 & Hparse).
  apply bind_Normal in Hparse as (embedded & _ & Hparse).
  apply bind_Normal in Hparse as (id & _ & Hparse).
  apply bind_Normal in Hparse as (firstTs & HfirstTs & Hparse).
  apply bind_Normal in Hparse as (startedAt & HstartedAt & Hparse).
  apply bind_Normal in Hparse as (lastTs & HlastTs & Hparse).
  apply bind_Normal in Hparse as (endedAt & HendedAt & Hparse).
  apply bind_Normal in Hparse as (cwdV & _ & Hparse).
  apply bind_Normal in Hparse as (cwd & _ & Hparse).
  apply bind_Normal in Hparse as (versionV & _ & Hparse).
  apply bind_Normal in Hparse as (version & _ & Hparse).
  injection Hparse as <-.
  by exists first, rest, modelChanges, toolResults, st0, st1, st2, firstTs, lastTs,
            id, startedAt, endedAt, cwd, version.
Qed.

(** C2 (as amended): each normalizer reads a transcript as it reads the
    same transcript without its unparseable lines; so does the parser
    when the first line parses; when the first line does not parse the
    format is unknown and the parser returns null. *)
Theorem malformed_lines_skipped_after_first (lines : list line)
    (sessionId : option string) :
  parseClaudeSessionContent lines sessionId =
    parseClaudeSessionContent (removeMalformed lines) sessionId ∧
  parsePiSessionContent lines sessionId =
    parsePiSessionContent (removeMalformed lines) sessionId ∧
  ((∃ v rest, lines = Some v :: rest) →
   parseSessionContent lines sessionId =
     parseSessionContent (removeMalformed lines) sessionId) ∧
  (∀ rest, lines = None :: rest → parseSessionContent lines sessionId = Normal None).
Proof.
  assert (parseClaudeSessionContent lines sessionId =
          parseClaudeSessionContent (removeMalformed lines) sessionId) as HClaude.
  { unfold parseClaudeSessionContent.
    by rewrite !forOf_collectMessage, parsedValues_removeMalformed. }
  assert (parsePiSessionContent lines sessionId =
          parsePiSessionContent (removeMalformed lines) sessionId) as HPi.
  { unfold parsePiSessionContent.
    by rewrite !forOf_collectPiMessage, parsedValues_removeMalformed. }
  split; [done|]. split; [done|]. split.
  - intros (v & rest & ->). cbn [removeMalformed List.filter] in *.
    unfold parseSessionContent. destruct (detectSessionFormat (Some v)); done.
  - intros rest ->. reflexivity.
Qed.
End DispatchFacts.

(** ** The normalizers: empty sessions and temporal bounds *)

Section BoundsFacts.
Context `{Host}.
Import JsString Props Parser.

Lemma elem_of_parsedValues (v : json) (lines : list line) :
  v ∈ parsedValues lines ↔ Some v ∈ lines.
Proof.
  unfold parsedValues. rewrite list_elem_of_omap. split.
  - by intros (l & Hl & ->).
  - intros Hv. by exists (Some v).
Qed.

Lemma detectSessionFormat_claude (firstLine : line) :
  detectSessionFormat firstLine = claude →
  ∃ v, firstLine = Some v ∧ isClaudeTurn v = true.
Proof.
  destruct firstLine as [v|]; [|discriminate]. intros Hfmt. exists v. split; [done|].
  unfold detectSessionFormat in Hfmt. cbn [JSON_parse bind] in Hfmt.
  unfold isClaudeTurn.
  destruct (andC _ _) as [[]|]; cbn [bind] in Hfmt; try discriminate.
  destruct (orC _ _) as [[]|]; cbn [bind] in Hfmt; done.
Qed.

Lemma findC_typeIs_cases (vs : list json) (lit : string) :
  (∃ found, findC (fun m => typeIs m lit) vs = Normal found) ∨
  (findC (fun m => typeIs m lit) vs = Abrupt Throw ∧ JNull ∈ vs).
Proof.
  induction vs as [|v vs IH]; cbn [findC]; [by eauto|].
  destruct (typeIs_cases v lit) as [[-> Hty] | [Hv [b Hty]]]; rewrite Hty; cbn [bind].
  - right. split; [done | by left].
  - destruct b; [by eauto|].
    destruct IH as [?|[? ?]]; [by left | right]. split; [done | by right].
Qed.

Lemma filterC_isConversation_no_turns (vs : list json) :
  (∀ v, v ∈ vs → isPiTurn v = false) →
  filterC isConversation vs = Normal [] ∨
  (filterC isConversation vs = Abrupt Throw ∧ JNull ∈ vs).
Proof.
  induction vs as [|v vs IH]; intros Hno; cbn [filterC]; [by left|].
  destruct (isConversation_cases v) as [[-> Hc] | [Hv [b Hc]]]; rewrite Hc; cbn [bind].
  - right. split; [done | by left].
  - assert (b = false) as ->.
    { specialize (Hno v ltac:(by left)). unfold isPiTurn in Hno. by rewrite Hc in Hno. }
    destruct IH as [->|[-> ?]]; [by intros v' ?; apply Hno; right | by left |].
    right. split; [done | by right].
Qed.

Lemma no_turns_outcome (lines : list line) (sessionId : option string) :
  (∀ v, Some v ∈ lines → isClaudeTurn v = false ∧ isPiTurn v = false) →
  parseSessionContent lines sessionId = Normal None ∨
  (parseSessionContent lines sessionId = Abrupt Throw ∧ Some JNull ∈ lines).
Proof.
  intros Hno. unfold parseSessionContent.
  destruct lines as [|firstLine lines]; [by left|].
  destruct (detectSessionFormat firstLine) eqn:Hfmt; [| |by left].
  - apply detectSessionFormat_claude in Hfmt as (v & -> & Hturn).
    destruct (Hno v) as [Hv _]; [by left | congruence].
  - unfold parsePiSessionContent. rewrite forOf_collectPiMessage. cbn [bind app].
    destruct (parsedValues (firstLine :: lines)) as [|v0 vs] eqn:Hvs; [by left|].
    rewrite <- Hvs.
    destruct (filterC_isConversation_no_turns (parsedValues (firstLine :: lines)))
      as [Hconv | [Hconv Hnull]].
    { intros v Hv. apply elem_of_parsedValues in Hv. by apply Hno. }
    + destruct (findC_typeIs_cases (parsedValues (firstLine :: lines)) "session")
        as [[found ->] | [-> Hnull]]; cbn [bind].
      * rewrite Hconv. cbn [bind]. left. by destruct found.
      * right. split; [done | by apply elem_of_parsedValues].
    + right. split; [|by apply elem_of_parsedValues].
      destruct (findC_typeIs_cases (parsedValues (firstLine :: lines)) "session")
        as [[found ->] | [-> _]]; cbn [bind]; [by rewrite Hconv | done].
Qed.

(** C4: a transcript none of whose lines is a user or assistant turn
    never parses to a record: the parser returns null (unless a line is
    the literal [null], on which the Pi normalizer throws), and the
    parser of a file with such content returns null. *)
Theorem no_turns_parse_to_null (lines : list line) (sessionId : option string) :
  (∀ v, Some v ∈ lines → isClaudeTurn v = false ∧ isPiTurn v = false) →
  (Some JNull ∉ lines → parseSessionContent lines sessionId = Normal None) ∧
  (∀ session, parseSessionContent lines sessionId ≠ Normal (Some session)) ∧
  (∀ filePath, readFileSync filePath = Some lines →
               parseSessionFile filePath = Normal None).
Proof.
  intros Hno. split; [|split].
  - intros Hnull.
    destruct (no_turns_outcome lines sessionId Hno) as [?|[_ ?]]; done.
  - intros session.
    destruct (no_turns_outcome lines sessionId Hno) as [->|[-> _]]; discriminate.
  - intros filePath Hread. unfold parseSessionFile. rewrite Hread. cbn [bind].
    by destruct (no_turns_outcome lines (Some filePath) Hno) as [->|[-> _]].
Qed.

Lemma conversationalTurns_claude (firstLine : line) (lines : list line) :
  detectSessionFormat firstLine = claude →
  conversationalTurns (firstLine :: lines) =
    List.filter isClaudeTurn (parsedValues (firstLine :: lines)).
Proof. intros Hfmt. unfold conversationalTurns. by rewrite Hfmt. Qed.

Lemma conversationalTurns_pi (firstLine : line) (lines : list line) :
  detectSessionFormat firstLine = pi →
  conversationalTurns (firstLine :: lines) =
    List.filter isPiTurn (parsedValues (firstLine :: lines)).
Proof. intros Hfmt. unfold conversationalTurns. by rewrite Hfmt. Qed.

Lemma timestampDate_eq (v : json) (ts : jsval) (d : Date) :
  Js.get (Some v) "timestamp" = Normal ts → newDate ts = Normal d →
  timestampDate v = d.
Proof. intros Hts Hd. unfold timestampDate. by rewrite Hts, Hd. Qed.

(** C9 (as amended): the bounds of a parsed session are the dates of the
    timestamps of its first and last conversational turn, so that
    [startedAt <= endedAt] holds exactly when the first turn is dated no
    later than the last one. *)
Theorem bounds_are_first_and_last_turn (lines : list line)
    (sessionId : option string) (session : Types.ParsedSession) :
  parseSessionContent lines sessionId = Normal (Some session) →
  ∃ first rest,
    conversationalTurns lines = first :: rest ∧
    Types.startedAt session = timestampDate first ∧
    Types.endedAt session = timestampDate (default first (last (first :: rest))) ∧
    (dateLe (Types.startedAt session) (Types.endedAt session) ↔
     dateLe (timestampDate first)
            (timestampDate (default first (last (first :: rest))))).
Proof.
  intros Hparse.
  cut (∃ first rest,
         conversationalTurns lines = first :: rest ∧
         Types.startedAt session = timestampDate first ∧
         Types.endedAt session = timestampDate (default first (last (first :: rest)))).
  { intros (first & rest & Hturns & Hs & He). exists first, rest.
    by rewrite Hs, He. }
  unfold parseSessionContent in Hparse.
  destruct lines as [|firstLine lines]; [discriminate|].
  destruct (detectSessionFormat firstLine) eqn:Hfmt; [| |discriminate].
  - rewrite (conversationalTurns_claude _ _ Hfmt).
    apply parseClaudeSessionContent_record in Hparse
      as (first & rest & st & firstTs & lastTs & id & startedAt & endedAt & gitBranch
          & cwd & version & Hturns & _ & HfirstTs & HstartedAt & HlastTs & HendedAt & ->).
    exists first, rest. split; [done|]. cbn [makeSession Types.startedAt Types.endedAt].
    by rewrite (timestampDate_eq _ _ _ HfirstTs HstartedAt),
               (timestampDate_eq _ _ _ HlastTs HendedAt).
  - rewrite (conversationalTurns_pi _ _ Hfmt).
    apply parsePiSessionContent_record in Hparse
      as (first & rest & modelChanges & toolResults & st0 & st1 & st2 & firstTs & lastTs
          & id & startedAt & endedAt & cwd & version
          & Hturns & _ & _ & _ & HfirstTs & HstartedAt & HlastTs & HendedAt & ->).
    exists first, rest. split; [done|]. cbn [makeSession Types.startedAt Types.endedAt].
    by rewrite (timestampDate_eq _ _ _ HfirstTs HstartedAt),
               (timestampDate_eq _ _ _ HlastTs HendedAt).
Qed.
End BoundsFacts.

(** ** The normalizers: token accounting *)

Section TokenFacts.
Context `{Host}.
Import JsString Props Parser.





















End TokenFacts.

(** ** The normalizers: user messages *)

Section UserMessageFacts.
Context `{Host}.
Import JsString Props Parser.

Lemma extractFromBlock_userMessages (tag args : string) (st st' : Locals) (block : json) :
  extractFromBlock tag args st block = Normal st' → userMessages st' = userMessages st.
Proof.
  unfold extractFromBlock. intros Hrun.
  apply bind_Normal in Hrun as (isTool & _ & Hrun).
  destruct isTool; [|by injection Hrun as <-].
  apply bind_Normal in Hrun as (nameV & _ & Hrun).
  apply bind_Normal in Hrun as (name & _ & Hrun).
  destruct name as [name|]; [|by injection Hrun as <-].
  apply bind_Normal in Hrun as (input & _ & Hrun).
  destruct input as [input|]; [|by injection Hrun as <-].
  destruct (Js.truthy (Some input)); by injection Hrun as <-.
Qed.

Lemma forBlocks_userMessages (P : string → Prop)
    (step : Locals → json → completion Locals) (content : jsval) (st st' : Locals) :
  (∀ s s' block, step s block = Normal s' →
                 Forall P (userMessages s) → Forall P (userMessages s')) →
  forBlocks step content st = Normal st' →
  Forall P (userMessages st) → Forall P (userMessages st').
Proof.
  intros Hstep Hrun Hst. unfold forBlocks in Hrun.
  destruct content as [[| | | | blocks |]|]; try by injection Hrun as <-.
  apply (forOf_invariant step (fun s => Forall P (userMessages s)) blocks st st');
    [|done|done].
  intros block s s' _ Hs Hrun'. by eapply Hstep.
Qed.

Lemma trackModel_userMessages (model : option string) (st : Locals) :
  userMessages (trackModel model st) = userMessages st.
Proof.
  destruct model as [name|]; [|done]. unfold trackModel.
  by destruct (hasEntry _ _).
Qed.

Lemma addModelTokens_userMessages (model : option string) (u : Types.TokenCounts)
    (st : Locals) :
  userMessages (addModelTokens model u st) = userMessages st.
Proof.
  destruct model as [name|]; [|done]. unfold addModelTokens.
  by destruct (hasEntry _ _).
Qed.

Lemma usage_userMessages (usage : jsval) (model : option string)
    (fIn fOut fCreate fRead : string) (st st' : Locals) :
  (if Js.truthy usage
   then let* u := readUsage fIn fOut fCreate fRead usage in
        Normal (addModelTokens model u (addSessionTokens u (trackModel model st)))
   else Normal (trackModel model st)) = Normal st' →
  userMessages st' = userMessages st.
Proof.
  intros Hrun. destruct (Js.truthy usage).
  - apply bind_Normal in Hrun as (u & _ & Hrun). injection Hrun as <-.
    rewrite addModelTokens_userMessages. cbn [addSessionTokens userMessages].
    apply trackModel_userMessages.
  - injection Hrun as <-. apply trackModel_userMessages.
Qed.

Lemma claudeTurn_notBlank (st st' : Locals) (msg : json) :
  claudeTurn st msg = Normal st' →
  Forall notBlank (userMessages st) → Forall notBlank (userMessages st').
Proof.
  intros Hrun Hst. unfold claudeTurn in Hrun.
  apply bind_Normal in Hrun as (isUser & _ & Hrun). destruct isUser.
  - apply bind_Normal in Hrun as (userMsg & _ & Hrun).
    apply bind_Normal in Hrun as (content & _ & Hrun).
    destruct content as [[| | | text | |]|]; try by injection Hrun as <-.
    destruct (String.eqb_spec (trim text) "") as [|Hne]; cbn [negb] in Hrun;
      injection Hrun as <-; [done|].
    cbn [pushUserMessage userMessages]. apply Forall_app. split; [done|].
    by repeat constructor.
  - apply bind_Normal in Hrun as (isAssistant & _ & Hrun).
    destruct isAssistant; [|by injection Hrun as <-].
    apply bind_Normal in Hrun as (assistantMsg & _ & Hrun).
    apply bind_Normal in Hrun as (modelV & _ & Hrun).
    apply bind_Normal in Hrun as (model & _ & Hrun).
    apply bind_Normal in Hrun as (usage & _ & Hrun).
    apply bind_Normal in Hrun as (st2 & Hst2 & Hrun).
    apply bind_Normal in Hrun as (content & _ & Hrun).
    apply usage_userMessages in Hst2.
    eapply forBlocks_userMessages; [|exact Hrun|by rewrite Hst2].
    intros s s' block Hstep. by rewrite (extractFromBlock_userMessages _ _ _ _ _ Hstep).
Qed.

(** The part of C6 the Claude normalizer keeps: every user message of a
    record it returns is non-blank. *)
Lemma claude_user_messages_not_blank (lines : list line)
    (sessionId : option string) (session : Types.ParsedSession) :
  parseClaudeSessionContent lines sessionId = Normal (Some session) →
  Forall notBlank (Types.userMessages session).
Proof.
  intros Hparse.
  apply parseClaudeSessionContent_record in Hparse
    as (first & rest & st & firstTs & lastTs & id & startedAt & endedAt & gitBranch
        & cwd & version & _ & Hst & _ & _ & _ & _ & ->).
  cbn [makeSession Types.userMessages].
  apply (forOf_invariant claudeTurn (fun s => Forall notBlank (userMessages s))) in Hst;
    [done| |constructor].
  intros msg s s' _ Hs Hstep. by eapply claudeTurn_notBlank.
Qed.

Lemma truthyString_not_empty (v : jsval) (text : string) :
  truthyString v = Normal (Some text) → text ≠ "".
Proof.
  unfold truthyString. destruct v as [j|]; [|discriminate].
  destruct (Js.truthy (Some j)) eqn:Htruthy; [|discriminate].
  destruct j; try discriminate. cbn. intros [= <-] ->. discriminate Htruthy.
Qed.

Lemma piUserBlock_not_empty (st st' : Locals) (block : json) :
  piUserBlock st block = Normal st' →
  Forall (fun text => text ≠ "") (userMessages st) →
  Forall (fun text => text ≠ "") (userMessages st').
Proof.
  unfold piUserBlock. intros Hrun Hst.
  apply bind_Normal in Hrun as (isText & _ & Hrun).
  destruct isText; [|by injection Hrun as <-].
  apply bind_Normal in Hrun as (textV & _ & Hrun).
  apply bind_Normal in Hrun as (text & Htext & Hrun).
  destruct text as [text|]; injection Hrun as <-; [|done].
  cbn [pushUserMessage userMessages]. apply Forall_app. split; [done|].
  repeat constructor. by eapply truthyString_not_empty.
Qed.

Lemma piTurn_not_empty (st st' : Locals) (msg : json) :
  piTurn st msg = Normal st' →
  Forall (fun text => text ≠ "") (userMessages st) →
  Forall (fun text => text ≠ "") (userMessages st').
Proof.
  intros Hrun Hst. unfold piTurn in Hrun.
  apply bind_Normal in Hrun as (message & _ & Hrun).
  apply bind_Normal in Hrun as (role & _ & Hrun).
  destruct (Js.isStr role "user").
  - apply bind_Normal in Hrun as (content & _ & Hrun).
    eapply forBlocks_userMessages; [|exact Hrun|done].
    intros s s' block. apply piUserBlock_not_empty.
  - destruct (Js.isStr role "assistant"); [|by injection Hrun as <-].
    apply bind_Normal in Hrun as (topModel & _ & Hrun).
    apply bind_Normal in Hrun as (modelV & _ & Hrun).
    apply bind_Normal in Hrun as (topUsage & _ & Hrun).
    apply bind_Normal in Hrun as (usage & _ & Hrun).
    apply bind_Normal in Hrun as (model & _ & Hrun).
    apply bind_Normal in Hrun as (st2 & Hst2 & Hrun).
    apply bind_Normal in Hrun as (content & _ & Hrun).
    apply usage_userMessages in Hst2.
    eapply forBlocks_userMessages; [|exact Hrun|by rewrite Hst2].
    intros s s' block Hstep. by rewrite (extractFromBlock_userMessages _ _ _ _ _ Hstep).
Qed.

(** The part of C6 the Pi normalizer keeps: no user message of a record
    it returns is the empty string. *)
Lemma pi_user_messages_not_empty (lines : list line)
    (sessionId : option string) (session : Types.ParsedSession) :
  parsePiSessionContent lines sessionId = Normal (Some session) →
  Forall (fun text => text ≠ "") (Types.userMessages session).
Proof.
  intros Hparse.
  apply parsePiSessionContent_record in Hparse
    as (first & rest & modelChanges & toolResults & st0 & st1 & st2 & firstTs & lastTs
        & id & startedAt & endedAt & cwd & version
        & _ & Hst0 & Hst1 & Hst2 & _ & _ & _ & _ & ->).
  cbn [makeSession Types.userMessages].
  apply (forOf_invariant toolResult
           (fun s => Forall (fun text => text ≠ "") (userMessages s))) in Hst2; [done| |].
  { intros result s s' _ Hs Hstep. unfold toolResult in Hstep.
    apply bind_Normal in Hstep as (toolNameV & _ & Hstep).
    apply bind_Normal in Hstep as (toolName & _ & Hstep).
    destruct toolName; by injection Hstep as <-. }
  apply (forOf_invariant piTurn
           (fun s => Forall (fun text => text ≠ "") (userMessages s))) in Hst1; [done| |].
  { intros msg s s' _ Hs Hstep. by eapply piTurn_not_empty. }
  apply (forOf_invariant modelChange
           (fun s => Forall (fun text => text ≠ "") (userMessages s))) in Hst0;
    [done| |constructor].
  intros change s s' _ Hs Hstep. unfold modelChange in Hstep.
  apply bind_Normal in Hstep as (modelIdV & _ & Hstep).
  apply bind_Normal in Hstep as (modelId & _ & Hstep).
  destruct modelId; by injection Hstep as <-.
Qed.
End UserMessageFacts.

(** ** The search orchestrator: ranking and limit *)

Section SortFacts.
Context {A : Type} (compare : A → A → option Z).
Import SearchLib.

Lemma insert_Permutation (x : A) (sorted : list A) :
  Permutation (insert compare x sorted) (x :: sorted).
Proof.
  induction sorted as [|y rest IH]; cbn [insert]; [done|].
  destruct (sortsAfter compare x y); [|done].
  rewrite IH. apply perm_swap.
Qed.

Lemma sort_Permutation (xs : list A) : Permutation (sort compare xs) xs.
Proof.
  induction xs as [|x rest IH]; cbn [sort]; [done|].
  rewrite insert_Permutation. by constructor.
Qed.

End SortFacts.

Section RankingFacts.
Context `{Host}.
Import Props SearchLib.





Lemma insert_rankable (x : Types.SearchResult) (sorted : list Types.SearchResult) :
  rankable x → Forall rankable sorted → Forall rankable (insert compareResults x sorted).
Proof.
  intros Hx Hall. rewrite (insert_Permutation compareResults x sorted). by constructor.
Qed.









End RankingFacts.

(** ** The scenarios *)




(** C2, the claim as stated fails: an unparseable first line makes the
    whole transcript parse to null, while the same transcript without it
    parses to a record. *)
Lemma malformed_first_line_rejects_transcript :
  @Parser.parseSessionContent Scenario.emailHost Scenario.damagedHeadTranscript None
    = Normal None ∧
  @Parser.parseSessionContent Scenario.emailHost
     (Props.removeMalformed Scenario.damagedHeadTranscript) None ≠ Normal None.
Proof. split; [reflexivity | vm_compute; discriminate]. Qed.

Lemma malformed_lines_skipped_after_first_witness :
  (∃ v rest, Scenario.interleavedTranscript = Some v :: rest) ∧
  @Parser.parseSessionContent Scenario.emailHost Scenario.interleavedTranscript None =
  @Parser.parseSessionContent Scenario.emailHost
     (Props.removeMalformed Scenario.interleavedTranscript) None.
Proof.
  assert (∃ v rest, Scenario.interleavedTranscript = Some v :: rest) as Hfirst.
  { eexists _, _. reflexivity. }
  split; [exact Hfirst|].
  destruct (@malformed_lines_skipped_after_first Scenario.emailHost
              Scenario.interleavedTranscript None) as (_ & _ & Hparser & _).
  exact (Hparser Hfirst).
Defined.

(** C3 at the scenario of the specification: the session is returned with
    relevance 13; [scoreRelevance] has built the two categories in its
    local [matchedOn], and the result carries none. *)
Theorem email_scenario_scored_without_attribution :
  ∃ result,
    @SearchLib.processSessionFiles Scenario.emailHost [Scenario.emailPath]
      (Scenario.queryOptions "email") 0 = Normal ([result], 1%nat) ∧
    Types.userMessages (Types.session result) = ["Let's build an email filtering system"] ∧
    Types.toolsUsed (Types.session result) = ["Edit"] ∧
    Types.filesFromToolCalls (Types.session result) = ["src/api/email.ts"] ∧
    Types.relevance result = Some 13 ∧
    SearchLib.scoreLocals (Types.session result) "email"
      = (13, ["userMessages"; "filesFromToolCalls"]) ∧
    Types.matchedOn result = None.
Proof. eexists. split; [vm_compute; reflexivity|]. repeat split; reflexivity. Qed.

Lemma metadata_has_no_turns (v : json) :
  Some v ∈ Scenario.metadataTranscript →
  Props.isClaudeTurn v = false ∧ Props.isPiTurn v = false.
Proof.
  intros Hin. apply list_elem_of_In in Hin. simpl in Hin.
  destruct Hin as [Heq|[Heq|[Heq|[Heq|[]]]]]; try discriminate Heq;
    injection Heq as <-; split; reflexivity.
Qed.

Lemma no_turns_parse_to_null_witness :
  (∀ v, Some v ∈ Scenario.metadataTranscript →
        Props.isClaudeTurn v = false ∧ Props.isPiTurn v = false) ∧
  @Parser.parseSessionContent Scenario.emailHost Scenario.metadataTranscript None
    = Normal None.
Proof.
  split; [exact metadata_has_no_turns|].
  destruct (@no_turns_parse_to_null Scenario.emailHost Scenario.metadataTranscript None
              metadata_has_no_turns) as (Hnull & _).
  apply Hnull. intros Hin. apply list_elem_of_In in Hin. simpl in Hin.
  intuition discriminate.
Defined.

(** The outcomes the tests of the parser expect on content without any
    record, and on a file that does not exist. *)
Example malformed_content_is_null :
  @Parser.parseSessionContent Scenario.emailHost [None; None] None = Normal None.
Proof. reflexivity. Qed.

Example empty_content_is_null :
  @Parser.parseSessionContent Scenario.emailHost [] None = Normal None.
Proof. reflexivity. Qed.

Example missing_file_is_null :
  @Parser.parseSessionFile Scenario.emailHost "/path/that/does/not/exist.jsonl"
    = Normal None.
Proof. reflexivity. Qed.



(** C6 at a Pi transcript whose user turn holds only blanks: the text is
    kept among the user messages, though it trims to the empty string. *)
Theorem blank_pi_user_text_is_kept :
  ∃ session,
    @Parser.parseSessionContent Scenario.emailHost Scenario.blankPiTranscript None
      = Normal (Some session) ∧
    Types.userMessages session = ["   "] ∧
    JsString.trim "   " = "".
Proof. eexists. split; [vm_compute; reflexivity|]. split; reflexivity. Qed.

(** C9, the claim as stated fails: two turns dated in reverse order parse
    to a record that starts after it ends. *)
Lemma backwards_turns_start_after_end :
  ∃ session,
    @Parser.parseSessionContent Scenario.emailHost Scenario.backwardsTranscript None
      = Normal (Some session) ∧
    ¬ Props.dateLe (Types.startedAt session) (Types.endedAt session).
Proof.
  eexists. split; [vm_compute; reflexivity|]. simpl. lia.
Qed.

Lemma bounds_are_first_and_last_turn_witness :
  ∃ session first rest,
    @Parser.parseSessionContent Scenario.emailHost Scenario.emailTranscript None
      = Normal (Some session) ∧
    Props.conversationalTurns Scenario.emailTranscript = first :: rest ∧
    Types.startedAt session = @Props.timestampDate Scenario.emailHost first ∧
    Types.endedAt session =
      @Props.timestampDate Scenario.emailHost (default first (last (first :: rest))) ∧
    (Props.dateLe (Types.startedAt session) (Types.endedAt session) ↔
     Props.dateLe (@Props.timestampDate Scenario.emailHost first)
       (@Props.timestampDate Scenario.emailHost (default first (last (first :: rest))))).
Proof.
  eexists.
  assert (∀ (P : json → list json → Prop) (Q : Prop),
            Q → (∃ first rest, P first rest) → ∃ first rest, Q ∧ P first rest) as Hpack.
  { intros P Q HQ (first & rest & HP). by exists first, rest. }
  apply Hpack; [vm_compute; reflexivity|].
  apply (@bounds_are_first_and_last_turn Scenario.emailHost Scenario.emailTranscript None).
  vm_compute. reflexivity.
Defined.

(** ** The relevance score *)

Section ScoreFacts.
Import JsString Props SearchLib.

Lemma append_String (c : ascii) (s t : string) :
  String.append (String c s) t = String c (String.append s t).
Proof. reflexivity. Qed.

Lemma append_empty_r (s : string) : String.append s "" = s.
Proof. induction s as [|c s IH]; [done|]. by rewrite append_String, IH. Qed.

Lemma append_assoc (s t u : string) :
  String.append (String.append s t) u = String.append s (String.append t u).
Proof. induction s as [|c s IH]; [done|]. by rewrite !append_String, IH. Qed.

Lemma fold_scoreTerm_score (weight : Z) (category itemLower : string)
    (terms : list string) (st : Z * list string) :
  (fold_left (scoreTerm weight category itemLower) terms st).1 =
  st.1 + weight * Z.of_nat (length (List.filter (includes itemLower) terms)).
Proof.
  revert st. induction terms as [|term terms IH]; intros st; cbn [fold_left List.filter].
  - cbn. lia.
  - rewrite IH. unfold scoreTerm.
    destruct (includes itemLower term); cbn [fst length]; lia.
Qed.

Lemma scoreItems_score (weight : Z) (category : string) (items terms : list string)
    (st : Z * list string) :
  (scoreItems weight category items terms st).1 =
  st.1 + weight * Z.of_nat (countMatches items terms).
Proof.
  unfold scoreItems, countMatches. revert st.
  induction items as [|item items IH]; intros st; cbn [fold_left sum_list_with].
  - lia.
  - rewrite IH, fold_scoreTerm_score.
    change (termMatches item) with (includes (toLowerCase item)). lia.
Qed.

Lemma scoreLocals_score (session : Types.ParsedSession) (query : string) :
  (scoreLocals session query).1 =
    10 * Z.of_nat (countMatches (Types.userMessages session) (queryTerms query))
    + 3 * Z.of_nat (countMatches (Types.toolsUsed session) (queryTerms query))
    + 3 * Z.of_nat (countMatches (Types.filesFromToolCalls session) (queryTerms query)).
Proof.
  unfold scoreLocals. rewrite !scoreItems_score. unfold queryTerms. cbn [fst]. lia.
Qed.

Lemma scoreRelevance_query (session : Types.ParsedSession) (query : string) :
  query ≠ "" → scoreRelevance session query = (scoreLocals session query).1.
Proof. intros Hquery. unfold scoreRelevance. by destruct (String.eqb_spec query ""). Qed.

(** The score of a non-empty query is 10 for every pair of a user message
    and a term that occurs in it, plus 3 for every such pair of a tool
    name and a term, plus 3 for every such pair of a file path and a
    term; occurrences are counted with the case of the item ignored. *)
Theorem score_counts_matching_pairs (session : Types.ParsedSession) (query : string) :
  query ≠ "" →
  scoreRelevance session query =
    10 * Z.of_nat (countMatches (Types.userMessages session) (queryTerms query))
    + 3 * Z.of_nat (countMatches (Types.toolsUsed session) (queryTerms query))
    + 3 * Z.of_nat (countMatches (Types.filesFromToolCalls session) (queryTerms query)).
Proof.
  intros Hquery. rewrite (scoreRelevance_query _ _ Hquery). apply scoreLocals_score.
Qed.

Lemma countMatches_zero (items terms : list string) :
  countMatches items terms = 0%nat ↔ anyMatch items terms = false.
Proof.
  unfold countMatches, anyMatch. induction items as [|item items IH];
    cbn [sum_list_with existsb]; [done|].
  rewrite orb_false_iff, <- IH. clear IH.
  assert (length (List.filter (termMatches item) terms) = 0%nat
          ↔ existsb (termMatches item) terms = false) as Hitem.
  { induction terms as [|term terms IHt]; cbn [List.filter existsb]; [done|].
    destruct (termMatches item term); cbn [length orb]; [split; discriminate | done]. }
  rewrite <- Hitem. lia.
Qed.

Lemma scoreLocals_zero (session : Types.ParsedSession) (query : string) :
  (scoreLocals session query).1 = 0 ↔
  anyMatch (Types.userMessages session ++ Types.toolsUsed session
            ++ Types.filesFromToolCalls session) (queryTerms query) = false.
Proof.
  rewrite scoreLocals_score.
  unfold anyMatch. rewrite !existsb_app, !orb_false_iff.
  fold (anyMatch (Types.userMessages session) (queryTerms query)).
  fold (anyMatch (Types.toolsUsed session) (queryTerms query)).
  fold (anyMatch (Types.filesFromToolCalls session) (queryTerms query)).
  rewrite <- !countMatches_zero. lia.
Qed.

Lemma scoreLocals_nonneg (session : Types.ParsedSession) (query : string) :
  0 ≤ (scoreLocals session query).1.
Proof. rewrite scoreLocals_score. lia. Qed.

(** A non-empty query scores 0 exactly when none of its terms occurs in
    any user message, tool name or file path of the session; no score is
    negative. *)
Theorem score_zero_iff_no_term_occurs (session : Types.ParsedSession) (query : string) :
  query ≠ "" →
  0 ≤ scoreRelevance session query ∧
  (scoreRelevance session query = 0 ↔
   anyMatch (Types.userMessages session ++ Types.toolsUsed session
             ++ Types.filesFromToolCalls session) (queryTerms query) = false).
Proof.
  intros Hquery. rewrite (scoreRelevance_query _ _ Hquery).
  split; [apply scoreLocals_nonneg | apply scoreLocals_zero].
Qed.

Lemma fold_scoreTerm_matchedOn (weight : Z) (category itemLower : string)
    (terms : list string) (st : Z * list string) :
  (fold_left (scoreTerm weight category itemLower) terms st).2 =
  if existsb (includes itemLower) terms then addCategory category st.2 else st.2.
Proof.
  revert st. induction terms as [|term terms IH]; intros st; cbn [fold_left existsb];
    [done|].
  rewrite IH. unfold scoreTerm. fold (addCategory category st.2).
  destruct (includes itemLower term); cbn [snd orb]; [|done].
  assert (addCategory category (addCategory category st.2) = addCategory category st.2)
    as ->; [|by destruct (existsb _ _)].
  unfold addCategory. destruct (decide (category ∈ st.2)) as [Hin|Hout].
  - rewrite (bool_decide_eq_true_2 _ Hin). by rewrite (bool_decide_eq_true_2 _ Hin).
  - rewrite (bool_decide_eq_false_2 _ Hout).
    rewrite bool_decide_eq_true_2; [done|]. apply elem_of_app. right. by left.
Qed.

Lemma scoreItems_matchedOn (weight : Z) (category : string) (items terms : list string)
    (st : Z * list string) :
  (scoreItems weight category items terms st).2 =
  if anyMatch items terms then addCategory category st.2 else st.2.
Proof.
  unfold scoreItems, anyMatch. revert st.
  induction items as [|item items IH]; intros st; cbn [fold_left existsb]; [done|].
  rewrite IH, fold_scoreTerm_matchedOn.
  change (termMatches item) with (includes (toLowerCase item)).
  destruct (existsb (includes (toLowerCase item)) terms); cbn [orb]; [|done].
  destruct (existsb _ items); [|done].
  unfold addCategory. destruct (decide (category ∈ st.2)) as [Hin|Hout].
  - rewrite (bool_decide_eq_true_2 _ Hin). by rewrite (bool_decide_eq_true_2 _ Hin).
  - rewrite (bool_decide_eq_false_2 _ Hout).
    rewrite bool_decide_eq_true_2; [done|]. apply elem_of_app. right. by left.
Qed.

(** The categories [scoreRelevance] has gathered in [matchedOn] when it
    returns are those in which some term occurs, each once, in the order
    user messages, tools, files. *)
Lemma matchedOn_lists_matching_categories (session : Types.ParsedSession)
    (query : string) :
  (scoreLocals session query).2 = matchedCategories session (queryTerms query).
Proof.
  unfold scoreLocals, matchedCategories. rewrite !scoreItems_matchedOn.
  fold (queryTerms query). cbn [snd].
  destruct (anyMatch (Types.userMessages session) _),
           (anyMatch (Types.toolsUsed session) _),
           (anyMatch (Types.filesFromToolCalls session) _); reflexivity.
Qed.

Lemma toLowerChar_whiteSpace (c : ascii) :
  isWhiteSpace c = true → toLowerChar c = c.
Proof. destruct c as [[] [] [] [] [] [] [] []]; vm_compute; congruence. Qed.

Lemma toLowerChar_idempotent (c : ascii) : toLowerChar (toLowerChar c) = toLowerChar c.
Proof. destruct c as [[] [] [] [] [] [] [] []]; reflexivity. Qed.

Lemma toLowerCase_idempotent (s : string) : toLowerCase (toLowerCase s) = toLowerCase s.
Proof.
  induction s as [|c s IH]; cbn [toLowerCase]; [done|].
  by rewrite toLowerChar_idempotent, IH.
Qed.

Lemma toLowerCase_empty (s : string) : toLowerCase s = "" ↔ s = "".
Proof. destruct s; cbn [toLowerCase]; split; intros; (done || discriminate). Qed.

Lemma toLowerCase_app (s t : string) :
  toLowerCase (String.append s t) = String.append (toLowerCase s) (toLowerCase t).
Proof.
  induction s as [|c s IH]; [done|].
  rewrite !append_String. cbn [toLowerCase]. by rewrite append_String, IH.
Qed.

Lemma queryTerms_blank (query : string) : isBlank query = true → queryTerms query = [].
Proof.
  unfold isBlank, queryTerms. induction query as [|c query IH];
    cbn [list_ascii_of_string forallb toLowerCase splitWhiteSpace]; [done|].
  intros [Hc Hrest]%andb_true_iff.
  rewrite (toLowerChar_whiteSpace c Hc), Hc. cbn. by apply IH.
Qed.

(** The case of the letters of the query does not matter to the score. *)
Theorem score_ignores_query_case (session : Types.ParsedSession) (query : string) :
  scoreRelevance session (toLowerCase query) = scoreRelevance session query.
Proof.
  unfold scoreRelevance, scoreLocals. rewrite toLowerCase_idempotent.
  destruct (String.eqb_spec query "") as [->|Hquery]; [done|].
  destruct (String.eqb_spec (toLowerCase query) "") as [Hlow|_]; [|done].
  destruct Hquery. by apply toLowerCase_empty.
Qed.

Lemma joinWith_elem (sep item : string) (parts : list string) :
  item ∈ parts →
  ∃ pre post, Parser.joinWith sep parts = String.append pre (String.append item post).
Proof.
  induction parts as [|part rest IH]; intros Hin; [by apply elem_of_nil in Hin|].
  apply elem_of_cons in Hin as [->|Hin].
  - exists "". destruct rest as [|next rest]; cbn [Parser.joinWith].
    + exists "". by rewrite append_empty_r.
    + by eexists.
  - destruct (IH Hin) as (pre & post & Hjoin).
    destruct rest as [|next rest]; [by apply elem_of_nil in Hin|].
    cbn [Parser.joinWith]. cbn [Parser.joinWith] in Hjoin. rewrite Hjoin.
    exists (String.append part (String.append sep pre)), post.
    by rewrite !append_assoc.
Qed.

Lemma includes_app (s pre post term : string) :
  includes s term = true →
  includes (String.append pre (String.append s post)) term = true.
Proof.
  rewrite !includes_spec. intros (a & b & ->).
  exists (String.append pre a), (String.append b post).
  by rewrite !append_assoc.
Qed.

(** A session that scores above 0 for a non-empty query holds a term of
    the query in its searchable text, the case of the text ignored. *)
Theorem scored_session_text_holds_a_term (session : Types.ParsedSession)
    (query : string) :
  query ≠ "" →
  0 < scoreRelevance session query →
  ∃ term, term ∈ queryTerms query ∧
          includes (toLowerCase (Parser.getSearchableText session)) term = true.
Proof.
  intros Hquery Hscore. rewrite (scoreRelevance_query _ _ Hquery) in Hscore.
  destruct (anyMatch (Types.userMessages session ++ Types.toolsUsed session
                      ++ Types.filesFromToolCalls session) (queryTerms query)) eqn:Hany.
  - unfold anyMatch in Hany. apply existsb_exists in Hany as (item & Hitem & Hterm).
    apply existsb_exists in Hterm as (term & Hterm & Hoccurs).
    exists term. split; [by apply list_elem_of_In|].
    apply list_elem_of_In in Hitem.
    destruct (joinWith_elem " " item _ Hitem) as (pre & post & Hjoin).
    unfold Parser.getSearchableText. rewrite Hjoin, !toLowerCase_app.
    by apply includes_app.
  - apply scoreLocals_zero in Hany. lia.
Qed.
End ScoreFacts.

(** ** The filters: dates, file pattern, empty requests *)

Section MoreFilterFacts.
Import JsString Props SearchLib.

(** An explicit since date takes precedence: the day-count is not read. *)
Theorem since_overrides_days (now : Z) (session : Types.ParsedSession)
    (options : Types.SearchOptions) (since : Date) :
  Types.since options = Some since →
  matchesFilters now session options = matchesFilters now session (withoutDays options).
Proof.
  intros Hsince. unfold matchesFilters, endsBeforeSince, sinceBound.
  cbn [withoutDays Types.since Types.days]. by rewrite Hsince.
Qed.

(** With a day-count that is not 0 and no since date, a session that ends
    at a valid date fails the lower bound exactly when it ends before
    [now] minus that many days of 86400000 ms; when that instant is
    outside the range of dates, nothing fails the bound. *)
Theorem days_bound_is_now_minus_days (now days t : Z) (session : Types.ParsedSession)
    (options : Types.SearchOptions) :
  Types.days options = Some (Types.Int days) →
  days ≠ 0 →
  Types.since options = None →
  Types.endedAt session = Some t →
  (Z.abs (now - days * 86400000) ≤ 8640000000000000 →
   endsBeforeSince now session options = true ↔ t < now - days * 86400000) ∧
  (8640000000000000 < Z.abs (now - days * 86400000) →
   endsBeforeSince now session options = false).
Proof.
  intros Hdays Hnz Hsince Hend. unfold endsBeforeSince, sinceBound.
  rewrite Hsince, Hdays, Hend. cbn [numberTruthy].
  rewrite (proj2 (Z.eqb_neq days 0) Hnz). cbn [negb]. unfold Parser.timeClip.
  replace (now - days * 24 * 60 * 60 * 1000) with (now - days * 86400000) by lia.
  split; intros Hrange.
  - rewrite (proj2 (Z.leb_le _ _) Hrange). cbn [dateLt]. apply Z.ltb_lt.
  - by rewrite (proj2 (Z.leb_gt _ _) Hrange).
Qed.

(** A session whose end is an Invalid Date is rejected by no date bound:
    only the tool and file filters decide. *)
Theorem invalid_end_passes_date_bounds (now : Z) (session : Types.ParsedSession)
    (options : Types.SearchOptions) :
  Types.endedAt session = None →
  endsBeforeSince now session options = false ∧
  endsAfterUntil session options = false ∧
  matchesFilters now session options =
    negb (lacksTools session options) && negb (lacksFile session options).
Proof.
  intros Hend.
  assert (endsBeforeSince now session options = false) as Hsince.
  { unfold endsBeforeSince. rewrite Hend. by destruct (sinceBound now options). }
  assert (endsAfterUntil session options = false) as Huntil.
  { unfold endsAfterUntil. rewrite Hend. by destruct (Types.until options) as [[]|]. }
  split; [done|]. split; [done|]. unfold matchesFilters. rewrite Hsince, Huntil.
  by destruct (lacksTools session options), (lacksFile session options).
Qed.

Lemma hasMatchingFile_spec (session : Types.ParsedSession) (filePattern : string) :
  hasMatchingFile session filePattern = true ↔
  ∃ f, f ∈ Types.filesFromToolCalls session ∧ substringIgnoringCase filePattern f.
Proof.
  unfold hasMatchingFile, substringIgnoringCase. rewrite existsb_exists. split.
  - intros (f & Hin & Hinc). exists f. rewrite <- list_elem_of_In in Hin.
    split; [done|]. by apply includes_spec.
  - intros (f & Hin & Hsub). exists f. rewrite <- list_elem_of_In.
    split; [done|]. by apply includes_spec.
Qed.

(** With a non-empty file pattern, a session is kept exactly when it
    passes the other filters and the pattern is a case-insensitive
    substring of at least one of its file paths. *)
Theorem file_filter_any_substring (now : Z) (session : Types.ParsedSession)
    (options : Types.SearchOptions) (filePattern : string) :
  Types.filePattern options = Some filePattern →
  filePattern ≠ "" →
  matchesFilters now session options = true ↔
  matchesFilters now session (withoutFilePattern options) = true ∧
  ∃ f, f ∈ Types.filesFromToolCalls session ∧ substringIgnoringCase filePattern f.
Proof.
  intros Hpattern Hne. rewrite <- hasMatchingFile_spec. unfold matchesFilters.
  change (endsBeforeSince now session (withoutFilePattern options))
    with (endsBeforeSince now session options).
  change (endsAfterUntil session (withoutFilePattern options))
    with (endsAfterUntil session options).
  change (lacksTools session (withoutFilePattern options))
    with (lacksTools session options).
  change (lacksFile session (withoutFilePattern options)) with false.
  assert (lacksFile session options = negb (hasMatchingFile session filePattern)) as ->.
  { unfold lacksFile. rewrite Hpattern. by destruct (String.eqb_spec filePattern ""). }
  destruct (endsBeforeSince now session options).
  { split; [discriminate | intros [Hkept _]; discriminate Hkept]. }
  destruct (endsAfterUntil session options).
  { split; [discriminate | intros [Hkept _]; discriminate Hkept]. }
  destruct (lacksTools session options).
  { split; [discriminate | intros [Hkept _]; discriminate Hkept]. }
  destruct (hasMatchingFile session filePattern); cbn [negb].
  - by split.
  - split; [discriminate | intros [_ Hany]; discriminate Hany].
Qed.

Lemma includes_empty (s : string) : includes s "" = true.
Proof. apply includes_spec. by exists "", s. Qed.

(** A requested tool name that is the empty string matches every tool:
    the tool filter then keeps exactly the sessions that used some tool. *)
Theorem empty_tool_name_matches_any_tool (session : Types.ParsedSession)
    (tools : list string) :
  "" ∈ tools →
  hasMatchingTool session tools = true ↔ Types.toolsUsed session ≠ [].
Proof.
  intros Hin. unfold hasMatchingTool. split.
  - intros Hany Hnone. rewrite Hnone in Hany.
    apply existsb_exists in Hany as (tool & _ & Hany). discriminate Hany.
  - intros Hused. apply existsb_exists. exists "".
    split; [by apply list_elem_of_In|].
    destruct (Types.toolsUsed session) as [|t used]; [done|].
    cbn [existsb toLowerCase]. by rewrite includes_empty.
Qed.
End MoreFilterFacts.

(** ** Files, directories and the results built from them *)

Section FileFacts.
Context `{Host}.
Import JsString Props SearchLib.

Lemma endsWith_spec (s t : string) :
  endsWith s t = true ↔ ∃ pre, s = String.append pre t.
Proof.
  induction s as [|c s IH]; cbn [endsWith].
  - rewrite orb_false_r, String.eqb_eq. split.
    + intros <-. by exists "".
    + intros ([|c pre] & Heq); [done|]. rewrite append_String in Heq. discriminate.
  - rewrite orb_true_iff, String.eqb_eq, IH. split.
    + intros [<- | (pre & ->)]; [by exists "" | by exists (String c pre)].
    + intros ([|c' pre] & Heq); [by left|].
      rewrite append_String in Heq. injection Heq as -> ->. right. by exists pre.
Qed.

Lemma elem_of_findSessionFiles (dir path : string) (options : Types.SearchOptions) :
  path ∈ findSessionFiles dir options ↔ listedIn dir path.
Proof.
  unfold findSessionFiles, listedIn.
  destruct (readdirSync dir) as [names|].
  - rewrite list_elem_of_fmap. split.
    + intros (name & -> & Hname).
      apply list_elem_of_In, filter_In in Hname as [Hname Hends].
      apply endsWith_spec in Hends as (stem & Hstem).
      exists names, name, stem. by rewrite <- list_elem_of_In in Hname.
    + intros (names' & name & stem & [= <-] & Hname & Hstem & ->).
      exists name. split; [done|]. apply list_elem_of_In, filter_In.
      split; [by apply list_elem_of_In|]. apply endsWith_spec. by exists stem.
  - split; [by intros Hin%elem_of_nil | by intros (? & ? & ? & ? & _)].
Qed.

(** [findSessionFiles] lists exactly the entries of the directory whose
    name ends in [.jsonl], each joined to the directory; a directory that
    cannot be read has none. *)
Theorem findSessionFiles_lists_jsonl_entries (dir path : string)
    (options : Types.SearchOptions) :
  (path ∈ findSessionFiles dir options ↔ listedIn dir path) ∧
  (readdirSync dir = None → findSessionFiles dir options = []).
Proof.
  split; [apply elem_of_findSessionFiles|].
  intros Hunreadable. unfold findSessionFiles. by rewrite Hunreadable.
Qed.

(** [findSessionDirs] lists exactly the entries of the base directory that
    [statSync] reports as directories; an entry whose [statSync] throws is
    left out, and a base directory that cannot be read has none. *)
Theorem findSessionDirs_lists_directories (baseDir path : string) :
  (path ∈ findSessionDirs baseDir ↔
   ∃ names name, readdirSync baseDir = Some names ∧ name ∈ names ∧
                 path = join baseDir name ∧ statIsDirectory path = Some true) ∧
  (readdirSync baseDir = None → findSessionDirs baseDir = []).
Proof.
  unfold findSessionDirs. split; [|by intros ->].
  destruct (readdirSync baseDir) as [names|].
  - rewrite list_elem_of_In, filter_In, <- list_elem_of_In, list_elem_of_fmap. split.
    + intros [(name & -> & Hname) Hdir]. exists names, name.
      by destruct (statIsDirectory (join baseDir name)) as [[]|].
    + intros (names' & name & [= <-] & Hname & -> & Hdir). rewrite Hdir.
      split; [by exists name | done].
  - split; [by intros Hin%elem_of_nil | by intros (? & ? & ? & _)].
Qed.

Lemma forOf_app {A S} (step : S → A → completion S) (xs ys : list A) (st : S) :
  forOf step (xs ++ ys) st = (let* st1 := forOf step xs st in forOf step ys st1).
Proof.
  revert st. induction xs as [|x xs IH]; intros st; cbn [forOf app bind]; [done|].
  destruct (step st x) as [st1|e]; cbn [bind]; [apply IH | done].
Qed.

(** The loop body of [searchSessions] searches, in order, the directories
    of [searchedDirs]. *)
Lemma searchBaseDir_searches_searchedDirs (options : Types.SearchOptions)
    (st : list Types.SearchResult * nat) (baseDir : string) :
  searchBaseDir options st baseDir = forOf (searchDir options) (searchedDirs baseDir) st.
Proof.
  unfold searchBaseDir, searchedDirs.
  destruct (_ || _); [done|]. destruct (_ || _).
  - destruct (findSessionDirs baseDir) as [|dir dirs]; cbn [length Nat.ltb Nat.leb forOf].
    + by destruct (searchDir options st baseDir).
    + done.
  - rewrite forOf_app. destruct (findSessionDirs baseDir) as [|dir dirs].
    + cbn [length Nat.ltb Nat.leb forOf bind]. by destruct (searchDir options st baseDir).
    + cbn [length Nat.ltb Nat.leb].
      destruct (forOf (searchDir options) (dir :: dirs) st) as [st1|e]; cbn [bind forOf];
        [by destruct (searchDir options st1 baseDir) | done].
Qed.

Lemma hasQuery_not_empty (options : Types.SearchOptions) (query : string) :
  hasQuery options = Some query → query ≠ "".
Proof.
  unfold hasQuery. destruct (Types.query options) as [q|]; [|done].
  destruct (String.eqb_spec q ""); [done|]. by intros [= <-].
Qed.

(** One turn of the loop of [processSessionFiles] adds nothing, or one
    result built from the file. *)
Lemma processSessionFile_adds (options : Types.SearchOptions)
    (st st' : list Types.SearchResult * nat) (filePath : string) :
  processSessionFile options st filePath = Normal st' →
  st'.1 = st.1 ∨ ∃ r, st'.1 = (st.1 ++ [r])%list ∧ builtFrom options filePath r.
Proof.
  unfold processSessionFile. intros Hrun.
  destruct (Parser.parseSessionFile filePath) as [[session|]|[]] eqn:Hparse;
    cbn in Hrun; try (injection Hrun as <-; by left); [|discriminate].
  destruct (length _ =? 0)%nat eqn:Hmessages; [injection Hrun as <-; by left|].
  destruct (negb _) eqn:Hfilters; [injection Hrun as <-; by left|].
  apply negb_false_iff in Hfilters.
  destruct (match hasQuery options with Some _ => _ | None => false end) eqn:Hzero;
    injection Hrun as <-; [by left|].
  right. eexists. split; [reflexivity|]. unfold builtFrom.
  cbn [Types.transcriptPath Types.session Types.matchedOn Types.relevance].
  split; [done|]. split; [done|]. split.
  { intros Hnone. by rewrite Hnone in Hmessages. }
  split; [by eexists|]. split; [done|].
  destruct (hasQuery options) as [query|] eqn:Hquery; [|done].
  split; [done|]. apply Z.eqb_neq in Hzero.
  pose proof (scoreLocals_nonneg session query) as Hnonneg.
  rewrite <- (scoreRelevance_query _ _ (hasQuery_not_empty _ _ Hquery)) in Hnonneg. lia.
Qed.

Lemma forOf_processSessionFile (options : Types.SearchOptions)
    (filePaths : list string) (st st' : list Types.SearchResult * nat) :
  forOf (processSessionFile options) filePaths st = Normal st' →
  ∃ added,
    st'.1 = (st.1 ++ added)%list ∧
    Types.transcriptPath <$> added `sublist_of` filePaths ∧
    Forall (fun r => builtFrom options (Types.transcriptPath r) r) added.
Proof.
  revert st. induction filePaths as [|filePath filePaths IH]; intros st Hrun;
    cbn [forOf] in Hrun.
  - injection Hrun as <-. exists []. by rewrite app_nil_r.
  - apply bind_Normal in Hrun as (st1 & Hstep & Hrun).
    destruct (IH _ Hrun) as (added & Hadded & Hsub & Hbuilt).
    apply processSessionFile_adds in Hstep as [Hsame | (r & Hone & Hr)].
    + exists added. rewrite Hadded, Hsame. split; [done|].
      split; [by apply sublist_cons | done].
    + exists (r :: added). rewrite Hadded, Hone, <- app_assoc. split; [done|].
      assert (Types.transcriptPath r = filePath) as Hpath by apply Hr.
      split; [cbn [fmap list_fmap]; rewrite Hpath; by apply sublist_skip|].
      constructor; [by rewrite Hpath | done].
Qed.

(** Every result of [processSessionFiles] is built from the file it
    names: the file parses to its session, the session has a user
    message and passes the filters, it carries no [matchedOn], and its
    relevance is the score of the query, above 0, or 1 without a query. *)
Theorem processSessionFiles_results_are_built (filePaths : list string)
    (options : Types.SearchOptions) (tick tick' : nat)
    (results : list Types.SearchResult) :
  processSessionFiles filePaths options tick = Normal (results, tick') →
  Forall (fun r => Types.transcriptPath r ∈ filePaths ∧
                   builtFrom options (Types.transcriptPath r) r) results.
Proof.
  unfold processSessionFiles. intros Hrun.
  apply forOf_processSessionFile in Hrun as (added & Hresults & Hsub & Hbuilt).
  cbn [fst app] in Hresults. subst results.
  apply Forall_forall. intros r Hr. split; [|by eapply Forall_forall in Hbuilt].
  apply (sublist_subseteq _ _ Hsub). apply list_elem_of_fmap. by exists r.
Qed.

(** The results of [processSessionFiles] follow the order of the files:
    their paths are a sublist of the paths given, at most one result for
    each. *)
Theorem processSessionFiles_keeps_file_order (filePaths : list string)
    (options : Types.SearchOptions) (tick tick' : nat)
    (results : list Types.SearchResult) :
  processSessionFiles filePaths options tick = Normal (results, tick') →
  Types.transcriptPath <$> results `sublist_of` filePaths.
Proof.
  unfold processSessionFiles. intros Hrun.
  apply forOf_processSessionFile in Hrun as (added & Hresults & Hsub & _).
  cbn [fst app] in Hresults. by subst results.
Qed.

(** A non-empty query made of white space only has no term, scores 0 and
    so excludes every file. *)
Theorem blank_query_excludes_every_file (filePaths : list string)
    (options : Types.SearchOptions) (query : string) (tick tick' : nat)
    (results : list Types.SearchResult) :
  Types.query options = Some query →
  query ≠ "" →
  isBlank query = true →
  processSessionFiles filePaths options tick = Normal (results, tick') →
  results = [].
Proof.
  intros Hquery Hne Hblank Hrun. unfold processSessionFiles in Hrun.
  apply forOf_processSessionFile in Hrun as (added & Hresults & _ & Hbuilt).
  cbn [fst app] in Hresults. subst results.
  destruct added as [|r added]; [done|].
  apply Forall_cons in Hbuilt as [(_ & _ & _ & _ & _ & Hscore) _].
  assert (hasQuery options = Some query) as Hhas.
  { unfold hasQuery. rewrite Hquery. by destruct (String.eqb_spec query ""). }
  rewrite Hhas in Hscore. destruct Hscore as [_ Hpositive].
  rewrite (scoreRelevance_query _ _ Hne), scoreLocals_score in Hpositive.
  rewrite (queryTerms_blank _ Hblank) in Hpositive.
  assert (∀ items, countMatches items [] = 0%nat) as Hzero.
  { intros items. unfold countMatches. induction items as [|item items IH]; [done|].
    cbn [sum_list_with]. by rewrite IH. }
  rewrite !Hzero in Hpositive. lia.
Qed.
End FileFacts.

(** ** The search orchestrator: where the results come from *)

Section ScopeFacts.
Context `{Host}.
Import JsString Props SearchLib.

Lemma searchDir_adds (options : Types.SearchOptions)
    (st st' : list Types.SearchResult * nat) (dir : string) :
  searchDir options st dir = Normal st' →
  ∃ added,
    st'.1 = (st.1 ++ added)%list ∧
    Forall (fun r => listedIn dir (Types.transcriptPath r) ∧
                     builtFrom options (Types.transcriptPath r) r) added.
Proof.
  unfold searchDir, processSessionFiles. intros Hrun.
  apply bind_Normal in Hrun as (found & Hfound & Hrun). injection Hrun as <-.
  apply forOf_processSessionFile in Hfound as (added & Hadded & Hsub & Hbuilt).
  cbn [fst app] in Hadded. exists added. rewrite Hadded. split; [done|].
  apply Forall_forall. intros r Hr. split; [|by eapply Forall_forall in Hbuilt].
  apply (elem_of_findSessionFiles dir _ options), (sublist_subseteq _ _ Hsub).
  apply list_elem_of_fmap. by exists r.
Qed.

Lemma forOf_searchDir_adds (options : Types.SearchOptions) (dirs : list string)
    (st st' : list Types.SearchResult * nat) :
  forOf (searchDir options) dirs st = Normal st' →
  ∃ added,
    st'.1 = (st.1 ++ added)%list ∧
    Forall (fun r => ∃ dir, dir ∈ dirs ∧ listedIn dir (Types.transcriptPath r) ∧
                            builtFrom options (Types.transcriptPath r) r) added.
Proof.
  revert st. induction dirs as [|dir dirs IH]; intros st Hrun; cbn [forOf] in Hrun.
  - injection Hrun as <-. exists []. by rewrite app_nil_r.
  - apply bind_Normal in Hrun as (st1 & Hstep & Hrun).
    destruct (IH _ Hrun) as (later & Hlater & Hbuilt).
    apply searchDir_adds in Hstep as (first & Hfirst & Hfirstbuilt).
    exists (first ++ later)%list. rewrite Hlater, Hfirst, <- app_assoc. split; [done|].
    apply Forall_app. split.
    + eapply Forall_impl; [exact Hfirstbuilt|]. intros r [Hlisted Hr].
      exists dir. split; [by left | done].
    + eapply Forall_impl; [exact Hbuilt|]. intros r (d & Hd & Hr).
      exists d. split; [by right | done].
Qed.

Lemma forOf_searchBaseDir_adds (options : Types.SearchOptions)
    (directories : list string) (st st' : list Types.SearchResult * nat) :
  forOf (searchBaseDir options) directories st = Normal st' →
  ∃ added,
    st'.1 = (st.1 ++ added)%list ∧
    Forall (fun r => ∃ baseDir dir,
                       baseDir ∈ directories ∧ dir ∈ searchedDirs baseDir ∧
                       listedIn dir (Types.transcriptPath r) ∧
                       builtFrom options (Types.transcriptPath r) r) added.
Proof.
  revert st. induction directories as [|baseDir directories IH]; intros st Hrun;
    cbn [forOf] in Hrun.
  - injection Hrun as <-. exists []. by rewrite app_nil_r.
  - apply bind_Normal in Hrun as (st1 & Hstep & Hrun).
    destruct (IH _ Hrun) as (later & Hlater & Hbuilt).
    rewrite searchBaseDir_searches_searchedDirs in Hstep.
    apply forOf_searchDir_adds in Hstep as (first & Hfirst & Hfirstbuilt).
    exists (first ++ later)%list. rewrite Hlater, Hfirst, <- app_assoc. split; [done|].
    apply Forall_app. split.
    + eapply Forall_impl; [exact Hfirstbuilt|]. intros r (dir & Hdir & Hr).
      exists baseDir, dir. split; [by left | done].
    + eapply Forall_impl; [exact Hbuilt|]. intros r (b & d & Hb & Hr).
      exists b, d. split; [by right | done].
Qed.

Lemma elem_of_slice0 {A} (x : A) (xs : list A) (e : Z) : x ∈ slice0 xs e → x ∈ xs.
Proof.
  unfold slice0. destruct (e <? 0); intros Hin; by eapply (sublist_subseteq _ _ (sublist_take _ _)).
Qed.

(** Every result a search returns comes from a transcript that
    [findSessionFiles] lists in one of the directories searched for one
    of the base directories given (for the Claude directory its
    subdirectories, never the directory itself), and is built from that
    transcript by [processSessionFiles]. *)
Theorem search_results_come_from_searched_dirs (directories : list string)
    (options : Types.SearchOptions) (tick : nat) (output : list Types.SearchResult) :
  searchSessions directories options tick = Normal output →
  Forall (fun r => ∃ baseDir dir,
                     baseDir ∈ directories ∧ dir ∈ searchedDirs baseDir ∧
                     listedIn dir (Types.transcriptPath r) ∧
                     builtFrom options (Types.transcriptPath r) r) output.
Proof.
  unfold searchSessions. intros Hrun.
  apply bind_Normal in Hrun as (found & Hfound & Hrun). injection Hrun as <-.
  apply forOf_searchBaseDir_adds in Hfound as (added & Hadded & Hbuilt).
  cbn [fst app] in Hadded. rewrite Hadded.
  apply Forall_forall. intros r Hr. eapply Forall_forall in Hbuilt; [exact Hbuilt|].
  unfold sortAndLimit in Hr. apply elem_of_slice0 in Hr.
  by rewrite (sort_Permutation compareResults added) in Hr.
Qed.

(** A negative limit does not bound the output: it drops that many
    results from the end of the sorted list. *)
Theorem negative_limit_drops_from_the_end (results : list Types.SearchResult)
    (options : Types.SearchOptions) (n : Z) :
  Types.limit options = Some (Types.Int n) →
  n < 0 →
  sortAndLimit results options =
    take (length results - Z.to_nat (- n)) (sort compareResults results).
Proof.
  intros Hlimit Hn. unfold sortAndLimit, effectiveLimit, slice0. rewrite Hlimit.
  cbn [numberTruthy]. rewrite (proj2 (Z.eqb_neq n 0)) by lia. cbn [negb].
  rewrite (proj2 (Z.ltb_lt n 0) Hn).
  rewrite (Permutation_length (sort_Permutation compareResults results)).
  f_equal. lia.
Qed.
End ScopeFacts.

(** ** The normalizers: sets and buckets *)

Section SetFacts.
Context `{Host}.
Import JsString Props Parser.

Lemma NoDup_setAdd (x : string) (s : list string) : NoDup s → NoDup (Js.setAdd x s).
Proof.
  intros Hs. unfold Js.setAdd. destruct (decide (x ∈ s)) as [|Hout]; [done|].
  apply NoDup_app. split; [done|]. split; [|apply NoDup_singleton].
  intros y Hy Hx. apply list_elem_of_singleton in Hx as ->. done.
Qed.

Lemma addIfPath_NoDup (key : string) (value : json) (files : list string) :
  NoDup files → NoDup (addIfPath key value files).
Proof.
  intros Hfiles. unfold addIfPath. destruct value; try done.
  destruct (_ && _); [by apply NoDup_setAdd | done].
Qed.

Lemma fold_visitEntry_NoDup (es : list (string * json)) :
  Forall (fun kv => ∀ files, NoDup files → NoDup (extractFilePaths kv.2 files)) es →
  ∀ files, NoDup files → NoDup (fold_left visitEntry es files).
Proof.
  induction 1 as [|[key value] es Hvalue _ IH]; intros files Hfiles; cbn [fold_left];
    [done|].
  apply IH. unfold visitEntry. cbn [fst snd] in *.
  destruct value; try by apply addIfPath_NoDup.
  by apply Hvalue, addIfPath_NoDup.
Qed.

Lemma extractFilePaths_NoDup (input : json) (files : list string) :
  NoDup files → NoDup (extractFilePaths input files).
Proof.
  revert files. induction input as [| b | n | text | xs IH | kvs IH]
    using json_nested_ind; intros files Hfiles; try done.
  - cbn [extractFilePaths]. generalize 0%nat as i. revert files Hfiles.
    induction text as [|c text IHt]; intros files Hfiles i; [done|].
    cbn [Js.charEntries fold_left]. by apply IHt, addIfPath_NoDup.
  - rewrite extractFilePaths_entries. apply fold_visitEntry_NoDup; [|done].
    cbn [Js.entries]. apply Forall_forall. intros [k x] Hin.
    apply elem_of_lookup_imap in Hin as (i & y & Heq & Hy). injection Heq as -> ->.
    rewrite Forall_forall in IH. apply IH. by eapply list_elem_of_lookup_2.
  - rewrite extractFilePaths_entries. by apply fold_visitEntry_NoDup.
Qed.

(** The sets hold no duplicates and every bucket is named among the models. *)
Lemma wellFormed_initial : distinct initialLocals ∧ bucketsNamed initialLocals.
Proof.
  split; [repeat split; constructor|]. intros model [c Hc].
  cbn [initialLocals modelTokens] in Hc. by rewrite lookup_empty in Hc.
Qed.

Lemma trackModel_wellFormed (model : option string) (st : Locals) :
  distinct st ∧ bucketsNamed st →
  distinct (trackModel model st) ∧ bucketsNamed (trackModel model st).
Proof.
  intros [(Htools & Hfiles & Hmodels) Hbuckets]. destruct model as [name|]; [|done].
  unfold trackModel. cbn [addModel modelTokens].
  assert (∀ model, is_Some (modelTokens st !! model) →
                   model ∈ Js.setAdd name (modelsUsed st)) as Hold.
  { intros model Hmodel. apply elem_of_setAdd. right. by apply Hbuckets. }
  destruct (hasEntry (modelTokens st) name).
  - split; [|exact Hold]. repeat split; [done..|]. by apply NoDup_setAdd.
  - split; [repeat split; [done..|]; by apply NoDup_setAdd|].
    intros model. unfold bucketsNamed. cbn [withModelTokens modelTokens modelsUsed].
    destruct (decide (name = model)) as [<-|Hne].
    + intros _. apply elem_of_setAdd. by left.
    + rewrite lookup_insert_ne by done. apply Hold.
Qed.

Lemma addModelTokens_wellFormed (model : option string) (u : Types.TokenCounts)
    (st : Locals) :
  distinct st ∧ bucketsNamed st →
  distinct (addModelTokens model u st) ∧ bucketsNamed (addModelTokens model u st).
Proof.
  intros [Hdistinct Hbuckets]. destruct model as [name|]; [|done].
  unfold addModelTokens. destruct (hasEntry (modelTokens st) name); [|done].
  split; [done|]. intros model. cbn [withModelTokens modelTokens modelsUsed].
  rewrite lookup_alter. destruct (decide (name = model)) as [<-|_].
  - rewrite fmap_is_Some. apply Hbuckets.
  - apply Hbuckets.
Qed.

Lemma usage_wellFormed (usage : jsval) (model : option string)
    (fIn fOut fCreate fRead : string) (st st' : Locals) :
  (if Js.truthy usage
   then let* u := readUsage fIn fOut fCreate fRead usage in
        Normal (addModelTokens model u (addSessionTokens u (trackModel model st)))
   else Normal (trackModel model st)) = Normal st' →
  distinct st ∧ bucketsNamed st → distinct st' ∧ bucketsNamed st'.
Proof.
  intros Hrun Hst. apply (trackModel_wellFormed model) in Hst.
  destruct (Js.truthy usage).
  - apply bind_Normal in Hrun as (u & _ & Hrun). injection Hrun as <-.
    by apply addModelTokens_wellFormed.
  - by injection Hrun as <-.
Qed.

Lemma extractFromBlock_wellFormed (tag args : string) (st st' : Locals) (block : json) :
  extractFromBlock tag args st block = Normal st' →
  distinct st ∧ bucketsNamed st → distinct st' ∧ bucketsNamed st'.
Proof.
  unfold extractFromBlock. intros Hrun [(Htools & Hfiles & Hmodels) Hbuckets].
  apply bind_Normal in Hrun as (isTool & _ & Hrun).
  destruct isTool; [|by injection Hrun as <-].
  apply bind_Normal in Hrun as (nameV & _ & Hrun).
  apply bind_Normal in Hrun as (name & _ & Hrun).
  destruct name as [name|]; [|by injection Hrun as <-].
  assert (NoDup (Js.setAdd name (toolsUsed st))) as Htools' by by apply NoDup_setAdd.
  apply bind_Normal in Hrun as (input & _ & Hrun).
  destruct input as [input|]; [|by injection Hrun as <-].
  destruct (Js.truthy (Some input)); injection Hrun as <-; [|done].
  split; [|done]. repeat split; [done | | done].
  by apply extractFilePaths_NoDup.
Qed.

Lemma forBlocks_invariant (I : Locals → Prop)
    (step : Locals → json → completion Locals) (content : jsval) (st st' : Locals) :
  (∀ s s' block, step s block = Normal s' → I s → I s') →
  forBlocks step content st = Normal st' → I st → I st'.
Proof.
  intros Hstep Hrun Hst. unfold forBlocks in Hrun.
  destruct content as [[| | | | blocks |]|]; try by injection Hrun as <-.
  apply (forOf_invariant step I blocks st st'); [|done|done].
  intros block s s' _ Hs Hrun'. by eapply Hstep.
Qed.

Lemma claudeTurn_wellFormed (st st' : Locals) (msg : json) :
  claudeTurn st msg = Normal st' →
  distinct st ∧ bucketsNamed st → distinct st' ∧ bucketsNamed st'.
Proof.
  intros Hrun Hst. unfold claudeTurn in Hrun.
  apply bind_Normal in Hrun as (isUser & _ & Hrun). destruct isUser.
  - apply bind_Normal in Hrun as (userMsg & _ & Hrun).
    apply bind_Normal in Hrun as (content & _ & Hrun).
    destruct content as [[| | | text | |]|]; try by injection Hrun as <-.
    destruct (negb _); by injection Hrun as <-.
  - apply bind_Normal in Hrun as (isAssistant & _ & Hrun).
    destruct isAssistant; [|by injection Hrun as <-].
    apply bind_Normal in Hrun as (assistantMsg & _ & Hrun).
    apply bind_Normal in Hrun as (modelV & _ & Hrun).
    apply bind_Normal in Hrun as (model & _ & Hrun).
    apply bind_Normal in Hrun as (usage & _ & Hrun).
    apply bind_Normal in Hrun as (st2 & Hst2 & Hrun).
    apply bind_Normal in Hrun as (content & _ & Hrun).
    eapply (forBlocks_invariant (fun s => distinct s ∧ bucketsNamed s));
      [|exact Hrun|exact (usage_wellFormed _ _ _ _ _ _ _ _ Hst2 Hst)].
    intros s s' block. apply extractFromBlock_wellFormed.
Qed.

Lemma piTurn_wellFormed (st st' : Locals) (msg : json) :
  piTurn st msg = Normal st' →
  distinct st ∧ bucketsNamed st → distinct st' ∧ bucketsNamed st'.
Proof.
  intros Hrun Hst. unfold piTurn in Hrun.
  apply bind_Normal in Hrun as (message & _ & Hrun).
  apply bind_Normal in Hrun as (role & _ & Hrun).
  destruct (Js.isStr role "user").
  - apply bind_Normal in Hrun as (content & _ & Hrun).
    eapply (forBlocks_invariant (fun s => distinct s ∧ bucketsNamed s)); [|exact Hrun|done].
    intros s s' block Hstep Hs. unfold piUserBlock in Hstep.
    apply bind_Normal in Hstep as (isText & _ & Hstep).
    destruct isText; [|by injection Hstep as <-].
    apply bind_Normal in Hstep as (textV & _ & Hstep).
    apply bind_Normal in Hstep as (text & _ & Hstep).
    destruct text; by injection Hstep as <-.
  - destruct (Js.isStr role "assistant"); [|by injection Hrun as <-].
    apply bind_Normal in Hrun as (topModel & _ & Hrun).
    apply bind_Normal in Hrun as (modelV & _ & Hrun).
    apply bind_Normal in Hrun as (topUsage & _ & Hrun).
    apply bind_Normal in Hrun as (usage & _ & Hrun).
    apply bind_Normal in Hrun as (model & _ & Hrun).
    apply bind_Normal in Hrun as (st2 & Hst2 & Hrun).
    apply bind_Normal in Hrun as (content & _ & Hrun).
    eapply (forBlocks_invariant (fun s => distinct s ∧ bucketsNamed s));
      [|exact Hrun|exact (usage_wellFormed _ _ _ _ _ _ _ _ Hst2 Hst)].
    intros s s' block. apply extractFromBlock_wellFormed.
Qed.

Lemma modelChange_wellFormed (st st' : Locals) (change : json) :
  modelChange st change = Normal st' →
  distinct st ∧ bucketsNamed st → distinct st' ∧ bucketsNamed st'.
Proof.
  unfold modelChange. intros Hrun [(Htools & Hfiles & Hmodels) Hbuckets].
  apply bind_Normal in Hrun as (modelIdV & _ & Hrun).
  apply bind_Normal in Hrun as (modelId & _ & Hrun).
  destruct modelId as [name|]; injection Hrun as <-; [|done].
  split; [repeat split; [done..|]; by apply NoDup_setAdd|].
  intros model Hmodel. apply elem_of_setAdd. right. by apply Hbuckets.
Qed.

Lemma toolResult_wellFormed (st st' : Locals) (result : json) :
  toolResult st result = Normal st' →
  distinct st ∧ bucketsNamed st → distinct st' ∧ bucketsNamed st'.
Proof.
  unfold toolResult. intros Hrun [(Htools & Hfiles & Hmodels) Hbuckets].
  apply bind_Normal in Hrun as (toolNameV & _ & Hrun).
  apply bind_Normal in Hrun as (toolName & _ & Hrun).
  destruct toolName as [name|]; injection Hrun as <-; [|done].
  split; [|done]. repeat split; [|done..]. by apply NoDup_setAdd.
Qed.

Lemma parse_wellFormed (lines : list line) (sessionId : option string)
    (session : Types.ParsedSession) :
  parseSessionContent lines sessionId = Normal (Some session) →
  (NoDup (Types.toolsUsed session) ∧ NoDup (Types.filesFromToolCalls session)
   ∧ NoDup (Types.modelsUsed session)) ∧
  (∀ model, is_Some (Types.modelTokens session !! model) →
            model ∈ Types.modelsUsed session).
Proof.
  unfold parseSessionContent. intros Hparse.
  destruct lines as [|firstLine lines]; [discriminate|].
  destruct (detectSessionFormat firstLine); [| |discriminate].
  - apply parseClaudeSessionContent_record in Hparse
      as (first & rest & st & firstTs & lastTs & id & startedAt & endedAt & gitBranch
          & cwd & version & _ & Hst & _ & _ & _ & _ & ->).
    apply (forOf_invariant claudeTurn (fun s => distinct s ∧ bucketsNamed s)) in Hst;
      [done | | apply wellFormed_initial].
    intros msg s s' _ Hs Hstep. by eapply claudeTurn_wellFormed.
  - apply parsePiSessionContent_record in Hparse
      as (first & rest & modelChanges & toolResults & st0 & st1 & st2 & firstTs & lastTs
          & id & startedAt & endedAt & cwd & version
          & _ & Hst0 & Hst1 & Hst2 & _ & _ & _ & _ & ->).
    apply (forOf_invariant toolResult (fun s => distinct s ∧ bucketsNamed s)) in Hst2;
      [done| |].
    { intros result s s' _ Hs Hstep. by eapply toolResult_wellFormed. }
    apply (forOf_invariant piTurn (fun s => distinct s ∧ bucketsNamed s)) in Hst1;
      [done| |].
    { intros msg s s' _ Hs Hstep. by eapply piTurn_wellFormed. }
    apply (forOf_invariant modelChange (fun s => distinct s ∧ bucketsNamed s)) in Hst0;
      [done | | apply wellFormed_initial].
    intros change s s' _ Hs Hstep. by eapply modelChange_wellFormed.
Qed.

(** The tool names, the file paths and the model identifiers of a parsed
    session each hold no duplicate. *)
Theorem parsed_sets_hold_no_duplicates (lines : list line) (sessionId : option string)
    (session : Types.ParsedSession) :
  parseSessionContent lines sessionId = Normal (Some session) →
  NoDup (Types.toolsUsed session) ∧ NoDup (Types.filesFromToolCalls session)
  ∧ NoDup (Types.modelsUsed session).
Proof. intros Hparse. by apply parse_wellFormed in Hparse as [? _]. Qed.

(** Every model that has an entry in the per-model token mapping of a
    parsed session is among its models used. *)
Theorem per_model_entries_are_models_used (lines : list line)
    (sessionId : option string) (session : Types.ParsedSession) (model : string) :
  parseSessionContent lines sessionId = Normal (Some session) →
  is_Some (Types.modelTokens session !! model) →
  model ∈ Types.modelsUsed session.
Proof. intros Hparse. apply parse_wellFormed in Hparse as [_ Hnamed]. apply Hnamed. Qed.
End SetFacts.

(** ** The normalizers: identity, volume and user messages *)

Section IdentityFacts.
Context `{Host}.
Import JsString Props Parser.

Lemma length_append (s t : string) :
  String.length (String.append s t) = (String.length s + String.length t)%nat.
Proof. induction s as [|c s IH]; [done|]. rewrite append_String. cbn. by rewrite IH. Qed.

Lemma substring_empty (a b : nat) : substring a b "" = "".
Proof. by destruct a, b. Qed.

Lemma substring_add (a b c : nat) (s : string) :
  substring a (b + c) s = String.append (substring a b s) (substring (a + b) c s).
Proof.
  revert a b. induction s as [|ch s IH]; intros a b.
  - by rewrite !substring_empty.
  - destruct a as [|a]; [|apply IH].
    destruct b as [|b]; [done|].
    cbn [Nat.add substring]. rewrite append_String. f_equal. apply (IH 0%nat b).
Qed.

Lemma substring_all (s : string) : substring 0 (String.length s) s = s.
Proof. induction s as [|c s IH]; [done|]. cbn. by rewrite IH. Qed.

Lemma substring_length (a b : nat) (s : string) :
  (a + b ≤ String.length s)%nat → String.length (substring a b s) = b.
Proof.
  revert a b. induction s as [|c s IH]; intros a b Hle; cbn [String.length] in Hle.
  - by destruct a, b; try lia.
  - destruct a as [|a]; [|apply IH; lia].
    destruct b as [|b]; [done|]. cbn. rewrite (IH 0%nat b); [done | lia].
Qed.

Lemma substring_skip (pre s : string) (m : nat) :
  substring (String.length pre) m (String.append pre s) = substring 0 m s.
Proof. induction pre as [|c pre IH]; [done|]. by rewrite append_String. Qed.

Lemma substring_prefix (s t : string) :
  substring 0 (String.length s) (String.append s t) = s.
Proof.
  induction s as [|c s IH]; [by destruct t|]. rewrite append_String. cbn. by rewrite IH.
Qed.

(** What a match of the file name pattern is. *)
Lemma matchSessionId_inv (path id : string) :
  matchSessionId (Some path) = Some id →
  isSessionId id ∧ ∃ pre, path = String.append pre (String.append id ".jsonl").
Proof.
  unfold matchSessionId. destruct (42 <=? String.length path)%nat eqn:Hlen; [|done].
  apply Nat.leb_le in Hlen.
  destruct (String.eqb_spec (substring (String.length path - 6) 6 path) ".jsonl")
    as [Hext|]; [|done].
  destruct (forallb isIdChar _) eqn:Hchars; [|done]. cbn [andb]. intros [= <-].
  split; [split; [apply substring_length; lia | done]|].
  exists (substring 0 (String.length path - 42) path).
  rewrite <- Hext. replace (String.length path - 6)%nat
    with (String.length path - 42 + 36)%nat by lia.
  rewrite <- (substring_add (String.length path - 42) 36 6 path).
  pose proof (substring_add 0 (String.length path - 42) (36 + 6) path) as Hsplit.
  change (0 + (String.length path - 42))%nat with (String.length path - 42)%nat in Hsplit.
  rewrite <- Hsplit.
  replace (String.length path - 42 + (36 + 6))%nat with (String.length path) by lia.
  by rewrite substring_all.
Qed.

(** The pattern [/([a-f0-9-]{36})\.jsonl$/] matches a path exactly when
    the path ends in 36 characters among [a-f], [0-9] and [-] followed by
    [.jsonl], and the match is those 36 characters. *)
Theorem matchSessionId_matches_final_id (path id : string) :
  matchSessionId (Some path) = Some id ↔
  isSessionId id ∧ ∃ pre, path = String.append pre (String.append id ".jsonl").
Proof.
  split; [apply matchSessionId_inv|].
  intros [[Hlen Hchars] (pre & ->)]. unfold matchSessionId.
  rewrite !length_append, Hlen. cbn [String.length].
  replace (42 <=? String.length pre + (36 + 6))%nat with true
    by (symmetry; apply Nat.leb_le; lia).
  replace (String.length pre + (36 + 6) - 42)%nat with (String.length pre) by lia.
  replace (String.length pre + (36 + 6) - 6)%nat
    with (String.length (String.append pre id)) by (rewrite length_append; lia).
  rewrite <- (append_assoc pre id ".jsonl"), (substring_skip (String.append pre id)).
  rewrite append_assoc, substring_skip, <- Hlen, substring_prefix, Hchars.
  reflexivity.
Qed.

Lemma deriveId_cases (sessionId : option string) (embedded : jsval) (id : string) :
  deriveId sessionId embedded = Normal id →
  matchSessionId sessionId = Some id ∨
  (matchSessionId sessionId = None ∧
   ((embedded = Some (JStr id) ∧ id ≠ "") ∨ (Js.truthy embedded = false ∧ id = "unknown"))).
Proof.
  unfold deriveId. destruct (matchSessionId sessionId) as [matched|].
  - intros [= <-]. by left.
  - intros Hor. right. split; [done|]. unfold Js.stringOr in Hor.
    destruct embedded as [j|]; [|injection Hor as <-; by right].
    destruct (Js.truthy (Some j)) eqn:Htruthy; [|injection Hor as <-; by right].
    destruct j; try discriminate. injection Hor as <-. left. split; [done|].
    intros ->. discriminate Htruthy.
Qed.

Lemma parseSessionContent_id (lines : list line) (sessionId : option string)
    (session : Types.ParsedSession) :
  parseSessionContent lines sessionId = Normal (Some session) →
  ∃ embedded, deriveId sessionId embedded = Normal (Types.id session).
Proof.
  unfold parseSessionContent. intros Hparse.
  destruct lines as [|firstLine lines]; [discriminate|].
  destruct (detectSessionFormat firstLine); [| |discriminate].
  - unfold parseClaudeSessionContent in Hparse.
    apply bind_Normal in Hparse as (messages & _ & Hparse).
    destruct messages as [|first rest]; [discriminate|].
    apply bind_Normal in Hparse as (st & _ & Hparse).
    apply bind_Normal in Hparse as (embedded & _ & Hparse).
    apply bind_Normal in Hparse as (id & Hid & Hparse).
    apply bind_Normal in Hparse as (firstTs & _ & Hparse).
    apply bind_Normal in Hparse as (startedAt & _ & Hparse).
    apply bind_Normal in Hparse as (lastTs & _ & Hparse).
    apply bind_Normal in Hparse as (endedAt & _ & Hparse).
    apply bind_Normal in Hparse as (gitBranchV & _ & Hparse).
    apply bind_Normal in Hparse as (gitBranch & _ & Hparse).
    apply bind_Normal in Hparse as (cwdV & _ & Hparse).
    apply bind_Normal in Hparse as (cwd & _ & Hparse).
    apply bind_Normal in Hparse as (versionV & _ & Hparse).
    apply bind_Normal in Hparse as (version & _ & Hparse).
    injection Hparse as <-. by exists embedded.
  - unfold parsePiSessionContent in Hparse.
    apply bind_Normal in Hparse as (allMessages & _ & Hparse).
    destruct allMessages as [|v0 vs]; [discriminate|].
    apply bind_Normal in Hparse as (sessionMessage & _ & Hparse).
    apply bind_Normal in Hparse as (conversation & _ & Hparse).
    destruct sessionMessage as [sessionMessage|]; [|discriminate].
    destruct conversation as [|first rest]; [discriminate|].
    apply bind_Normal in Hparse as (modelChanges & _ & Hparse).
    apply bind_Normal in Hparse as (st0 & _ & Hparse).
    apply bind_Normal in Hparse as (st1 & _ & Hparse).
    apply bind_Normal in Hparse as (toolResults & _ & Hparse).
    apply bind_Normal in Hparse as (st2 & _ & Hparse).
    apply bind_Normal in Hparse as (embedded & _ & Hparse).
    apply bind_Normal in Hparse as (id & Hid & Hparse).
    apply bind_Normal in Hparse as (firstTs & _ & Hparse).
    apply bind_Normal in Hparse as (startedAt & _ & Hparse).
    apply bind_Normal in Hparse as (lastTs & _ & Hparse).
    apply bind_Normal in Hparse as (endedAt & _ & Hparse).
    apply bind_Normal in Hparse as (cwdV & _ & Hparse).
    apply bind_Normal in Hparse as (cwd & _ & Hparse).
    apply bind_Normal in Hparse as (versionV & _ & Hparse).
    apply bind_Normal in Hparse as (version & _ & Hparse).
    injection Hparse as <-. by exists embedded.
Qed.

(** The identity of a parsed session is the identifier in the file name
    whenever the path given ends in one; it is never the empty string:
    without such a file name it is the identifier embedded in the
    transcript, or ["unknown"]. *)
Theorem session_id_prefers_file_name (lines : list line) (sessionId : option string)
    (session : Types.ParsedSession) :
  parseSessionContent lines sessionId = Normal (Some session) →
  (∀ id, matchSessionId sessionId = Some id → Types.id session = id) ∧
  Types.id session ≠ "".
Proof.
  intros Hparse. apply parseSessionContent_id in Hparse as (embedded & Hid).
  apply deriveId_cases in Hid as [Hmatch | [Hnone [[_ Hne] | [_ Hunknown]]]].
  - split; [intros id; rewrite Hmatch; by intros [= <-]|].
    destruct sessionId as [path|]; [|discriminate].
    apply matchSessionId_inv in Hmatch as [[Hlen _] _]. intros Hempty.
    rewrite Hempty in Hlen. discriminate Hlen.
  - split; [intros id; by rewrite Hnone | done].
  - split; [intros id; by rewrite Hnone | by rewrite Hunknown].
Qed.

(** The message count of a parsed session is the number of conversational
    turns of the transcript, at least one. *)
Theorem messageCount_counts_turns (lines : list line) (sessionId : option string)
    (session : Types.ParsedSession) :
  parseSessionContent lines sessionId = Normal (Some session) →
  Types.messageCount session = length (conversationalTurns lines) ∧
  (1 ≤ Types.messageCount session)%nat.
Proof.
  unfold parseSessionContent. intros Hparse.
  destruct lines as [|firstLine lines]; [discriminate|].
  destruct (detectSessionFormat firstLine) eqn:Hfmt; [| |discriminate].
  - rewrite (conversationalTurns_claude _ _ Hfmt).
    apply parseClaudeSessionContent_record in Hparse
      as (first & rest & st & firstTs & lastTs & id & startedAt & endedAt & gitBranch
          & cwd & version & -> & _ & _ & _ & _ & _ & ->).
    cbn [makeSession Types.messageCount length]. split; [done | lia].
  - rewrite (conversationalTurns_pi _ _ Hfmt).
    apply parsePiSessionContent_record in Hparse
      as (first & rest & modelChanges & toolResults & st0 & st1 & st2 & firstTs & lastTs
          & id & startedAt & endedAt & cwd & version
          & -> & _ & _ & _ & _ & _ & _ & _ & ->).
    cbn [makeSession Types.messageCount length]. split; [done | lia].
Qed.

Lemma claudeTurn_userMessages (st st' : Locals) (msg : json) :
  claudeTurn st msg = Normal st' →
  userMessages st' = (userMessages st ++ option_list (claudeUserText msg))%list.
Proof.
  intros Hrun. unfold claudeTurn in Hrun. unfold claudeUserText.
  apply bind_Normal in Hrun as (isUser & -> & Hrun). destruct isUser.
  - apply bind_Normal in Hrun as (userMsg & -> & Hrun).
    apply bind_Normal in Hrun as (content & -> & Hrun).
    destruct content as [[| | | text | |]|];
      try (injection Hrun as <-; by rewrite app_nil_r).
    destruct (negb _); injection Hrun as <-; [done | by rewrite app_nil_r].
  - rewrite app_nil_r.
    apply bind_Normal in Hrun as (isAssistant & _ & Hrun).
    destruct isAssistant; [|by injection Hrun as <-].
    apply bind_Normal in Hrun as (assistantMsg & _ & Hrun).
    apply bind_Normal in Hrun as (modelV & _ & Hrun).
    apply bind_Normal in Hrun as (model & _ & Hrun).
    apply bind_Normal in Hrun as (usage & _ & Hrun).
    apply bind_Normal in Hrun as (st2 & Hst2 & Hrun).
    apply bind_Normal in Hrun as (content & _ & Hrun).
    apply usage_userMessages in Hst2. rewrite <- Hst2.
    eapply (forBlocks_invariant (fun s => userMessages s = userMessages st2));
      [|exact Hrun|done].
    intros s s' block Hstep <-. by eapply extractFromBlock_userMessages.
Qed.

Lemma forOf_claudeTurn_userMessages (msgs : list json) (st st' : Locals) :
  forOf claudeTurn msgs st = Normal st' →
  userMessages st' = (userMessages st ++ omap claudeUserText msgs)%list.
Proof.
  revert st. induction msgs as [|msg msgs IH]; intros st Hrun; cbn [forOf] in Hrun.
  - injection Hrun as <-. by rewrite app_nil_r.
  - apply bind_Normal in Hrun as (st1 & Hstep & Hrun).
    rewrite (IH _ Hrun), (claudeTurn_userMessages _ _ _ Hstep), <- app_assoc.
    f_equal. cbn [omap list_omap]. by destruct (claudeUserText msg).
Qed.

(** The user messages of a session of the Claude dialect are, in the
    order of the transcript, the contents of the user turns that are
    strings and not blank: one at most for each turn. *)
Theorem claude_user_messages_in_transcript_order (lines : list line)
    (sessionId : option string) (session : Types.ParsedSession) :
  parseClaudeSessionContent lines sessionId = Normal (Some session) →
  Types.userMessages session =
    omap claudeUserText (List.filter isClaudeTurn (parsedValues lines)) ∧
  (length (Types.userMessages session) ≤ Types.messageCount session)%nat.
Proof.
  intros Hparse.
  apply parseClaudeSessionContent_record in Hparse
    as (first & rest & st & firstTs & lastTs & id & startedAt & endedAt & gitBranch
        & cwd & version & -> & Hst & _ & _ & _ & _ & ->).
  cbn [makeSession Types.userMessages Types.messageCount].
  apply forOf_claudeTurn_userMessages in Hst. cbn [initialLocals userMessages app] in Hst.
  rewrite Hst. split; [done|].
  generalize (first :: rest). intros msgs.
  induction msgs as [|msg msgs IH]; [done|]. cbn [omap list_omap length].
  destruct (claudeUserText msg); cbn [length]; lia.
Qed.
End IdentityFacts.

(** ** The tools a session records *)

Section ToolFacts.
Context `{Host}.
Import Props Parser.

Lemma truthyString_Some (v : jsval) (r : option string) (s : string) :
  truthyString v = Normal r → r = Some s ↔ v = Some (JStr s) ∧ s ≠ "".
Proof.
  unfold truthyString. destruct v as [j|]; [|intros [= <-]; split; [done | by intros [? _]]].
  destruct (Js.truthy (Some j)) eqn:Htruthy.
  - destruct j; try discriminate. cbn [Js.asString bind]. intros [= <-].
    cbn [Js.truthy] in Htruthy. split.
    + intros [= ->]. split; [done|]. intros ->. discriminate Htruthy.
    + by intros [[= ->] _].
  - intros [= <-]. split; [done|]. intros [[= ->] Hne].
    cbn [Js.truthy] in Htruthy. destruct (String.eqb_spec s ""); done.
Qed.

Lemma extractFromBlock_toolsUsed (tag args : string) (st st' : Locals) (block : json) :
  extractFromBlock tag args st block = Normal st' →
  ∀ name, name ∈ toolsUsed st' ↔ name ∈ toolsUsed st ∨ namesTool tag block name.
Proof.
  unfold extractFromBlock, namesTool. intros Hrun name.
  apply bind_Normal in Hrun as (isTool & -> & Hrun).
  destruct isTool; [|injection Hrun as <-; split; [by left | by intros [|[? _]]]].
  apply bind_Normal in Hrun as (nameV & -> & Hrun).
  apply bind_Normal in Hrun as (found & Hfound & Hrun).
  pose proof (truthyString_Some nameV found name Hfound) as Hname.
  destruct found as [tool|].
  - assert (toolsUsed st' = Js.setAdd tool (toolsUsed st)) as ->.
    { apply bind_Normal in Hrun as (input & _ & Hrun).
      destruct input as [input|]; [|by injection Hrun as <-].
      destruct (Js.truthy (Some input)); by injection Hrun as <-. }
    rewrite elem_of_setAdd. split.
    + intros [->|]; [|by left]. right. split; [done|].
      destruct Hname as [[-> Hne] _]; done.
    + intros [|(_ & [= Heq] & Hne)]; [by right|]. left.
      destruct Hname as [_ Hname]. by injection (Hname (conj Heq Hne)) as ->.
  - injection Hrun as <-. split; [by left|].
    intros [|(_ & [= Heq] & Hne)]; [done|].
    destruct Hname as [_ Hname]. discriminate (Hname (conj Heq Hne)).
Qed.

Lemma forOf_collects {A S B} (step : S → A → completion S) (proj : S → list B)
    (adds : A → B → Prop) (xs : list A) (st st' : S) :
  (∀ x s s', step s x = Normal s' → ∀ b, b ∈ proj s' ↔ b ∈ proj s ∨ adds x b) →
  forOf step xs st = Normal st' →
  ∀ b, b ∈ proj st' ↔ b ∈ proj st ∨ ∃ x, x ∈ xs ∧ adds x b.
Proof.
  intros Hstep. revert st. induction xs as [|x xs IH]; intros st Hrun b; cbn [forOf] in Hrun.
  - injection Hrun as <-. split; [by left|]. intros [|(x & Hin & _)]; [done|].
    by apply elem_of_nil in Hin.
  - apply bind_Normal in Hrun as (s1 & Hx & Hrest).
    rewrite (IH _ Hrest b), (Hstep _ _ _ Hx b). split.
    + intros [[|Hadd]|(y & Hy & Hadd)]; [by left | |].
      * right. exists x. split; [left | done].
      * right. exists y. split; [by right | done].
    + intros [|(y & Hy & Hadd)]; [by left; left|].
      apply elem_of_cons in Hy as [->|Hy]; [by left; right|].
      right. by exists y.
Qed.

Lemma forBlocks_toolsUsed (tag args : string) (content : jsval) (st st' : Locals) :
  forBlocks (extractFromBlock tag args) content st = Normal st' →
  ∀ name, name ∈ toolsUsed st' ↔
    name ∈ toolsUsed st ∨
    ∃ blocks block, content = Some (JArr blocks) ∧ block ∈ blocks ∧ namesTool tag block name.
Proof.
  intros Hrun name. unfold forBlocks in Hrun.
  destruct content as [[| | | | blocks |]|];
    try (injection Hrun as <-; split; [by left | by intros [|(? & ? & ? & _)]]).
  rewrite (forOf_collects _ toolsUsed (namesTool tag) blocks st st'
             (fun block s s' => extractFromBlock_toolsUsed tag args s s' block) Hrun name).
  split.
  - intros [|(block & Hin & Hname)]; [by left|]. right. by exists blocks, block.
  - intros [|(blocks' & block & [= <-] & Hin & Hname)]; [by left|]. right. by exists block.
Qed.

Lemma trackModel_toolsUsed (model : option string) (st : Locals) :
  toolsUsed (trackModel model st) = toolsUsed st.
Proof. unfold trackModel. destruct model; [|done]. by destruct (hasEntry _ _). Qed.

Lemma addModelTokens_toolsUsed (model : option string) (u : Types.TokenCounts) (st : Locals) :
  toolsUsed (addModelTokens model u st) = toolsUsed st.
Proof. unfold addModelTokens. destruct model; [|done]. by destruct (hasEntry _ _). Qed.

Lemma usage_toolsUsed (usage : jsval) (model : option string)
    (fIn fOut fCreate fRead : string) (st st' : Locals) :
  (if Js.truthy usage
   then let* u := readUsage fIn fOut fCreate fRead usage in
        Normal (addModelTokens model u (addSessionTokens u (trackModel model st)))
   else Normal (trackModel model st)) = Normal st' →
  toolsUsed st' = toolsUsed st.
Proof.
  intros Hrun. destruct (Js.truthy usage).
  - apply bind_Normal in Hrun as (u & _ & Hrun). injection Hrun as <-.
    rewrite addModelTokens_toolsUsed. cbn [addSessionTokens toolsUsed].
    apply trackModel_toolsUsed.
  - injection Hrun as <-. apply trackModel_toolsUsed.
Qed.

Lemma typeIs_exclusive (v : json) (a b : string) :
  typeIs v a = Normal true → typeIs v b = Normal true → a = b.
Proof.
  unfold typeIs. destruct (Js.get (Some v) "type") as [ty|]; [|discriminate].
  cbn [bind]. intros [= Ha] [= Hb]. destruct ty as [[| | | s | |]|]; try discriminate.
  cbn [Js.isStr] in Ha, Hb. apply String.eqb_eq in Ha, Hb. congruence.
Qed.

Lemma claudeTurn_toolsUsed (st st' : Locals) (msg : json) :
  claudeTurn st msg = Normal st' →
  ∀ name, name ∈ toolsUsed st' ↔
    name ∈ toolsUsed st ∨ ∃ block, claudeBlock msg block ∧ namesTool "tool_use" block name.
Proof.
  intros Hrun name. unfold claudeTurn in Hrun. unfold claudeBlock.
  apply bind_Normal in Hrun as (isUser & HisUser & Hrun). destruct isUser.
  - assert (toolsUsed st' = toolsUsed st) as ->.
    { apply bind_Normal in Hrun as (userMsg & _ & Hrun).
      apply bind_Normal in Hrun as (content & _ & Hrun).
      destruct content as [[| | | text | |]|]; try by injection Hrun as <-.
      destruct (negb _); by injection Hrun as <-. }
    split; [by left|]. intros [|(block & [Hassistant _] & _)]; [done|].
    discriminate (typeIs_exclusive _ _ _ HisUser Hassistant).
  - apply bind_Normal in Hrun as (isAssistant & -> & Hrun).
    destruct isAssistant;
      [|injection Hrun as <-; split; [by left | by intros [|(? & [? _] & _)]]].
    apply bind_Normal in Hrun as (assistantMsg & -> & Hrun).
    apply bind_Normal in Hrun as (modelV & _ & Hrun).
    apply bind_Normal in Hrun as (model & _ & Hrun).
    apply bind_Normal in Hrun as (usage & _ & Hrun).
    apply bind_Normal in Hrun as (st2 & Hst2 & Hrun).
    apply bind_Normal in Hrun as (content & Hcontent & Hrun).
    apply usage_toolsUsed in Hst2.
    rewrite (forBlocks_toolsUsed _ _ _ _ _ Hrun name), Hst2. split.
    + intros [|(blocks & block & -> & Hin & Hname)]; [by left|]. right.
      exists block. split; [|done]. split; [done|]. by exists assistantMsg, blocks.
    + intros [|(block & (_ & message & blocks & [= <-] & Hblocks & Hin) & Hname)];
        [by left|]. right. exists blocks, block. split; [congruence | done].
Qed.

(** The tools a session of the Claude dialect records are exactly the
    names, where they are strings and not empty, of the [tool_use]
    blocks in the content arrays of the assistant turns of the
    transcript. *)
Theorem claude_tools_are_tool_use_names (lines : list line)
    (sessionId : option string) (session : Types.ParsedSession) :
  parseClaudeSessionContent lines sessionId = Normal (Some session) →
  ∀ name, name ∈ Types.toolsUsed session ↔
    ∃ msg block, msg ∈ parsedValues lines ∧ claudeBlock msg block ∧
                 namesTool "tool_use" block name.
Proof.
  intros Hparse name.
  apply parseClaudeSessionContent_record in Hparse
    as (first & rest & st & firstTs & lastTs & id & startedAt & endedAt & gitBranch
        & cwd & version & Hturns & Hst & _ & _ & _ & _ & ->).
  cbn [makeSession Types.toolsUsed]. rewrite <- Hturns in Hst.
  rewrite (forOf_collects _ toolsUsed
             (fun msg name => ∃ block, claudeBlock msg block ∧ namesTool "tool_use" block name)
             _ _ _ (fun msg s s' => claudeTurn_toolsUsed s s' msg) Hst name).
  cbn [initialLocals toolsUsed]. split.
  - intros [Hin|(msg & Hmsg & block & Hblock & Hname)]; [by apply elem_of_nil in Hin|].
    apply list_elem_of_In, filter_In in Hmsg as [Hmsg _]. apply list_elem_of_In in Hmsg.
    by exists msg, block.
  - intros (msg & block & Hmsg & Hblock & Hname). right. exists msg.
    split; [|by exists block]. apply list_elem_of_In, filter_In.
    split; [by apply list_elem_of_In|].
    destruct Hblock as [Hassistant _]. unfold isClaudeTurn, orC.
    rewrite Hassistant. unfold typeIs in *.
    destruct (Js.get (Some msg) "type") as [ty|]; [|discriminate].
    cbn [bind]. by destruct (Js.isStr ty "user").
Qed.

Lemma isStr_exclusive (v : jsval) (a b : string) :
  Js.isStr v a = true → Js.isStr v b = true → a = b.
Proof.
  destruct v as [[| | | s | |]|]; try discriminate. cbn [Js.isStr].
  intros Ha Hb. apply String.eqb_eq in Ha, Hb. congruence.
Qed.

Lemma piUserBlock_toolsUsed (st st' : Locals) (block : json) :
  piUserBlock st block = Normal st' → toolsUsed st' = toolsUsed st.
Proof.
  unfold piUserBlock. intros Hrun.
  apply bind_Normal in Hrun as (isText & _ & Hrun).
  destruct isText; [|by injection Hrun as <-].
  apply bind_Normal in Hrun as (textV & _ & Hrun).
  apply bind_Normal in Hrun as (text & _ & Hrun).
  destruct text; by injection Hrun as <-.
Qed.

Lemma piTurn_toolsUsed (st st' : Locals) (msg : json) :
  piTurn st msg = Normal st' →
  ∀ name, name ∈ toolsUsed st' ↔
    name ∈ toolsUsed st ∨ ∃ block, piBlock msg block ∧ namesTool "toolCall" block name.
Proof.
  intros Hrun name. unfold piTurn in Hrun.
  apply bind_Normal in Hrun as (message & Hmessage & Hrun).
  apply bind_Normal in Hrun as (role & Hrole & Hrun).
  assert (∀ block, piBlock msg block ↔
            Js.isStr role "assistant" = true ∧
            ∃ blocks, Js.get message "content" = Normal (Some (JArr blocks)) ∧
                      block ∈ blocks) as Hblock.
  { intros block. unfold piBlock. split.
    - intros (message' & role' & blocks & Hm & Hr & Hassistant & Hcontent & Hin).
      rewrite Hmessage in Hm. injection Hm as <-.
      rewrite Hrole in Hr. injection Hr as <-. split; [done | by exists blocks].
    - intros (Hassistant & blocks & Hcontent & Hin). by exists message, role, blocks. }
  setoid_rewrite Hblock. clear Hblock.
  destruct (Js.isStr role "user") eqn:Huser.
  - apply bind_Normal in Hrun as (content & _ & Hrun).
    assert (toolsUsed st' = toolsUsed st) as ->.
    { eapply (forBlocks_invariant (fun s => toolsUsed s = toolsUsed st)); [|exact Hrun|done].
      intros s s' block Hstep <-. by eapply piUserBlock_toolsUsed. }
    split; [by left|]. intros [|(block & (Hassistant & _) & _)]; [done|].
    discriminate (isStr_exclusive _ _ _ Huser Hassistant).
  - destruct (Js.isStr role "assistant") eqn:Hassistant.
    + apply bind_Normal in Hrun as (topModel & _ & Hrun).
      apply bind_Normal in Hrun as (modelV & _ & Hrun).
      apply bind_Normal in Hrun as (topUsage & _ & Hrun).
      apply bind_Normal in Hrun as (usage & _ & Hrun).
      apply bind_Normal in Hrun as (model & _ & Hrun).
      apply bind_Normal in Hrun as (st2 & Hst2 & Hrun).
      apply bind_Normal in Hrun as (content & Hcontent & Hrun).
      apply usage_toolsUsed in Hst2.
      rewrite (forBlocks_toolsUsed _ _ _ _ _ Hrun name), Hst2. split.
      * intros [|(blocks & block & -> & Hin & Hname)]; [by left|]. right.
        exists block. split; [|done]. split; [done | by exists blocks].
      * intros [|(block & (_ & blocks & Hblocks & Hin) & Hname)]; [by left|].
        right. exists blocks, block. split; [congruence | done].
    + injection Hrun as <-. split; [by left|].
      intros [|(block & (Hrole' & _) & _)]; [done | discriminate Hrole'].
Qed.

Lemma modelChange_toolsUsed (st st' : Locals) (change : json) :
  modelChange st change = Normal st' → toolsUsed st' = toolsUsed st.
Proof.
  unfold modelChange. intros Hrun.
  apply bind_Normal in Hrun as (modelIdV & _ & Hrun).
  apply bind_Normal in Hrun as (modelId & _ & Hrun).
  destruct modelId; by injection Hrun as <-.
Qed.

Lemma toolResult_toolsUsed (st st' : Locals) (result : json) :
  toolResult st result = Normal st' →
  ∀ name, name ∈ toolsUsed st' ↔
    name ∈ toolsUsed st ∨
    (Js.get (Some result) "toolName" = Normal (Some (JStr name)) ∧ name ≠ "").
Proof.
  unfold toolResult. intros Hrun name.
  apply bind_Normal in Hrun as (toolNameV & -> & Hrun).
  apply bind_Normal in Hrun as (found & Hfound & Hrun).
  pose proof (truthyString_Some toolNameV found name Hfound) as Hname.
  destruct found as [tool|]; injection Hrun as <-.
  - cbn [addTool toolsUsed]. rewrite elem_of_setAdd. split.
    + intros [->|]; [|by left]. right. destruct Hname as [[-> Hne] _]; done.
    + intros [|([= Heq] & Hne)]; [by right|]. left.
      destruct Hname as [_ Hname]. by injection (Hname (conj Heq Hne)) as ->.
  - split; [by left|]. intros [|([= Heq] & Hne)]; [done|].
    destruct Hname as [_ Hname]. discriminate (Hname (conj Heq Hne)).
Qed.

Lemma parsePiSessionContent_tools (lines : list line) (sessionId : option string)
    (session : Types.ParsedSession) :
  parsePiSessionContent lines sessionId = Normal (Some session) →
  ∃ modelChanges toolResults st0 st1 st2,
    forOf modelChange modelChanges initialLocals = Normal st0 ∧
    forOf piTurn (List.filter isPiTurn (parsedValues lines)) st0 = Normal st1 ∧
    filterC isToolResult (parsedValues lines) = Normal toolResults ∧
    forOf toolResult toolResults st1 = Normal st2 ∧
    Types.toolsUsed session = toolsUsed st2 ∧
    Types.filesFromToolCalls session = filesFromToolCalls st2.
Proof.
  unfold parsePiSessionContent. rewrite forOf_collectPiMessage. cbn [bind app].
  intros Hparse.
  destruct (parsedValues lines) as [|v0 vs]; [discriminate|].
  apply bind_Normal in Hparse as (sessionMessage & _ & Hparse).
  apply bind_Normal in Hparse as (conversation & Hconv & Hparse).
  apply filterC_Normal in Hconv.
  change (List.filter _ (v0 :: vs)) with (List.filter isPiTurn (v0 :: vs)) in Hconv.
  rewrite <- Hconv.
  destruct sessionMessage as [sessionMessage|]; [|discriminate].
  destruct conversation as [|first rest]; [discriminate|].
  apply bind_Normal in Hparse as (modelChanges & _ & Hparse).
  apply bind_Normal in Hparse as (st0 & Hst0 & Hparse).
  apply bind_Normal in Hparse as (st1 & Hst1 & Hparse).
  apply bind_Normal in Hparse as (toolResults & Hresults & Hparse).
  apply bind_Normal in Hparse as (st2 & Hst2 & Hparse).
  apply bind_Normal in Hparse as (embedded & _ & Hparse).
  apply bind_Normal in Hparse as (id & _ & Hparse).
  apply bind_Normal in Hparse as (firstTs & _ & Hparse).
  apply bind_Normal in Hparse as (startedAt & _ & Hparse).
  apply bind_Normal in Hparse as (lastTs & _ & Hparse).
  apply bind_Normal in Hparse as (endedAt & _ & Hparse).
  apply bind_Normal in Hparse as (cwdV & _ & Hparse).
  apply bind_Normal in Hparse as (cwd & _ & Hparse).
  apply bind_Normal in Hparse as (versionV & _ & Hparse).
  apply bind_Normal in Hparse as (version & _ & Hparse).
  injection Hparse as <-. by exists modelChanges, toolResults, st0, st1, st2.
Qed.

(** The tools a session of the Pi dialect records are exactly the names
    of the [toolCall] blocks in the content arrays of its assistant
    turns, together with the tool names of its tool result lines,
    wherever these are strings and not empty. *)
Theorem pi_tools_are_calls_and_results (lines : list line)
    (sessionId : option string) (session : Types.ParsedSession) :
  parsePiSessionContent lines sessionId = Normal (Some session) →
  ∀ name, name ∈ Types.toolsUsed session ↔
    (∃ msg block, msg ∈ parsedValues lines ∧ isPiTurn msg = true ∧
                  piBlock msg block ∧ namesTool "toolCall" block name) ∨
    (∃ result, result ∈ parsedValues lines ∧ namesToolResult result name).
Proof.
  intros Hparse name.
  apply parsePiSessionContent_tools in Hparse
    as (modelChanges & toolResults & st0 & st1 & st2 & Hst0 & Hst1 & Hresults & Hst2
        & -> & _).
  assert (toolsUsed st0 = []) as Hnone.
  { apply (forOf_invariant modelChange (fun s => toolsUsed s = []) modelChanges
             initialLocals st0); [|done|done].
    intros change s s' _ Hs Hstep. by rewrite (modelChange_toolsUsed _ _ _ Hstep). }
  rewrite (forOf_collects _ toolsUsed
             (fun result name =>
                Js.get (Some result) "toolName" = Normal (Some (JStr name)) ∧ name ≠ "")
             _ _ _ (fun result s s' => toolResult_toolsUsed s s' result) Hst2 name).
  rewrite (forOf_collects _ toolsUsed
             (fun msg name => ∃ block, piBlock msg block ∧ namesTool "toolCall" block name)
             _ _ _ (fun msg s s' => piTurn_toolsUsed s s' msg) Hst1 name).
  rewrite Hnone. apply filterC_Normal in Hresults. subst toolResults.
  unfold namesToolResult. split.
  - intros [[Hin|(msg & Hmsg & block & Hblock & Hname)]|(result & Hin & Hname)].
    + by apply elem_of_nil in Hin.
    + left. apply list_elem_of_In, filter_In in Hmsg as [Hmsg Hturn].
      apply list_elem_of_In in Hmsg. by exists msg, block.
    + right. apply list_elem_of_In, filter_In in Hin as [Hin Hresult].
      apply list_elem_of_In in Hin. exists result. split; [done|]. split; [|done].
      by destruct (isToolResult result) as [[]|].
  - intros [(msg & block & Hmsg & Hturn & Hblock & Hname)
           |(result & Hin & Hresult & Hname)].
    + left. right. exists msg. split; [|by exists block].
      apply list_elem_of_In, filter_In. split; [by apply list_elem_of_In | done].
    + right. exists result. split; [|done].
      apply list_elem_of_In, filter_In. split; [by apply list_elem_of_In|].
      by rewrite Hresult.
Qed.

(** *** The files a session records *)

Lemma extractFilePaths_adds (input : json) (files : list string) (s : string) :
  s ∈ extractFilePaths input files ↔ s ∈ files ∨ PathIn input s.
Proof.
  revert files s. induction input as [| b | n | text | xs IH | kvs IH]
    using json_nested_ind; intros files s;
    rewrite extractFilePaths_entries, PathIn_entries;
    apply elem_of_fold_visitEntry; cbn [Js.entries]; try by constructor.
  - generalize 0%nat. induction text as [|c text IHt]; intros i; constructor; auto.
    intros files' s'. cbn [snd]. rewrite extractFilePaths_entries, PathIn_entries.
    cbn [Js.entries Js.charEntries fold_left]. unfold visitEntry, pathInEntries.
    cbn [fst snd Js.charEntries]. rewrite elem_of_addIfPath.
    setoid_rewrite list_elem_of_singleton.
    assert (Js.indexKey 0 ∉ pathKeys) as Hno.
    { intros Hk. apply list_elem_of_In in Hk. vm_compute in Hk. intuition discriminate. }
    split.
    + intros [|(_ & Hk & _)]; [by left | done].
    + intros [|[(k & Heq & Hk & _)|(k & kvs & Heq & _)]];
        [by left | injection Heq as -> _; done | discriminate Heq].
  - apply Forall_forall. intros [k x] Hin.
    apply elem_of_lookup_imap in Hin as (i & y & Heq & Hy).
    injection Heq as -> ->.
    rewrite Forall_forall in IH. apply IH.
    by eapply list_elem_of_lookup_2.
  - done.
Qed.

Lemma extractFromBlock_files (tag args : string) (st st' : Locals) (block : json) :
  extractFromBlock tag args st block = Normal st' →
  ∀ path, path ∈ filesFromToolCalls st' ↔
    path ∈ filesFromToolCalls st ∨ holdsPath tag args block path.
Proof.
  unfold extractFromBlock, holdsPath, namesTool. intros Hrun path.
  apply bind_Normal in Hrun as (isTool & -> & Hrun).
  destruct isTool;
    [|injection Hrun as <-; split; [by left | by intros [|[(? & ? & _) _]]]].
  apply bind_Normal in Hrun as (nameV & -> & Hrun).
  apply bind_Normal in Hrun as (found & Hfound & Hrun).
  destruct found as [tool|].
  - apply bind_Normal in Hrun as (input & -> & Hrun).
    destruct (truthyString_Some nameV _ tool Hfound) as [Hname _].
    destruct (Hname eq_refl) as [-> Hne].
    destruct input as [input|];
      [|injection Hrun as <-; split; [by left | by intros [|[_ (? & ? & _)]]]].
    destruct (Js.truthy (Some input)) eqn:Htruthy; injection Hrun as <-.
    + cbn [withFiles addTool filesFromToolCalls]. rewrite extractFilePaths_adds. split.
      * intros [|Hpath]; [by left|]. right. split; [by exists tool | by exists input].
      * intros [|[_ (input' & [= <-] & _ & Hpath)]]; [by left | by right].
    + split; [by left|]. intros [|[_ (input' & [= <-] & Htrue & _)]]; [done|].
      rewrite Htruthy in Htrue. discriminate Htrue.
  - injection Hrun as <-. split; [by left|].
    intros [|[(name & _ & [= Heq] & Hne) _]]; [done|].
    destruct (truthyString_Some nameV _ name Hfound) as [_ Hname].
    discriminate (Hname (conj Heq Hne)).
Qed.

Lemma forBlocks_files (tag args : string) (content : jsval) (st st' : Locals) :
  forBlocks (extractFromBlock tag args) content st = Normal st' →
  ∀ path, path ∈ filesFromToolCalls st' ↔
    path ∈ filesFromToolCalls st ∨
    ∃ blocks block, content = Some (JArr blocks) ∧ block ∈ blocks ∧
                    holdsPath tag args block path.
Proof.
  intros Hrun path. unfold forBlocks in Hrun.
  destruct content as [[| | | | blocks |]|];
    try (injection Hrun as <-; split; [by left | by intros [|(? & ? & ? & _)]]).
  rewrite (forOf_collects _ filesFromToolCalls (holdsPath tag args) blocks st st'
             (fun block s s' => extractFromBlock_files tag args s s' block) Hrun path).
  split.
  - intros [|(block & Hin & Hpath)]; [by left|]. right. by exists blocks, block.
  - intros [|(blocks' & block & [= <-] & Hin & Hpath)]; [by left|]. right. by exists block.
Qed.

Lemma usage_files (usage : jsval) (model : option string)
    (fIn fOut fCreate fRead : string) (st st' : Locals) :
  (if Js.truthy usage
   then let* u := readUsage fIn fOut fCreate fRead usage in
        Normal (addModelTokens model u (addSessionTokens u (trackModel model st)))
   else Normal (trackModel model st)) = Normal st' →
  filesFromToolCalls st' = filesFromToolCalls st.
Proof.
  assert (∀ s, filesFromToolCalls (trackModel model s) = filesFromToolCalls s) as Htrack.
  { intros s. unfold trackModel. destruct model; [|done]. by destruct (hasEntry _ _). }
  intros Hrun. destruct (Js.truthy usage).
  - apply bind_Normal in Hrun as (u & _ & Hrun). injection Hrun as <-.
    rewrite <- (Htrack st). unfold addModelTokens.
    destruct model as [name|]; [|done]. by destruct (hasEntry _ _).
  - injection Hrun as <-. apply Htrack.
Qed.

Lemma claudeTurn_files (st st' : Locals) (msg : json) :
  claudeTurn st msg = Normal st' →
  ∀ path, path ∈ filesFromToolCalls st' ↔
    path ∈ filesFromToolCalls st ∨
    ∃ block, claudeBlock msg block ∧ holdsPath "tool_use" "input" block path.
Proof.
  intros Hrun path. unfold claudeTurn in Hrun. unfold claudeBlock.
  apply bind_Normal in Hrun as (isUser & HisUser & Hrun). destruct isUser.
  - assert (filesFromToolCalls st' = filesFromToolCalls st) as ->.
    { apply bind_Normal in Hrun as (userMsg & _ & Hrun).
      apply bind_Normal in Hrun as (content & _ & Hrun).
      destruct content as [[| | | text | |]|]; try by injection Hrun as <-.
      destruct (negb _); by injection Hrun as <-. }
    split; [by left|]. intros [|(block & [Hassistant _] & _)]; [done|].
    discriminate (typeIs_exclusive _ _ _ HisUser Hassistant).
  - apply bind_Normal in Hrun as (isAssistant & -> & Hrun).
    destruct isAssistant;
      [|injection Hrun as <-; split; [by left | by intros [|(? & [? _] & _)]]].
    apply bind_Normal in Hrun as (assistantMsg & -> & Hrun).
    apply bind_Normal in Hrun as (modelV & _ & Hrun).
    apply bind_Normal in Hrun as (model & _ & Hrun).
    apply bind_Normal in Hrun as (usage & _ & Hrun).
    apply bind_Normal in Hrun as (st2 & Hst2 & Hrun).
    apply bind_Normal in Hrun as (content & Hcontent & Hrun).
    apply usage_files in Hst2.
    rewrite (forBlocks_files _ _ _ _ _ Hrun path), Hst2. split.
    + intros [|(blocks & block & -> & Hin & Hpath)]; [by left|]. right.
      exists block. split; [|done]. split; [done|]. by exists assistantMsg, blocks.
    + intros [|(block & (_ & message & blocks & [= <-] & Hblocks & Hin) & Hpath)];
        [by left|]. right. exists blocks, block. split; [congruence | done].
Qed.

(** The files a session of the Claude dialect records are exactly the
    paths held by the arguments, read under [input], of the named
    [tool_use] blocks of the assistant turns of the transcript: the
    string values with a path separator under an allow-listed key of the
    arguments or of a plain object nested in them. *)
Theorem claude_files_are_paths_of_tool_inputs (lines : list line)
    (sessionId : option string) (session : Types.ParsedSession) :
  parseClaudeSessionContent lines sessionId = Normal (Some session) →
  ∀ path, path ∈ Types.filesFromToolCalls session ↔
    ∃ msg block, msg ∈ parsedValues lines ∧ claudeBlock msg block ∧
                 holdsPath "tool_use" "input" block path.
Proof.
  intros Hparse path.
  apply parseClaudeSessionContent_record in Hparse
    as (first & rest & st & firstTs & lastTs & id & startedAt & endedAt & gitBranch
        & cwd & version & Hturns & Hst & _ & _ & _ & _ & ->).
  cbn [makeSession Types.filesFromToolCalls]. rewrite <- Hturns in Hst.
  rewrite (forOf_collects _ filesFromToolCalls
             (fun msg path =>
                ∃ block, claudeBlock msg block ∧ holdsPath "tool_use" "input" block path)
             _ _ _ (fun msg s s' => claudeTurn_files s s' msg) Hst path).
  cbn [initialLocals filesFromToolCalls]. split.
  - intros [Hin|(msg & Hmsg & block & Hblock & Hpath)]; [by apply elem_of_nil in Hin|].
    apply list_elem_of_In, filter_In in Hmsg as [Hmsg _]. apply list_elem_of_In in Hmsg.
    by exists msg, block.
  - intros (msg & block & Hmsg & Hblock & Hpath). right. exists msg.
    split; [|by exists block]. apply list_elem_of_In, filter_In.
    split; [by apply list_elem_of_In|].
    destruct Hblock as [Hassistant _]. unfold isClaudeTurn, orC.
    rewrite Hassistant. unfold typeIs in *.
    destruct (Js.get (Some msg) "type") as [ty|]; [|discriminate].
    cbn [bind]. by destruct (Js.isStr ty "user").
Qed.

Lemma piUserBlock_files (st st' : Locals) (block : json) :
  piUserBlock st block = Normal st' → filesFromToolCalls st' = filesFromToolCalls st.
Proof.
  unfold piUserBlock. intros Hrun.
  apply bind_Normal in Hrun as (isText & _ & Hrun).
  destruct isText; [|by injection Hrun as <-].
  apply bind_Normal in Hrun as (textV & _ & Hrun).
  apply bind_Normal in Hrun as (text & _ & Hrun).
  destruct text; by injection Hrun as <-.
Qed.

Lemma piTurn_files (st st' : Locals) (msg : json) :
  piTurn st msg = Normal st' →
  ∀ path, path ∈ filesFromToolCalls st' ↔
    path ∈ filesFromToolCalls st ∨
    ∃ block, piBlock msg block ∧ holdsPath "toolCall" "arguments" block path.
Proof.
  intros Hrun path. unfold piTurn in Hrun.
  apply bind_Normal in Hrun as (message & Hmessage & Hrun).
  apply bind_Normal in Hrun as (role & Hrole & Hrun).
  assert (∀ block, piBlock msg block ↔
            Js.isStr role "assistant" = true ∧
            ∃ blocks, Js.get message "content" = Normal (Some (JArr blocks)) ∧
                      block ∈ blocks) as Hblock.
  { intros block. unfold piBlock. split.
    - intros (message' & role' & blocks & Hm & Hr & Hassistant & Hcontent & Hin).
      rewrite Hmessage in Hm. injection Hm as <-.
      rewrite Hrole in Hr. injection Hr as <-. split; [done | by exists blocks].
    - intros (Hassistant & blocks & Hcontent & Hin). by exists message, role, blocks. }
  setoid_rewrite Hblock. clear Hblock.
  destruct (Js.isStr role "user") eqn:Huser.
  - apply bind_Normal in Hrun as (content & _ & Hrun).
    assert (filesFromToolCalls st' = filesFromToolCalls st) as ->.
    { eapply (forBlocks_invariant (fun s => filesFromToolCalls s = filesFromToolCalls st));
        [|exact Hrun|done].
      intros s s' block Hstep <-. by eapply piUserBlock_files. }
    split; [by left|]. intros [|(block & (Hassistant & _) & _)]; [done|].
    discriminate (isStr_exclusive _ _ _ Huser Hassistant).
  - destruct (Js.isStr role "assistant") eqn:Hassistant.
    + apply bind_Normal in Hrun as (topModel & _ & Hrun).
      apply bind_Normal in Hrun as (modelV & _ & Hrun).
      apply bind_Normal in Hrun as (topUsage & _ & Hrun).
      apply bind_Normal in Hrun as (usage & _ & Hrun).
      apply bind_Normal in Hrun as (model & _ & Hrun).
      apply bind_Normal in Hrun as (st2 & Hst2 & Hrun).
      apply bind_Normal in Hrun as (content & Hcontent & Hrun).
      apply usage_files in Hst2.
      rewrite (forBlocks_files _ _ _ _ _ Hrun path), Hst2. split.
      * intros [|(blocks & block & -> & Hin & Hpath)]; [by left|]. right.
        exists block. split; [|done]. split; [done | by exists blocks].
      * intros [|(block & (_ & blocks & Hblocks & Hin) & Hpath)]; [by left|].
        right. exists blocks, block. split; [congruence | done].
    + injection Hrun as <-. split; [by left|].
      intros [|(block & (Hrole' & _) & _)]; [done | discriminate Hrole'].
Qed.

(** The files a session of the Pi dialect records are exactly the paths
    held by the arguments, read under [arguments], of the named
    [toolCall] blocks of its assistant turns; a tool result line adds a
    tool name and never a file. *)
Theorem pi_files_are_paths_of_tool_arguments (lines : list line)
    (sessionId : option string) (session : Types.ParsedSession) :
  parsePiSessionContent lines sessionId = Normal (Some session) →
  ∀ path, path ∈ Types.filesFromToolCalls session ↔
    ∃ msg block, msg ∈ parsedValues lines ∧ isPiTurn msg = true ∧
                 piBlock msg block ∧ holdsPath "toolCall" "arguments" block path.
Proof.
  intros Hparse path.
  apply parsePiSessionContent_tools in Hparse
    as (modelChanges & toolResults & st0 & st1 & st2 & Hst0 & Hst1 & _ & Hst2 & _ & ->).
  assert (filesFromToolCalls st0 = []) as Hnone.
  { apply (forOf_invariant modelChange (fun s => filesFromToolCalls s = []) modelChanges
             initialLocals st0); [|done|done].
    intros change s s' _ Hs Hstep. unfold modelChange in Hstep.
    apply bind_Normal in Hstep as (modelIdV & _ & Hstep).
    apply bind_Normal in Hstep as (modelId & _ & Hstep).
    destruct modelId; by injection Hstep as <-. }
  assert (filesFromToolCalls st2 = filesFromToolCalls st1) as ->.
  { apply (forOf_invariant toolResult
             (fun s => filesFromToolCalls s = filesFromToolCalls st1) toolResults st1 st2);
      [|done|done].
    intros result s s' _ Hs Hstep. unfold toolResult in Hstep.
    apply bind_Normal in Hstep as (toolNameV & _ & Hstep).
    apply bind_Normal in Hstep as (toolName & _ & Hstep).
    destruct toolName; by injection Hstep as <-. }
  rewrite (forOf_collects _ filesFromToolCalls
             (fun msg path =>
                ∃ block, piBlock msg block ∧ holdsPath "toolCall" "arguments" block path)
             _ _ _ (fun msg s s' => piTurn_files s s' msg) Hst1 path).
  rewrite Hnone. split.
  - intros [Hin|(msg & Hmsg & block & Hblock & Hpath)]; [by apply elem_of_nil in Hin|].
    apply list_elem_of_In, filter_In in Hmsg as [Hmsg Hturn].
    apply list_elem_of_In in Hmsg. by exists msg, block.
  - intros (msg & block & Hmsg & Hturn & Hblock & Hpath). right. exists msg.
    split; [|by exists block].
    apply list_elem_of_In, filter_In. split; [by apply list_elem_of_In | done].
Qed.
End ToolFacts.

(** ** The command line and the output *)

Section CliFacts.
Context `{Host}.
Import JsString SearchLib.

Lemma checkedDate_valid (v : option string) (bound : option Date) :
  Cli.checkedDate v = Some bound → bound ≠ Some None.
Proof.
  unfold Cli.checkedDate. destruct (Cli.whenGiven v _) as [text|]; [|by intros [= <-]].
  destruct (Date_parse text); [by intros [= <-] | done].
Qed.

Lemma main_Search (values : Cli.Values) (directories : list string)
    (options : Types.SearchOptions) :
  Cli.main values = Cli.Search directories options →
  ∃ since until,
    Cli.checkedDate (Cli.since values) = Some since ∧
    Cli.checkedDate (Cli.until values) = Some until ∧
    options =
      {| Types.query := Cli.query values;
         Types.days := Cli.whenGiven (Cli.days values) Cli.parseInt;
         Types.since := since;
         Types.until := until;
         Types.tools := Cli.whenGiven (Cli.tools values) (fun s => Cli.splitComma s "");
         Types.filePattern := Cli.filePattern values;
         Types.limit := Some (match Cli.whenGiven (Cli.limit values) Cli.parseInt with
                              | Some n => n
                              | None => Types.Int 20
                              end) |}.
Proof.
  unfold Cli.main. destruct (Cli.help values); [done|].
  destruct (negb _); [done|].
  destruct (Cli.checkedDate (Cli.since values)) as [since|]; [|done].
  destruct (Cli.checkedDate (Cli.until values)) as [until|]; [|done].
  intros Hmain. injection Hmain as _ <-. by exists since, until.
Qed.

(** The command line never starts a search with a date bound that is an
    Invalid Date: a [--since] or [--until] that does not parse ends the
    process before anything is searched. *)
Theorem cli_searches_with_valid_bounds (values : Cli.Values)
    (directories : list string) (options : Types.SearchOptions) :
  Cli.main values = Cli.Search directories options →
  Types.since options ≠ Some None ∧ Types.until options ≠ Some None.
Proof.
  intros Hmain. apply main_Search in Hmain as (since & until & Hsince & Huntil & ->).
  cbn [Types.since Types.until]. split; by eapply checkedDate_valid.
Qed.

(** The number of results the command line asks for: the integer
    [--limit] starts with when that is not zero, and 20 when the option
    is absent or empty, starts with no integer, or starts with zero. *)
Theorem cli_limit_falls_back_to_twenty (values : Cli.Values)
    (directories : list string) (options : Types.SearchOptions) :
  Cli.main values = Cli.Search directories options →
  effectiveLimit options =
    match Cli.whenGiven (Cli.limit values) Cli.parseInt with
    | Some (Types.Int n) => if n =? 0 then 20 else n
    | Some Types.NaN | None => 20
    end.
Proof.
  intros Hmain. apply main_Search in Hmain as (since & until & _ & _ & ->).
  unfold effectiveLimit. cbn [Types.limit].
  destruct (Cli.whenGiven (Cli.limit values) Cli.parseInt) as [[|n]|]; [done| |done].
  cbn [numberTruthy]. by destruct (n =? 0).
Qed.

Lemma splitComma_not_nil (s cur : string) : Cli.splitComma s cur ≠ [].
Proof.
  revert cur. induction s as [|c s IH]; intros cur; cbn [Cli.splitComma]; [done|].
  destruct (Ascii.eqb c ","); [done | apply IH].
Qed.

(** A [--tools] argument always asks for one tool name at least, so the
    search it starts keeps no session that used no tool. *)
Theorem cli_tools_exclude_sessions_without_tools (values : Cli.Values)
    (directories : list string) (options : Types.SearchOptions)
    (text : string) (now : Z) (session : Types.ParsedSession) :
  Cli.main values = Cli.Search directories options →
  Cli.tools values = Some text → text ≠ "" →
  Types.toolsUsed session = [] →
  matchesFilters now session options = false.
Proof.
  intros Hmain Htools Htext Hnone.
  apply main_Search in Hmain as (since & until & _ & _ & ->).
  unfold matchesFilters. destruct (endsBeforeSince _ _ _); [done|].
  destruct (endsAfterUntil _ _); [done|].
  unfold lacksTools. cbn [Types.tools]. rewrite Htools. unfold Cli.whenGiven.
  destruct (String.eqb_spec text ""); [done|].
  pose proof (splitComma_not_nil text "") as Hsplit.
  destruct (Cli.splitComma text "") as [|tool tools]; [done|].
  assert (hasMatchingTool session (tool :: tools) = false) as ->; [|done].
  unfold hasMatchingTool. rewrite Hnone.
  generalize (tool :: tools). intros l. induction l as [|x l IH]; [done | exact IH].
Qed.

Section Output.
Variable toISOString : Z → string.

(** [formatResults] throws exactly when some result has an Invalid Date
    as its start or its end; otherwise it returns one entry for each
    result, in the same order, under the same identity and path. *)
Theorem formatResults_throws_on_invalid_date (results : list Types.SearchResult) :
  match Format.formatResults toISOString results with
  | Normal out =>
      Forall (fun r => is_Some (Types.startedAt (Types.session r)) ∧
                       is_Some (Types.endedAt (Types.session r))) results ∧
      map Format.id out = map (fun r => Types.id (Types.session r)) results ∧
      map Format.transcriptPath out = map Types.transcriptPath results
  | Abrupt e =>
      e = Throw ∧
      Exists (fun r => Types.startedAt (Types.session r) = None ∨
                       Types.endedAt (Types.session r) = None) results
  end.
Proof.
  induction results as [|r results IH]; cbn [Format.formatResults]; [done|].
  unfold Format.formatResult, Format.isoOf.
  destruct (Types.startedAt (Types.session r)) as [started|] eqn:Hstarted; cbn [bind];
    [|split; [done | apply Exists_cons_hd; by left]].
  destruct (Types.endedAt (Types.session r)) as [ended|] eqn:Hended; cbn [bind];
    [|split; [done | apply Exists_cons_hd; by right]].
  destruct (Format.formatResults toISOString results) as [out|e]; cbn [bind].
  - destruct IH as (Hvalid & Hids & Hpaths). split; [|split].
    + constructor; [|done]. rewrite Hstarted, Hended. by split.
    + cbn [map Format.id]. by rewrite Hids.
    + cbn [map Format.transcriptPath]. by rewrite Hpaths.
  - destruct IH as [-> Hsome]. split; [done | by apply Exists_cons_tl].
Qed.
End Output.
End CliFacts.

(** ** The properties above on the scenarios *)

Lemma score_counts_matching_pairs_witness :
  "email" ≠ "" ∧
  SearchLib.scoreRelevance Scenario.editSession "email" =
    10 * Z.of_nat (Props.countMatches (Types.userMessages Scenario.editSession)
                     (Props.queryTerms "email"))
    + 3 * Z.of_nat (Props.countMatches (Types.toolsUsed Scenario.editSession)
                      (Props.queryTerms "email"))
    + 3 * Z.of_nat (Props.countMatches (Types.filesFromToolCalls Scenario.editSession)
                      (Props.queryTerms "email")).
Proof.
  split; [discriminate|].
  apply (score_counts_matching_pairs Scenario.editSession "email"). discriminate.
Defined.

Lemma score_zero_iff_no_term_occurs_witness :
  "parser" ≠ "" ∧
  0 ≤ SearchLib.scoreRelevance Scenario.editSession "parser" ∧
  (SearchLib.scoreRelevance Scenario.editSession "parser" = 0 ↔
   Props.anyMatch (Types.userMessages Scenario.editSession
                   ++ Types.toolsUsed Scenario.editSession
                   ++ Types.filesFromToolCalls Scenario.editSession)
     (Props.queryTerms "parser") = false).
Proof.
  split; [discriminate|].
  apply (score_zero_iff_no_term_occurs Scenario.editSession "parser"). discriminate.
Defined.

Lemma scored_session_text_holds_a_term_witness :
  "Email system" ≠ "" ∧
  0 < SearchLib.scoreRelevance Scenario.editSession "Email system" ∧
  ∃ term, term ∈ Props.queryTerms "Email system" ∧
          JsString.includes
            (JsString.toLowerCase (Parser.getSearchableText Scenario.editSession)) term
          = true.
Proof.
  split; [discriminate|]. split; [vm_compute; reflexivity|].
  apply (scored_session_text_holds_a_term Scenario.editSession "Email system");
    [discriminate | vm_compute; reflexivity].
Defined.

Lemma since_overrides_days_witness :
  Types.since Scenario.sinceOptions = Some (Some 1706745600000) ∧
  SearchLib.matchesFilters Scenario.now Scenario.editSession Scenario.sinceOptions =
  SearchLib.matchesFilters Scenario.now Scenario.editSession
    (Props.withoutDays Scenario.sinceOptions).
Proof.
  split; [reflexivity|].
  apply (since_overrides_days Scenario.now Scenario.editSession Scenario.sinceOptions
           (Some 1706745600000)).
  reflexivity.
Defined.

Lemma days_bound_is_now_minus_days_witness :
  Types.days (Scenario.daysOptions 7) = Some (Types.Int 7) ∧
  7 ≠ 0 ∧
  Types.since (Scenario.daysOptions 7) = None ∧
  Types.endedAt Scenario.editSession = Some 1708336805000 ∧
  (Z.abs (Scenario.now - 7 * 86400000) ≤ 8640000000000000 →
   SearchLib.endsBeforeSince Scenario.now Scenario.editSession (Scenario.daysOptions 7)
   = true ↔ 1708336805000 < Scenario.now - 7 * 86400000) ∧
  (8640000000000000 < Z.abs (Scenario.now - 7 * 86400000) →
   SearchLib.endsBeforeSince Scenario.now Scenario.editSession (Scenario.daysOptions 7)
   = false).
Proof.
  split; [reflexivity|]. split; [lia|]. split; [reflexivity|]. split; [reflexivity|].
  apply (days_bound_is_now_minus_days Scenario.now 7 1708336805000 Scenario.editSession
           (Scenario.daysOptions 7)); [reflexivity | lia | reflexivity | reflexivity].
Defined.

Lemma invalid_end_passes_date_bounds_witness :
  Types.endedAt Scenario.undatedSession = None ∧
  SearchLib.endsBeforeSince Scenario.now Scenario.undatedSession Scenario.sinceOptions
    = false ∧
  SearchLib.endsAfterUntil Scenario.undatedSession Scenario.sinceOptions = false ∧
  SearchLib.matchesFilters Scenario.now Scenario.undatedSession Scenario.sinceOptions =
    negb (SearchLib.lacksTools Scenario.undatedSession Scenario.sinceOptions)
    && negb (SearchLib.lacksFile Scenario.undatedSession Scenario.sinceOptions).
Proof.
  split; [reflexivity|].
  apply (invalid_end_passes_date_bounds Scenario.now Scenario.undatedSession
           Scenario.sinceOptions).
  reflexivity.
Defined.

Lemma file_filter_any_substring_witness :
  Types.filePattern (Scenario.fileOptions "API/") = Some "API/" ∧
  "API/" ≠ "" ∧
  (SearchLib.matchesFilters Scenario.now Scenario.editSession (Scenario.fileOptions "API/")
   = true ↔
   SearchLib.matchesFilters Scenario.now Scenario.editSession
     (Props.withoutFilePattern (Scenario.fileOptions "API/")) = true ∧
   ∃ f, f ∈ Types.filesFromToolCalls Scenario.editSession ∧
        Props.substringIgnoringCase "API/" f).
Proof.
  split; [reflexivity|]. split; [discriminate|].
  apply (file_filter_any_substring Scenario.now Scenario.editSession
           (Scenario.fileOptions "API/") "API/"); [reflexivity | discriminate].
Defined.

Lemma empty_tool_name_matches_any_tool_witness :
  "" ∈ ["Bash"; ""] ∧
  (SearchLib.hasMatchingTool Scenario.editSession ["Bash"; ""] = true ↔
   Types.toolsUsed Scenario.editSession ≠ []).
Proof.
  assert ("" ∈ ["Bash"; ""]) as Hin by (apply list_elem_of_In; simpl; tauto).
  split; [exact Hin|].
  exact (empty_tool_name_matches_any_tool Scenario.editSession ["Bash"; ""] Hin).
Defined.

Lemma processSessionFiles_results_are_built_witness :
  ∃ results tick',
    @SearchLib.processSessionFiles Scenario.emailHost [Scenario.emailPath]
      (Scenario.queryOptions "email") 0 = Normal (results, tick') ∧
    Forall (fun r => Types.transcriptPath r ∈ [Scenario.emailPath] ∧
                     @Props.builtFrom Scenario.emailHost (Scenario.queryOptions "email")
                       (Types.transcriptPath r) r) results.
Proof.
  eexists _, _. split; [vm_compute; reflexivity|].
  eapply (@processSessionFiles_results_are_built Scenario.emailHost [Scenario.emailPath]
           (Scenario.queryOptions "email") 0%nat).
  vm_compute. reflexivity.
Defined.

Lemma processSessionFiles_keeps_file_order_witness :
  ∃ results tick',
    @SearchLib.processSessionFiles Scenario.emailHost
      ["/sessions/project/missing.jsonl"; Scenario.emailPath]
      Scenario.noOptions 0 = Normal (results, tick') ∧
    Types.transcriptPath <$> results
      `sublist_of` ["/sessions/project/missing.jsonl"; Scenario.emailPath].
Proof.
  eexists _, _. split; [vm_compute; reflexivity|].
  eapply (@processSessionFiles_keeps_file_order Scenario.emailHost
           ["/sessions/project/missing.jsonl"; Scenario.emailPath] Scenario.noOptions 0%nat).
  vm_compute. reflexivity.
Defined.

Lemma blank_query_excludes_every_file_witness :
  Types.query (Scenario.queryOptions "   ") = Some "   " ∧
  "   " ≠ "" ∧
  Props.isBlank "   " = true ∧
  ∃ results tick',
    @SearchLib.processSessionFiles Scenario.emailHost [Scenario.emailPath]
      (Scenario.queryOptions "   ") 0 = Normal (results, tick') ∧
    results = [].
Proof.
  split; [reflexivity|]. split; [discriminate|]. split; [reflexivity|].
  eexists _, _. split; [vm_compute; reflexivity|].
  eapply (@blank_query_excludes_every_file Scenario.emailHost [Scenario.emailPath]
           (Scenario.queryOptions "   ") "   " 0%nat);
    [reflexivity | discriminate | reflexivity | vm_compute; reflexivity].
Defined.

Lemma search_results_come_from_searched_dirs_witness :
  ∃ output,
    @SearchLib.searchSessions Scenario.emailHost ["/sessions"]
      (Scenario.queryOptions "email") 0 = Normal output ∧
    Forall (fun r => ∃ baseDir dir,
                       baseDir ∈ ["/sessions"] ∧
                       dir ∈ @Props.searchedDirs Scenario.emailHost baseDir ∧
                       @Props.listedIn Scenario.emailHost dir (Types.transcriptPath r) ∧
                       @Props.builtFrom Scenario.emailHost (Scenario.queryOptions "email")
                         (Types.transcriptPath r) r) output.
Proof.
  eexists. split; [vm_compute; reflexivity|].
  apply (@search_results_come_from_searched_dirs Scenario.emailHost ["/sessions"]
           (Scenario.queryOptions "email") 0%nat).
  vm_compute. reflexivity.
Defined.

Lemma negative_limit_drops_from_the_end_witness :
  Types.limit (Scenario.limitOptions (-1)) = Some (Types.Int (-1)) ∧
  -1 < 0 ∧
  SearchLib.sortAndLimit
    [ Scenario.resultOf Scenario.questionSession 1 "/sessions/project/question.jsonl";
      Scenario.resultOf Scenario.editSession 13 Scenario.emailPath ]
    (Scenario.limitOptions (-1)) =
  take (2 - Z.to_nat (- -1))
    (SearchLib.sort SearchLib.compareResults
       [ Scenario.resultOf Scenario.questionSession 1 "/sessions/project/question.jsonl";
         Scenario.resultOf Scenario.editSession 13 Scenario.emailPath ]).
Proof.
  split; [reflexivity|]. split; [lia|].
  apply (negative_limit_drops_from_the_end
           [ Scenario.resultOf Scenario.questionSession 1 "/sessions/project/question.jsonl";
             Scenario.resultOf Scenario.editSession 13 Scenario.emailPath ]
           (Scenario.limitOptions (-1)) (-1)); [reflexivity | lia].
Defined.

Lemma parsed_sets_hold_no_duplicates_witness :
  ∃ session,
    @Parser.parseSessionContent Scenario.emailHost Scenario.piToolTranscript None
      = Normal (Some session) ∧
    NoDup (Types.toolsUsed session) ∧ NoDup (Types.filesFromToolCalls session)
    ∧ NoDup (Types.modelsUsed session).
Proof.
  eexists. split; [vm_compute; reflexivity|].
  apply (@parsed_sets_hold_no_duplicates Scenario.emailHost Scenario.piToolTranscript None).
  vm_compute. reflexivity.
Defined.

Lemma per_model_entries_are_models_used_witness :
  ∃ session,
    @Parser.parseSessionContent Scenario.emailHost Scenario.emailTranscript None
      = Normal (Some session) ∧
    is_Some (Types.modelTokens session !! "claude-3-5-sonnet-20241022") ∧
    "claude-3-5-sonnet-20241022" ∈ Types.modelsUsed session.
Proof.
  eexists. split; [vm_compute; reflexivity|].
  assert (is_Some (Types.modelTokens Scenario.editSession !! "claude-3-5-sonnet-20241022"))
    as Hbucket by (vm_compute; eauto).
  split; [exact Hbucket|].
  apply (@per_model_entries_are_models_used Scenario.emailHost Scenario.emailTranscript None);
    [vm_compute; reflexivity | exact Hbucket].
Defined.

Lemma session_id_prefers_file_name_witness :
  ∃ session,
    @Parser.parseSessionContent Scenario.emailHost Scenario.emailTranscript
      (Some Scenario.namedPath) = Normal (Some session) ∧
    (∀ id, Parser.matchSessionId (Some Scenario.namedPath) = Some id →
           Types.id session = id) ∧
    Types.id session ≠ "".
Proof.
  eexists. split; [vm_compute; reflexivity|].
  apply (@session_id_prefers_file_name Scenario.emailHost Scenario.emailTranscript
           (Some Scenario.namedPath)).
  vm_compute. reflexivity.
Defined.

Lemma messageCount_counts_turns_witness :
  ∃ session,
    @Parser.parseSessionContent Scenario.emailHost Scenario.piToolTranscript None
      = Normal (Some session) ∧
    Types.messageCount session = length (Props.conversationalTurns Scenario.piToolTranscript) ∧
    (1 ≤ Types.messageCount session)%nat.
Proof.
  eexists. split; [vm_compute; reflexivity|].
  apply (@messageCount_counts_turns Scenario.emailHost Scenario.piToolTranscript None).
  vm_compute. reflexivity.
Defined.

Lemma claude_user_messages_in_transcript_order_witness :
  ∃ session,
    @Parser.parseClaudeSessionContent Scenario.emailHost Scenario.backwardsTranscript None
      = Normal (Some session) ∧
    Types.userMessages session =
      omap Props.claudeUserText
        (List.filter Props.isClaudeTurn (Props.parsedValues Scenario.backwardsTranscript)) ∧
    (length (Types.userMessages session) ≤ Types.messageCount session)%nat.
Proof.
  eexists. split; [vm_compute; reflexivity|].
  apply (@claude_user_messages_in_transcript_order Scenario.emailHost
           Scenario.backwardsTranscript None).
  vm_compute. reflexivity.
Defined.

Lemma claude_tools_are_tool_use_names_witness :
  ∃ session,
    @Parser.parseClaudeSessionContent Scenario.emailHost Scenario.emailTranscript None
      = Normal (Some session) ∧
    ∀ name, name ∈ Types.toolsUsed session ↔
      ∃ msg block, msg ∈ Props.parsedValues Scenario.emailTranscript ∧
                   Props.claudeBlock msg block ∧ Props.namesTool "tool_use" block name.
Proof.
  eexists. split; [vm_compute; reflexivity|].
  apply (@claude_tools_are_tool_use_names Scenario.emailHost Scenario.emailTranscript None).
  vm_compute. reflexivity.
Defined.

Lemma pi_tools_are_calls_and_results_witness :
  ∃ session,
    @Parser.parsePiSessionContent Scenario.emailHost Scenario.piToolTranscript None
      = Normal (Some session) ∧
    ∀ name, name ∈ Types.toolsUsed session ↔
      (∃ msg block, msg ∈ Props.parsedValues Scenario.piToolTranscript ∧
                    Props.isPiTurn msg = true ∧
                    Props.piBlock msg block ∧ Props.namesTool "toolCall" block name) ∨
      (∃ result, result ∈ Props.parsedValues Scenario.piToolTranscript ∧
                 Props.namesToolResult result name).
Proof.
  eexists. split; [vm_compute; reflexivity|].
  apply (@pi_tools_are_calls_and_results Scenario.emailHost Scenario.piToolTranscript None).
  vm_compute. reflexivity.
Defined.

Lemma cli_searches_with_valid_bounds_witness :
  ∃ directories options,
    @Cli.main Scenario.emailHost Scenario.cliValues = Cli.Search directories options ∧
    Types.since options ≠ Some None ∧ Types.until options ≠ Some None.
Proof.
  eexists _, _. split; [vm_compute; reflexivity|].
  apply (@cli_searches_with_valid_bounds Scenario.emailHost Scenario.cliValues ["/sessions"]).
  vm_compute. reflexivity.
Defined.

Lemma cli_limit_falls_back_to_twenty_witness :
  ∃ directories options,
    @Cli.main Scenario.emailHost Scenario.cliValues = Cli.Search directories options ∧
    SearchLib.effectiveLimit options = 20.
Proof.
  eexists _, _. split; [vm_compute; reflexivity|].
  apply (@cli_limit_falls_back_to_twenty Scenario.emailHost Scenario.cliValues ["/sessions"]).
  vm_compute. reflexivity.
Defined.

Lemma cli_tools_exclude_sessions_without_tools_witness :
  ∃ directories options,
    @Cli.main Scenario.emailHost Scenario.cliValues = Cli.Search directories options ∧
    Cli.tools Scenario.cliValues = Some "Edit,Bash" ∧
    "Edit,Bash" ≠ "" ∧
    Types.toolsUsed Scenario.questionSession = [] ∧
    SearchLib.matchesFilters Scenario.now Scenario.questionSession options = false.
Proof.
  eexists _, _. split; [vm_compute; reflexivity|].
  split; [reflexivity|]. split; [discriminate|]. split; [reflexivity|].
  apply (@cli_tools_exclude_sessions_without_tools Scenario.emailHost Scenario.cliValues
           ["/sessions"] _ "Edit,Bash" Scenario.now Scenario.questionSession);
    [vm_compute; reflexivity | reflexivity | discriminate | reflexivity].
Defined.

Lemma claude_files_are_paths_of_tool_inputs_witness :
  ∃ session,
    @Parser.parseClaudeSessionContent Scenario.emailHost Scenario.emailTranscript None
      = Normal (Some session) ∧
    ∀ path, path ∈ Types.filesFromToolCalls session ↔
      ∃ msg block, msg ∈ Props.parsedValues Scenario.emailTranscript ∧
                   Props.claudeBlock msg block ∧
                   Props.holdsPath "tool_use" "input" block path.
Proof.
  eexists. split; [vm_compute; reflexivity|].
  apply (@claude_files_are_paths_of_tool_inputs Scenario.emailHost
           Scenario.emailTranscript None).
  vm_compute. reflexivity.
Defined.

Lemma pi_files_are_paths_of_tool_arguments_witness :
  ∃ session,
    @Parser.parsePiSessionContent Scenario.emailHost Scenario.piToolTranscript None
      = Normal (Some session) ∧
    ∀ path, path ∈ Types.filesFromToolCalls session ↔
      ∃ msg block, msg ∈ Props.parsedValues Scenario.piToolTranscript ∧
                   Props.isPiTurn msg = true ∧
                   Props.piBlock msg block ∧
                   Props.holdsPath "toolCall" "arguments" block path.
Proof.
  eexists. split; [vm_compute; reflexivity|].
  apply (@pi_files_are_paths_of_tool_arguments Scenario.emailHost
           Scenario.piToolTranscript None).
  vm_compute. reflexivity.
Defined.
